(** * E-NAHEO brain, version 2: estimator, predictive controller, learner
      and orchestrator of [e_naheo_brain_v2.py]

    The Python program computes on IEEE 754 binary64 numbers (Python
    [float], NumPy [float64]).  They are modelled bit for bit by the
    executable specification [SpecFloat] of the standard library,
    instantiated at precision 53 and maximal exponent 1024, so that every
    rounding, every NaN and every signed zero of the program is present
    in the model.  Mutable objects are records threaded through a small
    state-and-exception monad whose state survives a raised exception,
    as the fields of a Python object do. *)

From Stdlib Require Import ZArith Lia Floats.SpecFloat.
From stdpp Require Import base option list gmap strings.

Local Open Scope Z_scope.

(** ** Binary64 arithmetic *)

Abbreviation float := spec_float.

Definition prec : Z := 53.
Definition emax : Z := 1024.

Definition fadd : float → float → float := SFadd prec emax.
Definition fsub : float → float → float := SFsub prec emax.
Definition fmul : float → float → float := SFmul prec emax.
(** IEEE division: the one NumPy scalars and arrays use (a zero divisor
    gives an infinity or a NaN, never an exception). *)
Definition fdiv : float → float → float := SFdiv prec emax.
Definition fabs : float → float := SFabs.
Definition flt : float → float → bool := SFltb.
Definition fle : float → float → bool := SFleb.
Definition feq : float → float → bool := SFeqb.

Definition is_nan (x : float) : bool :=
  match x with S754_nan => true | _ => false end.

Definition is_inf (x : float) : bool :=
  match x with S754_infinity _ => true | _ => false end.

Definition is_finite (x : float) : bool :=
  match x with S754_zero _ | S754_finite _ _ _ => true | _ => false end.

Definition sign_bit (x : float) : bool :=
  match x with
  | S754_zero s | S754_infinity s | S754_finite s _ _ => s
  | S754_nan => false
  end.

(** The float nearest to an integer, and the float nearest to the decimal
    literal [m / 10^k]: both operands of the division are exact for the
    literals of the program, so the quotient is the correctly rounded
    literal. *)
Definition of_Z (n : Z) : float := binary_normalize prec emax n 0 false.
Definition dec (m k : Z) : float := fdiv (of_Z m) (of_Z (10 ^ k)).

Definition f0 : float := S754_zero false.
Definition f0_01 : float := Eval vm_compute in dec 1 2.
Definition f0_05 : float := Eval vm_compute in dec 5 2.
Definition f0_001 : float := Eval vm_compute in dec 1 3.
Definition f0_1 : float := Eval vm_compute in dec 1 1.
Definition f0_18 : float := Eval vm_compute in dec 18 2.
Definition f0_3 : float := Eval vm_compute in dec 3 1.
Definition f0_5 : float := Eval vm_compute in dec 5 1.
Definition f0_8 : float := Eval vm_compute in dec 8 1.
Definition f0_9 : float := Eval vm_compute in dec 9 1.
Definition f1 : float := Eval vm_compute in of_Z 1.
Definition f2_4 : float := Eval vm_compute in dec 24 1.
Definition f4 : float := Eval vm_compute in of_Z 4.
Definition f5 : float := Eval vm_compute in of_Z 5.
Definition f6 : float := Eval vm_compute in of_Z 6.
Definition f7_5 : float := Eval vm_compute in dec 75 1.
Definition f8_4 : float := Eval vm_compute in dec 84 1.
Definition f20 : float := Eval vm_compute in of_Z 20.
Definition f100 : float := Eval vm_compute in of_Z 100.
Definition f110 : float := Eval vm_compute in of_Z 110.

(** ** Python exceptions and the state-and-exception monad *)

Inductive exn : Set :=
| KeyError | ValueError | OverflowError | ZeroDivisionError | IndexError.

(** A computation without side effect that may raise. *)
Inductive result (A : Type) : Type :=
| Ok (a : A)
| Err (e : exn).
Arguments Ok {A} a.
Arguments Err {A} e.

(** A computation on a mutable object of type [St]: it ends with a value
    or with an exception, and in both cases with the object as the
    computation left it. *)
Inductive outcome (St A : Type) : Type :=
| Return (s : St) (a : A)
| Raise (s : St) (e : exn).
Arguments Return {St A} s a.
Arguments Raise {St A} s e.

Definition M (St A : Type) : Type := St → outcome St A.

Definition ret {St A} (a : A) : M St A := λ s, Return s a.
Definition raise {St A} (e : exn) : M St A := λ s, Raise s e.
Definition bind {St A B} (m : M St A) (k : A → M St B) : M St B :=
  λ s, match m s with
       | Return s' a => k a s'
       | Raise s' e => Raise s' e
       end.
Definition get {St} : M St St := λ s, Return s s.
Definition put {St} (s : St) : M St unit := λ _, Return s tt.
Definition lift {St A} (r : result A) : M St A :=
  match r with Ok a => ret a | Err e => raise e end.

(** Run a computation of a component inside the object that owns it. *)
Definition zoom {St T A} (proj : St → T) (upd : T → St → St) (m : M T A)
  : M St A :=
  λ s, match m (proj s) with
       | Return t a => Return (upd t s) a
       | Raise t e => Raise (upd t s) e
       end.

Declare Scope py_scope.
Delimit Scope py_scope with py.
Notation "x <- m ;; k" := (bind m (λ x, k))
  (at level 100, m at next level, right associativity) : py_scope.
Notation "m ;; k" := (bind m (λ _, k))
  (at level 100, right associativity) : py_scope.

Definition raised {St A} (o : outcome St A) : option exn :=
  match o with Return _ _ => None | Raise _ e => Some e end.

Definition returned {St A} (o : outcome St A) : option A :=
  match o with Return _ a => Some a | Raise _ _ => None end.

Definition final_state {St A} (o : outcome St A) : St :=
  match o with Return s _ | Raise s _ => s end.

(** ** Python operators on floats *)

(** [x / y] on Python floats. *)
Definition py_truediv (x y : float) : result float :=
  if feq y f0 then Err ZeroDivisionError else Ok (fdiv x y).

(** [x ** 2] on a Python float, taken to be the correctly rounded
    square (it is for the gain 0.8 of the program), with the
    [OverflowError] Python raises when a finite base gives an infinite
    power. *)
Definition py_pow2 (x : float) : result float :=
  let r := fmul x x in
  if is_finite x && is_inf r then Err OverflowError else Ok r.

(** The builtins [max(a, b)] and [min(a, b)]: the first argument is kept
    unless the second is strictly better, so a NaN second argument is
    dropped. *)
Definition py_max (a b : float) : float := if flt a b then b else a.
Definition py_min (a b : float) : float := if flt b a then b else a.

(** [max(xs)] on a non-empty iterable, [ValueError] on an empty one. *)
Definition py_max_list (xs : list float) : result float :=
  match xs with
  | [] => Err ValueError
  | x :: rest => Ok (foldl py_max x rest)
  end.

(** Truth value of a float: every float but the zeros. *)
Definition truthy (x : float) : bool := negb (feq x f0).

(** C [fmod]: the exact remainder, with the sign of the dividend. *)
Definition fmod (x y : float) : float :=
  match x, y with
  | S754_nan, _ | _, S754_nan => S754_nan
  | S754_infinity _, _ => S754_nan
  | _, S754_zero _ => S754_nan
  | S754_zero _, _ => x
  | S754_finite _ _ _, S754_infinity _ => x
  | S754_finite sx mx ex, S754_finite _ my ey =>
      let e := Z.min ex ey in
      match (Zpos mx * 2 ^ (ex - e)) mod (Zpos my * 2 ^ (ey - e)) with
      | 0 => S754_zero sx
      | r => binary_normalize prec emax (cond_Zopp sx r) e false
      end
  end.

(** C [floor]. *)
Definition floor (x : float) : float :=
  match x with
  | S754_finite s m e =>
      if 0 <=? e then x
      else match cond_Zopp s (Zpos m) / 2 ^ (- e) with
           | 0 => S754_zero s
           | n => binary_normalize prec emax n 0 false
           end
  | _ => x
  end.

(** [vx // wx] on Python floats, as CPython's [float_floor_div] computes
    it: remainder by [fmod], quotient snapped to an integral value. *)
Definition py_floordiv (vx wx : float) : result float :=
  if feq wx f0 then Err ZeroDivisionError
  else
    let md := fmod vx wx in
    let div := fdiv (fsub vx md) wx in
    let div :=
      if truthy md && negb (eqb (flt wx f0) (flt md f0))
      then fsub div f1 else div in
    if truthy div then
      let fl := floor div in
      Ok (if flt f0_5 (fsub div fl) then fadd fl f1 else fl)
    else Ok (S754_zero (sign_bit (fdiv vx wx))).

(** [int(x)] on a Python float: truncation toward zero. *)
Definition py_int (x : float) : result Z :=
  match x with
  | S754_nan => Err ValueError
  | S754_infinity _ => Err OverflowError
  | S754_zero _ => Ok 0
  | S754_finite s m e =>
      Ok (cond_Zopp s (if 0 <=? e then Zpos m * 2 ^ e
                       else Zpos m / 2 ^ (- e)))
  end.

(** ** NumPy arrays of the estimator: 2-vectors and 2x2 matrices *)

Definition vec2 : Type := float * float.
Definition mat2 : Type := vec2 * vec2.

(** [np.dot(A, v)], [np.dot(v, w)] and [np.outer(v, w)]; the sums of
    products are taken left to right, each product and sum rounded. *)
Definition mat_vec (A : mat2) (v : vec2) : vec2 :=
  let '((a00, a01), (a10, a11)) := A in
  let '(v0, v1) := v in
  (fadd (fmul a00 v0) (fmul a01 v1), fadd (fmul a10 v0) (fmul a11 v1)).

Definition vec_dot (v w : vec2) : float :=
  fadd (fmul (fst v) (fst w)) (fmul (snd v) (snd w)).

Definition outer (v w : vec2) : mat2 :=
  ((fmul (fst v) (fst w), fmul (fst v) (snd w)),
   (fmul (snd v) (fst w), fmul (snd v) (snd w))).

Definition vec_map (f : float → float) (v : vec2) : vec2 :=
  (f (fst v), f (snd v)).

Definition vec_zip (f : float → float → float) (v w : vec2) : vec2 :=
  (f (fst v) (fst w), f (snd v) (snd w)).

Definition mat_map (f : float → float) (A : mat2) : mat2 :=
  (vec_map f (fst A), vec_map f (snd A)).

Definition mat_zip (f : float → float → float) (A B : mat2) : mat2 :=
  (vec_zip f (fst A) (fst B), vec_zip f (snd A) (snd B)).

(** ** class EKF_GhostSensor *)

Module EKF_GhostSensor.

Record t : Type := mk {
  x : vec2;      (* state vector [I, R] *)
  P : mat2;      (* covariance *)
  Q : mat2;      (* process noise *)
  R : float      (* measurement noise *)
}.

Definition init : t :=
  {| x := (f0, f0_3);
     P := ((f1, f0), (f0, f1));
     Q := ((f0_01, f0), (f0, f0_001));
     R := f0_1 |}.

(** The belief before the two clamps of [update]. *)
Definition unclamped (self : t) (v_term v_ocv : float) : vec2 :=
  let z := py_max f0 (fsub v_ocv v_term) in
  let x_pred := x self in
  let P_pred := mat_zip fadd (P self) (Q self) in
  let H := (snd (x self), fst (x self)) in
  let S := fadd (vec_dot H (mat_vec P_pred H)) (R self) in
  let K := vec_map (λ k, fdiv k S) (mat_vec P_pred H) in
  let y := fsub z (fmul (fst x_pred) (snd x_pred)) in
  vec_zip fadd x_pred (vec_map (λ k, fmul k y) K).

Definition covariance (self : t) : mat2 :=
  let P_pred := mat_zip fadd (P self) (Q self) in
  let H := (snd (x self), fst (x self)) in
  let S := fadd (vec_dot H (mat_vec P_pred H)) (R self) in
  let K := vec_map (λ k, fdiv k S) (mat_vec P_pred H) in
  mat_zip fsub P_pred (mat_map (λ k, fmul k S) (outer K H)).

Definition update (v_term v_ocv : float) : M t float :=
  (self <- get ;;
   let x' := unclamped self v_term v_ocv in
   let x0 := py_max f0 (fst x') in
   let x1 := py_max f0_05 (snd x') in
   put {| x := (x0, x1); P := covariance self; Q := Q self; R := R self |} ;;
   ret x0)%py.

(** A sequence of calls [(v_term, v_ocv)]: for each one, the estimator
    before and after it, the terminal voltage, and the value returned. *)
Fixpoint update_all (calls : list (float * float)) (self : t)
  : list (t * t * float * float) :=
  match calls with
  | [] => []
  | (v_term, v_ocv) :: calls' =>
      match update v_term v_ocv self with
      | Return self' r => (self, self', v_term, r) :: update_all calls' self'
      | Raise _ _ => []
      end
  end.

End EKF_GhostSensor.

(** ** class TrueMPC_Reactor *)

Module TrueMPC_Reactor.

Record t : Type := mk {
  u : float;     (* last duty cycle *)
  a : float;
  b : float
}.

Definition init : t := {| u := f1; a := f0_9; b := f0_8 |}.

Definition numerator (self : t) (target_v_norm current_v_norm
                                 penalty_lambda : float) : float :=
  let v_next :=
    fadd (fmul (a self) current_v_norm) (fmul (b self) (u self)) in
  fadd
    (fadd
       (fmul (b self) (fsub target_v_norm (fmul (a self) current_v_norm)))
       (fmul (fmul (fmul f0_5 (a self)) (b self))
             (fsub target_v_norm v_next)))
    (fmul penalty_lambda (u self)).

Definition denominator (self : t) (penalty_lambda : float) : result float :=
  match py_pow2 (b self) with
  | Ok b2 => Ok (fadd (fadd b2 (fmul (fmul f0_5 (a self)) b2)) penalty_lambda)
  | Err e => Err e
  end.

Definition compute (target_v_norm current_v_norm penalty_lambda : float)
  : M t float :=
  (self <- get ;;
   let num := numerator self target_v_norm current_v_norm penalty_lambda in
   den <- lift (denominator self penalty_lambda) ;;
   u_opt <- lift (py_truediv num den) ;;
   let u' := py_max f0_1 (py_min f1 u_opt) in
   put {| u := u'; a := a self; b := b self |} ;;
   ret u')%py.

End TrueMPC_Reactor.

(** ** The module [random]

    The generator of the [random] module is one global object.  A seed
    fixes the whole sequence of what it hands out; the state is that
    sequence and a cursor in it.  [random()] scales a 53-bit output to
    [[0, 1)].  [choice(seq)] takes an index below the length of [seq]
    from the generator (CPython draws bits until they give one); here
    the next output, reduced modulo the length, stands for that
    index. *)

Module Random.

Record t : Type := mk {
  draws : nat → Z;
  cursor : nat
}.

Definition next_raw : M t Z :=
  (g <- get ;;
   put {| draws := draws g; cursor := S (cursor g) |} ;;
   ret (draws g (cursor g)))%py.

Definition unit_float (k : Z) : float :=
  binary_normalize prec emax (k mod 2 ^ 53) (-53) false.

Definition random : M t float :=
  (k <- next_raw ;; ret (unit_float k))%py.

Definition choice {A} (seq : list A) : M t A :=
  match seq with
  | [] => raise IndexError
  | _ =>
      (k <- next_raw ;;
       match seq !! Z.to_nat (k mod Z.of_nat (length seq)) with
       | Some a => ret a
       | None => raise IndexError
       end)%py
  end.

End Random.

(** ** class QLearning_Strategist *)

(** A row of the table is a [dict] from action to value: an association
    list in insertion order, which is the order [max] iterates in.
    Keys are compared with [==]. *)
Abbreviation row := (list (float * float)).

(** [d[k]] *)
Fixpoint row_get (d : row) (k : float) : result float :=
  match d with
  | [] => Err KeyError
  | (k', v) :: d' => if feq k' k then Ok v else row_get d' k
  end.

(** [d[k] = v]: an existing key keeps its place, a new one goes last. *)
Fixpoint row_set (d : row) (k v : float) : row :=
  match d with
  | [] => [(k, v)]
  | (k', v') :: d' =>
      if feq k' k then (k', v) :: d' else (k', v') :: row_set d' k v
  end.

(** [{a: 0.0 for a in actions}] *)
Definition new_row (actions : list float) : row :=
  foldl (λ d a, row_set d a f0) [] actions.

(** [max(d, key=d.get)]: the first key is kept unless a later key has a
    strictly greater value. *)
Definition better (best item : float * float) : float * float :=
  if flt (snd best) (snd item) then item else best.

Definition argmax (d : row) : result float :=
  match d with
  | [] => Err ValueError
  | item :: rest => Ok (fst (foldl better item rest))
  end.

Module QLearning_Strategist.

Record t : Type := mk {
  q_table : gmap Z row;
  alpha : float;
  gamma : float;
  epsilon : float;
  actions : list float
}.

Definition init : t :=
  {| q_table := ∅; alpha := f0_1; gamma := f0_9; epsilon := f0_1;
     actions := [f0_1; f1; f5] |}.

Definition set_q_table (q : gmap Z row) (self : t) : t :=
  {| q_table := q; alpha := alpha self; gamma := gamma self;
     epsilon := epsilon self; actions := actions self |}.

(** [int(soc // 20) * 20] *)
Definition get_state (soc : float) : result Z :=
  match py_floordiv soc f20 with
  | Ok q => match py_int q with
            | Ok n => Ok (n * 20)
            | Err e => Err e
            end
  | Err e => Err e
  end.

(** [if state not in self.q_table: self.q_table[state] = {...}] *)
Definition with_row (state : Z) (self : t) : t :=
  match q_table self !! state with
  | Some _ => self
  | None =>
      set_q_table (<[state := new_row (actions self)]> (q_table self)) self
  end.

Definition ensure_row (state : Z) : M t unit :=
  (self <- get ;; put (with_row state self))%py.

(** [self.q_table[state]] *)
Definition lookup_row (state : Z) : M t row :=
  (self <- get ;;
   match q_table self !! state with
   | Some d => ret d
   | None => raise KeyError
   end)%py.

(** The part of [choose_action] after the exploration test. *)
Definition greedy (state : Z) : M t float :=
  (ensure_row state ;;
   d <- lookup_row state ;;
   lift (argmax d))%py.

(** The state is the learner and the generator of [random]. *)
Definition choose_action (state : Z) : M (t * Random.t) float :=
  (r <- zoom snd (λ g s, (fst s, g)) Random.random ;;
   self <- zoom fst (λ q s, (q, snd s)) get ;;
   if flt r (epsilon self)
   then zoom snd (λ g s, (fst s, g)) (Random.choice (actions self))
   else zoom fst (λ q s, (q, snd s)) (greedy state))%py.

Definition learn (state : Z) (action reward : float) (next_state : Z)
  : M t unit :=
  (ensure_row state ;;
   ensure_row next_state ;;
   d <- lookup_row state ;;
   old_q <- lift (row_get d action) ;;
   d_next <- lookup_row next_state ;;
   next_max <- lift (py_max_list d_next.*2) ;;
   self <- get ;;
   let new_q :=
     fadd old_q
          (fmul (alpha self)
                (fsub (fadd reward (fmul (gamma self) next_max)) old_q)) in
   d <- lookup_row state ;;
   put (set_q_table (<[state := row_set d action new_q]> (q_table self))
                    self))%py.

End QLearning_Strategist.

(** ** The observation: a [dict] from field name to value *)

Inductive pyval : Type :=
| PyFloat (x : float)
| PyBool (b : bool).

(** A [bool] in arithmetic is the integer 0 or 1. *)
Definition as_float (v : pyval) : float :=
  match v with
  | PyFloat x => x
  | PyBool b => if b then f1 else f0
  end.

Definition is_true (v : pyval) : bool :=
  match v with
  | PyFloat x => truthy x
  | PyBool b => b
  end.

(** [d[key]] *)
Definition item (d : gmap string pyval) (key : string) : result pyval :=
  match d !! key with
  | Some v => Ok v
  | None => Err KeyError
  end.

(** ** class NAHEO_Brain_V2 *)

Module NAHEO_Brain_V2.

Record t : Type := mk {
  ghost : EKF_GhostSensor.t;
  mpc : TrueMPC_Reactor.t;
  rl : QLearning_Strategist.t;
  last_soc_state : Z;
  last_action : float
}.

Definition init : t :=
  {| ghost := EKF_GhostSensor.init;
     mpc := TrueMPC_Reactor.init;
     rl := QLearning_Strategist.init;
     last_soc_state := 100;
     last_action := f1 |}.

(** What a cycle can read and write: the brain and the generator of the
    module [random]. *)
Record world : Type := mk_world {
  brain : t;
  rng : Random.t
}.

Definition set_ghost (g : EKF_GhostSensor.t) (w : world) : world :=
  {| brain := {| ghost := g; mpc := mpc (brain w); rl := rl (brain w);
                 last_soc_state := last_soc_state (brain w);
                 last_action := last_action (brain w) |};
     rng := rng w |}.

Definition set_mpc (m : TrueMPC_Reactor.t) (w : world) : world :=
  {| brain := {| ghost := ghost (brain w); mpc := m; rl := rl (brain w);
                 last_soc_state := last_soc_state (brain w);
                 last_action := last_action (brain w) |};
     rng := rng w |}.

Definition set_rl_rng (qg : QLearning_Strategist.t * Random.t) (w : world)
  : world :=
  {| brain := {| ghost := ghost (brain w); mpc := mpc (brain w);
                 rl := fst qg;
                 last_soc_state := last_soc_state (brain w);
                 last_action := last_action (brain w) |};
     rng := snd qg |}.

Definition set_rl (q : QLearning_Strategist.t) (w : world) : world :=
  set_rl_rng (q, rng w) w.

Definition set_last (s : Z) (act : float) (w : world) : world :=
  {| brain := {| ghost := ghost (brain w); mpc := mpc (brain w);
                 rl := rl (brain w);
                 last_soc_state := s; last_action := act |};
     rng := rng w |}.

Definition on_ghost {A} : M EKF_GhostSensor.t A → M world A :=
  zoom (λ w, ghost (brain w)) set_ghost.
Definition on_mpc {A} : M TrueMPC_Reactor.t A → M world A :=
  zoom (λ w, mpc (brain w)) set_mpc.
Definition on_rl {A} : M QLearning_Strategist.t A → M world A :=
  zoom (λ w, rl (brain w)) set_rl.
Definition on_rl_rng {A}
  : M (QLearning_Strategist.t * Random.t) A → M world A :=
  zoom (λ w, (rl (brain w), rng w)) set_rl_rng.

(** Reading [self], and the two assignments
    [self.last_soc_state = s; self.last_action = act]. *)
Definition get_self : M world t := λ w, Return w (brain w).
Definition assign_last (s : Z) (act : float) : M world unit :=
  λ w, Return (set_last s act w) tt.

Definition run_cycle (sensor_data : gmap string pyval)
  : M world (float * string * float) :=
  (v <- lift (item sensor_data "V") ;;
   disturbance <- lift (item sensor_data "Disturbance") ;;
   soc <- lift (item sensor_data "SoC") ;;
   let v := as_float v in
   let soc := as_float soc in
   (* 1. ghost sense *)
   soc_frac <- lift (py_truediv soc f100) ;;
   let ocv_est := fadd f6 (fmul f2_4 soc_frac) in
   i_est <- on_ghost (EKF_GhostSensor.update v ocv_est) ;;
   (* 2. strategy *)
   current_state <- lift (QLearning_Strategist.get_state soc) ;;
   energy_penalty_factor <- lift (py_truediv (fsub f110 soc) f4) ;;
   v_norm <- lift (py_truediv v f8_4) ;;
   let reward :=
     fsub v_norm (fmul (fmul energy_penalty_factor i_est) f0_18) in
   self <- get_self ;;
   on_rl (QLearning_Strategist.learn (last_soc_state self)
            (last_action self) reward current_state) ;;
   mpc_lambda <- on_rl_rng (QLearning_Strategist.choose_action current_state) ;;
   assign_last current_state mpc_lambda ;;
   (* override for disturbance *)
   let mpc_lambda := if is_true disturbance then f0_01 else mpc_lambda in
   (* 3. target *)
   let target_v := if is_true disturbance then f8_4 else f7_5 in
   (* 4. controller *)
   target_v_norm <- lift (py_truediv target_v f8_4) ;;
   current_v_norm <- lift (py_truediv v f8_4) ;;
   pwm_out <- on_mpc (TrueMPC_Reactor.compute target_v_norm current_v_norm
                        mpc_lambda) ;;
   (* 5. power mode *)
   self <- get_self ;;
   let delta_pwm := fabs (fsub pwm_out (TrueMPC_Reactor.u (mpc self))) in
   let cpu_mode :=
     if is_true disturbance || flt f0_01 delta_pwm then "HIGH" else "LOW" in
   ret (pwm_out, cpu_mode, i_est))%py.

(** A run: one cycle per observation; it stops at the first exception,
    which the caller sees with the decisions made so far. *)
Fixpoint run (obs : list (gmap string pyval)) (w : world)
  : list (float * string * float) * option exn * world :=
  match obs with
  | [] => ([], None, w)
  | o :: obs' =>
      match run_cycle o w with
      | Return w' d =>
          let '(ds, e, w'') := run obs' w' in (d :: ds, e, w'')
      | Raise w' e => ([], Some e, w')
      end
  end.

End NAHEO_Brain_V2.

(** ** The control law of the specification

    The closed form of section 4.2, written from its text: the plant
    prediction, the numerator, the denominator, their quotient, and the
    clipping of a number to an interval. *)

Module Spec.

Definition v_next (a b current u_prev : float) : float :=
  fadd (fmul a current) (fmul b u_prev).

Definition numerator (a b target current aggressiveness u_prev : float)
  : float :=
  fadd
    (fadd (fmul b (fsub target (fmul a current)))
          (fmul (fmul (fmul f0_5 a) b)
                (fsub target (v_next a b current u_prev))))
    (fmul aggressiveness u_prev).

Definition denominator (a b aggressiveness : float) : float :=
  fadd (fadd (fmul b b) (fmul (fmul f0_5 a) (fmul b b))) aggressiveness.

Definition u_opt (a b target current aggressiveness u_prev : float)
  : float :=
  fdiv (numerator a b target current aggressiveness u_prev)
       (denominator a b aggressiveness).

Definition clip (lo hi x : float) : float :=
  if flt x lo then lo else if flt hi x then hi else x.

(** The bins the specification lists for a charge in [[0, 100)]. *)
Definition bins : list Z := [0; 20; 40; 60; 80].

End Spec.

(** ** Invariants of the objects *)

(** The action set every learner is constructed with. *)
Definition ACTIONS : list float := [f0_1; f1; f5].

(** A learner as the constructor and the methods leave it: the action set
    is the constructed one and every row has exactly its keys, in its
    order. *)
Definition wf_rl (q : QLearning_Strategist.t) : Prop :=
  QLearning_Strategist.actions q = ACTIONS ∧
  map_Forall (λ _ (d : row), d.*1 = ACTIONS) (QLearning_Strategist.q_table q).

(** A controller with the gains of the constructor. *)
Definition wf_mpc (m : TrueMPC_Reactor.t) : Prop :=
  TrueMPC_Reactor.a m = f0_9 ∧ TrueMPC_Reactor.b m = f0_8.

Definition wf_brain (b : NAHEO_Brain_V2.t) : Prop :=
  wf_rl (NAHEO_Brain_V2.rl b) ∧ wf_mpc (NAHEO_Brain_V2.mpc b) ∧
  NAHEO_Brain_V2.last_action b ∈ ACTIONS.

(** The estimator's belief is physically feasible. *)
Definition feasible (g : EKF_GhostSensor.t) : bool :=
  fle f0 (fst (EKF_GhostSensor.x g)) && fle f0_05 (snd (EKF_GhostSensor.x g)).

(** The duty cycle is a valid one. *)
Definition duty_ok (r : float) : bool := fle f0_1 r && fle r f1.

(** Two generators that were seeded alike: same position in the same
    sequence of outputs. *)
Definition same_draws (g1 g2 : Random.t) : Prop :=
  Random.cursor g1 = Random.cursor g2 ∧
  ∀ n, Random.draws g1 n = Random.draws g2 n.

Definition same_world (w1 w2 : NAHEO_Brain_V2.world) : Prop :=
  NAHEO_Brain_V2.brain w1 = NAHEO_Brain_V2.brain w2 ∧
  same_draws (NAHEO_Brain_V2.rng w1) (NAHEO_Brain_V2.rng w2).

(** Outcomes that agree on what the caller sees and on the state left,
    and computations that give such outcomes from worlds that agree. *)
Definition same_outcome {A} (o1 o2 : outcome NAHEO_Brain_V2.world A) : Prop :=
  match o1, o2 with
  | Return w1 a1, Return w2 a2 => a1 = a2 ∧ same_world w1 w2
  | Raise w1 e1, Raise w2 e2 => e1 = e2 ∧ same_world w1 w2
  | _, _ => False
  end.

Definition deterministic {A} (m : M NAHEO_Brain_V2.world A) : Prop :=
  ∀ w1 w2, same_world w1 w2 → same_outcome (m w1) (m w2).

(** ** Concrete inputs used in the examples *)

(** A generator whose every output is [2^52]: [random()] is 0.5. *)
Definition seeded_half : Random.t :=
  {| Random.draws := λ _, 2 ^ 52; Random.cursor := 0 |}.

(** The same sequence, given by another function. *)
Definition seeded_half' : Random.t :=
  {| Random.draws := λ n, 2 ^ 52 + 0 * Z.of_nat n; Random.cursor := 0 |}.

Definition fresh (g : Random.t) : NAHEO_Brain_V2.world :=
  {| NAHEO_Brain_V2.brain := NAHEO_Brain_V2.init; NAHEO_Brain_V2.rng := g |}.

Definition observation (v : float) (disturbance : bool) (soc : float)
  : gmap string pyval :=
  <["V" := PyFloat v]>
    (<["Disturbance" := PyBool disturbance]> (<["SoC" := PyFloat soc]> ∅)).

(** A learner whose exploration probability is forced to 0. *)
Definition greedy_learner : QLearning_Strategist.t :=
  {| QLearning_Strategist.q_table := ∅;
     QLearning_Strategist.alpha := f0_1;
     QLearning_Strategist.gamma := f0_9;
     QLearning_Strategist.epsilon := f0;
     QLearning_Strategist.actions := ACTIONS |}.

Definition f50 : float := Eval vm_compute in of_Z 50.
Definition f_minus_1 : float := Eval vm_compute in of_Z (-1).
Definition f150 : float := Eval vm_compute in of_Z 150.
Definition f_inf : float := S754_infinity false.

(** ** The rest of the process

    The generator the learner draws from is the one object of the module
    [random], and everything else in the process draws from it too: the
    plant model calls [random.random()] once in each of its steps
    ([PhysicsEngine.update]: [if random.random() < 0.05]). *)

(** [k] calls of [random.random()] made elsewhere in the process. *)
Fixpoint others_draw (k : nat) (w : NAHEO_Brain_V2.world)
  : NAHEO_Brain_V2.world :=
  match k with
  | O => w
  | S k' =>
      others_draw k'
        {| NAHEO_Brain_V2.brain := NAHEO_Brain_V2.brain w;
           NAHEO_Brain_V2.rng :=
             final_state (Random.random (NAHEO_Brain_V2.rng w)) |}
  end.

(** A run in a process where, before cycle [i], the other users of the
    generator have drawn [others i] times since the cycle before. *)
Fixpoint run_shared (others : nat → nat) (i : nat)
    (obs : list (gmap string pyval)) (w : NAHEO_Brain_V2.world)
  : list (float * string * float) * option exn * NAHEO_Brain_V2.world :=
  match obs with
  | [] => ([], None, w)
  | o :: obs' =>
      match NAHEO_Brain_V2.run_cycle o (others_draw (others i) w) with
      | Return w' d =>
          let '(ds, e, w'') := run_shared others (S i) obs' w' in
          (d :: ds, e, w'')
      | Raise w' e => ([], Some e, w')
      end
  end.

(** Nobody else draws; somebody draws once before the second cycle. *)
Definition nobody : nat → nat := λ _, 0%nat.
Definition once_before_second : nat → nat :=
  λ i, match i with 1%nat => 1%nat | _ => 0%nat end.

(** What the generator gives after [random.seed(22)]: [random()] is
    0.9582093798172728, 0.1403685900763948, 0.02361614713882554, and
    [choice] of three elements then takes the one of index 1. *)
Definition seeded_22 : Random.t :=
  {| Random.draws := λ n, match n with
                          | 0%nat => 8630782811775968
                          | 1%nat => 1264327859925147
                          | 2%nat => 212715342908683
                          | _ => 1
                          end;
     Random.cursor := 0 |}.

(** ** Reading the table *)

(** [self.q_table[state][action]] *)
Definition q_value (q : QLearning_Strategist.t) (state : Z) (action : float)
  : result float :=
  match QLearning_Strategist.q_table q !! state with
  | Some d => row_get d action
  | None => Err KeyError
  end.

(** The generator after [n] more outputs. *)
Definition advance (n : nat) (g : Random.t) : Random.t :=
  {| Random.draws := Random.draws g; Random.cursor := n + Random.cursor g |}.

(** An observation a cycle can process: the three fields are present and
    the charge can be discretized. *)
Definition processable (obs : gmap string pyval) : Prop :=
  ∃ v d soc cs,
    obs !! "V" = Some v ∧ obs !! "Disturbance" = Some d ∧
    obs !! "SoC" = Some soc ∧
    QLearning_Strategist.get_state (as_float soc) = Ok cs.

(** * The comparison harness: [src/algorithms], [src/simulation] *)

(** ** Python numbers: [int] and [float] together *)

Inductive number : Type :=
| IntN (n : Z)
| FloatN (x : float).

(** [float(n)] for an integer [n], as an arithmetic operator converts
    it: the nearest float, [OverflowError] when there is none. *)
Definition int_to_float (n : Z) : result float :=
  let x := of_Z n in
  if is_inf x then Err OverflowError else Ok x.

(** Comparison of an [int] with a [float] is exact. *)
Definition compare_int_float (n : Z) (x : float) : option comparison :=
  match x with
  | S754_nan => None
  | S754_infinity s => Some (if s then Gt else Lt)
  | S754_zero _ => Some (n ?= 0)
  | S754_finite s m e =>
      Some (if 0 <=? e then n ?= cond_Zopp s (Zpos m) * 2 ^ e
            else n * 2 ^ (- e) ?= cond_Zopp s (Zpos m))
  end.

Definition number_compare (a b : number) : option comparison :=
  match a, b with
  | IntN m, IntN n => Some (m ?= n)
  | FloatN x, FloatN y => SFcompare x y
  | IntN m, FloatN y => compare_int_float m y
  | FloatN x, IntN n => CompOpp <$> compare_int_float n x
  end.

(** [a <= b] and [a < b] *)
Definition number_le (a b : number) : bool :=
  match number_compare a b with Some (Lt | Eq) => true | _ => false end.
Definition number_lt (a b : number) : bool :=
  match number_compare a b with Some Lt => true | _ => false end.

(** [a // b] and [a % b] on integers: the quotient is rounded down and
    the remainder has the sign of the divisor. *)
Definition int_floordiv (a b : Z) : result Z :=
  if b =? 0 then Err ZeroDivisionError else Ok (a / b).
Definition int_mod (a b : Z) : result Z :=
  if b =? 0 then Err ZeroDivisionError else Ok (a mod b).

(** [a / b] on integers: the correctly rounded quotient. *)
Definition int_as_operand (n : Z) : float :=
  match n with
  | 0 => S754_zero false
  | Zpos p => S754_finite false p 0
  | Zneg p => S754_finite true p 0
  end.

Definition int_truediv (a b : Z) : result float :=
  if b =? 0 then Err ZeroDivisionError
  else
    let q := fdiv (int_as_operand a) (int_as_operand b) in
    if is_inf q then Err OverflowError else Ok q.

(** [x % y] on floats, as CPython's [float_rem] computes it. *)
Definition py_float_mod (vx wx : float) : result float :=
  if feq wx f0 then Err ZeroDivisionError
  else
    let md := fmod vx wx in
    Ok (if truthy md
        then if negb (eqb (flt wx f0) (flt md f0)) then fadd md wx else md
        else S754_zero (sign_bit wx)).

(** [int(x // b)] for a number [x] and an integer [b]. *)
Definition number_floordiv_int (x : number) (b : Z) : result Z :=
  match x with
  | IntN a => int_floordiv a b
  | FloatN y =>
      match int_to_float b with
      | Ok bf => match py_floordiv y bf with
                 | Ok q => py_int q
                 | Err e => Err e
                 end
      | Err e => Err e
      end
  end.

Definition f0_7 : float := Eval vm_compute in dec 7 1.
Definition f86400 : float := Eval vm_compute in of_Z 86400.

(** ** class BaseAlgorithm *)

Module BaseAlgorithm.

Record t : Type := mk {
  name : string;
  energy_consumed : float;
  active_time : float;
  idle_time : float
}.

Definition init (name : string) : t :=
  {| name := name; energy_consumed := f0; active_time := f0;
     idle_time := f0 |}.

Definition reset (self : t) : t :=
  {| name := name self; energy_consumed := f0; active_time := f0;
     idle_time := f0 |}.

Definition get_metrics (self : t) : gmap string number :=
  <["energy_consumed" := FloatN (energy_consumed self)]>
    (<["active_time" := FloatN (active_time self)]>
       (<["idle_time" := FloatN (idle_time self)]>
          (<["total_time" :=
               FloatN (fadd (active_time self) (idle_time self))]> ∅))).

(** [self.energy_consumed += power; self.active_time += 1.0] and the
    same for the idle time: the two bookkeeping steps the subclasses
    share. *)
Definition spend_active (power : float) (self : t) : t :=
  {| name := name self;
     energy_consumed := fadd (energy_consumed self) power;
     active_time := fadd (active_time self) f1;
     idle_time := idle_time self |}.

Definition spend_idle (power : float) (self : t) : t :=
  {| name := name self;
     energy_consumed := fadd (energy_consumed self) power;
     active_time := active_time self;
     idle_time := fadd (idle_time self) f1 |}.

Definition spend (power : float) (self : t) : t :=
  {| name := name self;
     energy_consumed := fadd (energy_consumed self) power;
     active_time := active_time self;
     idle_time := idle_time self |}.

End BaseAlgorithm.

(** ** class AlwaysOnAlgorithm *)

Module AlwaysOnAlgorithm.

Record t : Type := mk {
  base : BaseAlgorithm.t;
  active_power : float
}.

Definition init (active_power : float) : t :=
  {| base := BaseAlgorithm.init "Always-On"; active_power := active_power |}.

Definition should_activate (timestamp : number) (user_request : bool)
    (context : gmap string number) : M t bool :=
  ret true.

Definition update (timestamp : number) (was_active user_request : bool)
  : M t unit :=
  (self <- get ;;
   if was_active
   then put {| base := BaseAlgorithm.spend_active (active_power self)
                         (base self);
               active_power := active_power self |}
   else ret tt)%py.

End AlwaysOnAlgorithm.

(** ** class TimerBasedAlgorithm *)

Module TimerBasedAlgorithm.

Record t : Type := mk {
  base : BaseAlgorithm.t;
  schedule : list (number * number);
  active_power : float;
  idle_power : float
}.

Definition init (schedule : list (number * number))
    (active_power idle_power : float) : t :=
  {| base := BaseAlgorithm.init "Timer-Based"; schedule := schedule;
     active_power := active_power; idle_power := idle_power |}.

(** [start_time <= time_of_day < end_time] *)
Definition in_window (time_of_day : number) (w : number * number) : bool :=
  number_le (fst w) time_of_day && number_lt time_of_day (snd w).

Definition should_activate (timestamp : number) (user_request : bool)
    (context : gmap string number) : M t bool :=
  (self <- get ;;
   let time_of_day := default timestamp (context !! "time_of_day") in
   ret (existsb (in_window time_of_day) (schedule self)))%py.

Definition update (timestamp : number) (was_active user_request : bool)
  : M t unit :=
  (self <- get ;;
   put {| base := if was_active
                  then BaseAlgorithm.spend_active (active_power self)
                         (base self)
                  else BaseAlgorithm.spend_idle (idle_power self)
                         (base self);
          schedule := schedule self;
          active_power := active_power self;
          idle_power := idle_power self |})%py.

End TimerBasedAlgorithm.

(** ** class NAHEOAdaptiveAlgorithm *)

Module NAHEOAdaptiveAlgorithm.

Record t : Type := mk {
  base : BaseAlgorithm.t;
  active_power : float;
  idle_power : float;
  learning_rate : float;
  prediction_threshold : float;
  wake_up_cost : float;
  time_bin_size : Z;
  (* [defaultdict(lambda: 0.5)] and [defaultdict(int)] *)
  activity_patterns : gmap Z float;
  pattern_counts : gmap Z Z;
  recent_requests : list Z;
  max_history : Z;
  correct_predictions : Z;
  total_predictions : Z;
  was_previously_active : bool
}.

Definition init (active_power idle_power learning_rate prediction_threshold
                 wake_up_cost : float) : t :=
  {| base := BaseAlgorithm.init "NAHEO-Adaptive";
     active_power := active_power; idle_power := idle_power;
     learning_rate := learning_rate;
     prediction_threshold := prediction_threshold;
     wake_up_cost := wake_up_cost;
     time_bin_size := 60;
     activity_patterns := ∅; pattern_counts := ∅;
     recent_requests := []; max_history := 100;
     correct_predictions := 0; total_predictions := 0;
     was_previously_active := false |}.

Definition set_base (b : BaseAlgorithm.t) (self : t) : t :=
  {| base := b;
     active_power := active_power self; idle_power := idle_power self;
     learning_rate := learning_rate self;
     prediction_threshold := prediction_threshold self;
     wake_up_cost := wake_up_cost self;
     time_bin_size := time_bin_size self;
     activity_patterns := activity_patterns self;
     pattern_counts := pattern_counts self;
     recent_requests := recent_requests self;
     max_history := max_history self;
     correct_predictions := correct_predictions self;
     total_predictions := total_predictions self;
     was_previously_active := was_previously_active self |}.

Definition set_was_previously_active (b : bool) (self : t) : t :=
  {| base := base self;
     active_power := active_power self; idle_power := idle_power self;
     learning_rate := learning_rate self;
     prediction_threshold := prediction_threshold self;
     wake_up_cost := wake_up_cost self;
     time_bin_size := time_bin_size self;
     activity_patterns := activity_patterns self;
     pattern_counts := pattern_counts self;
     recent_requests := recent_requests self;
     max_history := max_history self;
     correct_predictions := correct_predictions self;
     total_predictions := total_predictions self;
     was_previously_active := b |}.

Definition set_activity_patterns (p : gmap Z float) (self : t) : t :=
  {| base := base self;
     active_power := active_power self; idle_power := idle_power self;
     learning_rate := learning_rate self;
     prediction_threshold := prediction_threshold self;
     wake_up_cost := wake_up_cost self;
     time_bin_size := time_bin_size self;
     activity_patterns := p;
     pattern_counts := pattern_counts self;
     recent_requests := recent_requests self;
     max_history := max_history self;
     correct_predictions := correct_predictions self;
     total_predictions := total_predictions self;
     was_previously_active := was_previously_active self |}.

Definition set_pattern_counts (c : gmap Z Z) (self : t) : t :=
  {| base := base self;
     active_power := active_power self; idle_power := idle_power self;
     learning_rate := learning_rate self;
     prediction_threshold := prediction_threshold self;
     wake_up_cost := wake_up_cost self;
     time_bin_size := time_bin_size self;
     activity_patterns := activity_patterns self;
     pattern_counts := c;
     recent_requests := recent_requests self;
     max_history := max_history self;
     correct_predictions := correct_predictions self;
     total_predictions := total_predictions self;
     was_previously_active := was_previously_active self |}.

Definition set_recent_requests (l : list Z) (self : t) : t :=
  {| base := base self;
     active_power := active_power self; idle_power := idle_power self;
     learning_rate := learning_rate self;
     prediction_threshold := prediction_threshold self;
     wake_up_cost := wake_up_cost self;
     time_bin_size := time_bin_size self;
     activity_patterns := activity_patterns self;
     pattern_counts := pattern_counts self;
     recent_requests := l;
     max_history := max_history self;
     correct_predictions := correct_predictions self;
     total_predictions := total_predictions self;
     was_previously_active := was_previously_active self |}.

Definition set_predictions (correct total : Z) (self : t) : t :=
  {| base := base self;
     active_power := active_power self; idle_power := idle_power self;
     learning_rate := learning_rate self;
     prediction_threshold := prediction_threshold self;
     wake_up_cost := wake_up_cost self;
     time_bin_size := time_bin_size self;
     activity_patterns := activity_patterns self;
     pattern_counts := pattern_counts self;
     recent_requests := recent_requests self;
     max_history := max_history self;
     correct_predictions := correct;
     total_predictions := total;
     was_previously_active := was_previously_active self |}.

(** [int(timestamp // self.time_bin_size)] *)
Definition _get_time_bin (self : t) (timestamp : number) : result Z :=
  number_floordiv_int timestamp (time_bin_size self).

(** [self.activity_patterns[time_bin]]: reading a bin that has no entry
    stores the default 0.5 for it. *)
Definition pattern_at (time_bin : Z) : M t float :=
  (self <- get ;;
   match activity_patterns self !! time_bin with
   | Some p => ret p
   | None =>
       put (set_activity_patterns
              (<[time_bin := f0_5]> (activity_patterns self)) self) ;;
       ret f0_5
   end)%py.

(** [self.recent_requests[-10:]] *)
Definition last_ten (l : list Z) : list Z := drop (length l - 10)%nat l.

(** [sum(l)] *)
Definition py_sum (l : list Z) : Z := foldl Z.add 0 l.

Definition _predict_activity (timestamp : number)
    (context : gmap string number) : M t float :=
  (self <- get ;;
   time_bin <- lift (_get_time_bin self timestamp) ;;
   base_prob <- pattern_at time_bin ;;
   self <- get ;;
   if 0 <? Z.of_nat (length (recent_requests self))
   then
     recent_activity_rate <-
       lift (int_truediv (py_sum (last_ten (recent_requests self)))
               (Z.min 10 (Z.of_nat (length (recent_requests self))))) ;;
     ret (fadd (fmul f0_7 base_prob) (fmul f0_3 recent_activity_rate))
   else ret base_prob)%py.

Definition should_activate (timestamp : number) (user_request : bool)
    (context : gmap string number) : M t bool :=
  if user_request then ret true
  else
    (activity_prob <- _predict_activity timestamp context ;;
     self <- get ;;
     if fle (prediction_threshold self) activity_prob then ret true
     else if was_previously_active self && fle f0_3 activity_prob
          then ret true
          else ret false)%py.

Definition update (timestamp : number) (was_active user_request : bool)
  : M t unit :=
  (self <- get ;;
   (* energy *)
   let b :=
     if was_active
     then BaseAlgorithm.spend_active (active_power self)
            (if was_previously_active self then base self
             else BaseAlgorithm.spend (wake_up_cost self) (base self))
     else BaseAlgorithm.spend_idle (idle_power self) (base self) in
   put (set_was_previously_active was_active (set_base b self)) ;;
   (* learning *)
   self <- get ;;
   time_bin <- lift (_get_time_bin self timestamp) ;;
   current_pattern <- pattern_at time_bin ;;
   self <- get ;;
   let observed_value := if user_request then f1 else f0 in
   put (set_activity_patterns
          (<[time_bin :=
               fadd (fmul (fsub f1 (learning_rate self)) current_pattern)
                    (fmul (learning_rate self) observed_value)]>
             (activity_patterns self)) self) ;;
   self <- get ;;
   put (set_pattern_counts
          (<[time_bin := default 0 (pattern_counts self !! time_bin) + 1]>
             (pattern_counts self)) self) ;;
   (* history *)
   self <- get ;;
   let appended := recent_requests self ++ [if user_request then 1 else 0] in
   put (set_recent_requests
          (if max_history self <? Z.of_nat (length appended)
           then tail appended else appended) self) ;;
   (* accuracy *)
   self <- get ;;
   let hit :=
     (was_active && user_request) || (negb was_active && negb user_request) in
   put (set_predictions
          (if hit then correct_predictions self + 1
           else correct_predictions self)
          (total_predictions self + 1) self))%py.

Definition get_metrics (self : t) : result (gmap string number) :=
  match
    if 0 <? total_predictions self
    then int_truediv (correct_predictions self) (total_predictions self)
    else Ok f0
  with
  | Ok accuracy =>
      Ok (<["learned_patterns" :=
              IntN (Z.of_nat (size (activity_patterns self)))]>
            (<["prediction_accuracy" := FloatN accuracy]>
               (BaseAlgorithm.get_metrics (base self))))
  | Err e => Err e
  end.

End NAHEOAdaptiveAlgorithm.

(** Reduction of the fields of the record and of its setters. *)
Ltac adaptive_fields :=
  cbn [NAHEOAdaptiveAlgorithm.base NAHEOAdaptiveAlgorithm.active_power
       NAHEOAdaptiveAlgorithm.idle_power NAHEOAdaptiveAlgorithm.learning_rate
       NAHEOAdaptiveAlgorithm.prediction_threshold
       NAHEOAdaptiveAlgorithm.wake_up_cost
       NAHEOAdaptiveAlgorithm.time_bin_size
       NAHEOAdaptiveAlgorithm.activity_patterns
       NAHEOAdaptiveAlgorithm.pattern_counts
       NAHEOAdaptiveAlgorithm.recent_requests
       NAHEOAdaptiveAlgorithm.max_history
       NAHEOAdaptiveAlgorithm.correct_predictions
       NAHEOAdaptiveAlgorithm.total_predictions
       NAHEOAdaptiveAlgorithm.was_previously_active
       NAHEOAdaptiveAlgorithm.set_base
       NAHEOAdaptiveAlgorithm.set_was_previously_active
       NAHEOAdaptiveAlgorithm.set_activity_patterns
       NAHEOAdaptiveAlgorithm.set_pattern_counts
       NAHEOAdaptiveAlgorithm.set_recent_requests
       NAHEOAdaptiveAlgorithm.set_predictions] in *.

(** ** The algorithms the engine is run with *)

Inductive algorithm : Type :=
| AlwaysOn (a : AlwaysOnAlgorithm.t)
| TimerBased (a : TimerBasedAlgorithm.t)
| Adaptive (a : NAHEOAdaptiveAlgorithm.t).

(** Run a method of the class of the object and put the object back. *)
Definition dispatch {A}
    (always : M AlwaysOnAlgorithm.t A) (timer : M TimerBasedAlgorithm.t A)
    (adaptive : M NAHEOAdaptiveAlgorithm.t A) : M algorithm A :=
  λ alg,
    match alg with
    | AlwaysOn a =>
        match always a with
        | Return a' x => Return (AlwaysOn a') x
        | Raise a' e => Raise (AlwaysOn a') e
        end
    | TimerBased a =>
        match timer a with
        | Return a' x => Return (TimerBased a') x
        | Raise a' e => Raise (TimerBased a') e
        end
    | Adaptive a =>
        match adaptive a with
        | Return a' x => Return (Adaptive a') x
        | Raise a' e => Raise (Adaptive a') e
        end
    end.

Definition algorithm_base (alg : algorithm) : BaseAlgorithm.t :=
  match alg with
  | AlwaysOn a => AlwaysOnAlgorithm.base a
  | TimerBased a => TimerBasedAlgorithm.base a
  | Adaptive a => NAHEOAdaptiveAlgorithm.base a
  end.

Definition algorithm_reset (alg : algorithm) : algorithm :=
  match alg with
  | AlwaysOn a =>
      AlwaysOn {| AlwaysOnAlgorithm.base :=
                    BaseAlgorithm.reset (AlwaysOnAlgorithm.base a);
                  AlwaysOnAlgorithm.active_power :=
                    AlwaysOnAlgorithm.active_power a |}
  | TimerBased a =>
      TimerBased {| TimerBasedAlgorithm.base :=
                      BaseAlgorithm.reset (TimerBasedAlgorithm.base a);
                    TimerBasedAlgorithm.schedule :=
                      TimerBasedAlgorithm.schedule a;
                    TimerBasedAlgorithm.active_power :=
                      TimerBasedAlgorithm.active_power a;
                    TimerBasedAlgorithm.idle_power :=
                      TimerBasedAlgorithm.idle_power a |}
  | Adaptive a =>
      Adaptive (NAHEOAdaptiveAlgorithm.set_base
                  (BaseAlgorithm.reset (NAHEOAdaptiveAlgorithm.base a)) a)
  end.

Definition algorithm_should_activate (timestamp : number)
    (user_request : bool) (context : gmap string number) : M algorithm bool :=
  dispatch (AlwaysOnAlgorithm.should_activate timestamp user_request context)
           (TimerBasedAlgorithm.should_activate timestamp user_request context)
           (NAHEOAdaptiveAlgorithm.should_activate timestamp user_request
              context).

Definition algorithm_update (timestamp : number)
    (was_active user_request : bool) : M algorithm unit :=
  dispatch (AlwaysOnAlgorithm.update timestamp was_active user_request)
           (TimerBasedAlgorithm.update timestamp was_active user_request)
           (NAHEOAdaptiveAlgorithm.update timestamp was_active user_request).

Definition algorithm_get_metrics (alg : algorithm)
  : result (gmap string number) :=
  match alg with
  | Adaptive a => NAHEOAdaptiveAlgorithm.get_metrics a
  | _ => Ok (BaseAlgorithm.get_metrics (algorithm_base alg))
  end.

(** ** class SimulationEngine *)

Module SimulationEngine.

Record SimulationResult : Type := mk_result {
  algorithm_name : string;
  energy_consumed : number;
  active_time : number;
  idle_time : number;
  total_time : number;
  requests_served : Z;
  requests_missed : Z;
  service_quality : float;
  energy_efficiency : number;
  additional_metrics : gmap string number
}.

(** The engine; its behaviour generator is not read by
    [run_simulation]. *)
Record t : Type := mk {
  duration : Z;
  time_step : float
}.

(** [metrics[key]] *)
Definition metric (metrics : gmap string number) (key : string)
  : result number :=
  match metrics !! key with
  | Some x => Ok x
  | None => Err KeyError
  end.

(** [x / y] for a float [x] and a number [y]. *)
Definition float_div_number (x : float) (y : number) : result float :=
  match y with
  | FloatN yf => py_truediv x yf
  | IntN n => match int_to_float n with
              | Ok yf => py_truediv x yf
              | Err e => Err e
              end
  end.

(** The condition of the progress report,
    [verbose and (t + 1) % (self.duration // 10) == 0]; the report
    itself only prints. *)
Definition progress_due (self : t) (verbose : bool) (timestep : Z)
  : result bool :=
  if verbose
  then match int_floordiv (duration self) 10 with
       | Ok tenth => match int_mod (timestep + 1) tenth with
                     | Ok r => Ok (r =? 0)
                     | Err e => Err e
                     end
       | Err e => Err e
       end
  else Ok false.

(** The body of the loop, from time step [timestep] on, over the part of
    the pattern that is left. *)
Fixpoint steps (self : t) (verbose : bool) (timestep : Z)
    (user_pattern : list bool) (requests_served requests_missed : Z)
  : M algorithm (Z * Z) :=
  match user_pattern with
  | [] => ret (requests_served, requests_missed)
  | user_request :: rest =>
      (tf <- lift (int_to_float timestep) ;;
       time_of_day <- lift (py_float_mod (fmul tf (time_step self)) f86400) ;;
       let context : gmap string number :=
         <["timestamp" := IntN timestep]>
           (<["time_of_day" := FloatN time_of_day]> ∅) in
       should_be_active <-
         algorithm_should_activate (IntN timestep) user_request context ;;
       let served :=
         if user_request && should_be_active
         then requests_served + 1 else requests_served in
       let missed :=
         if user_request && negb should_be_active
         then requests_missed + 1 else requests_missed in
       algorithm_update (IntN timestep) should_be_active user_request ;;
       lift (progress_due self verbose timestep) ;;
       steps self verbose (timestep + 1) rest served missed)%py
  end.

Definition base_keys : list string :=
  ["energy_consumed"; "active_time"; "idle_time"; "total_time"].

Definition run_simulation (self : t) (user_pattern : list bool)
    (verbose : bool) : M algorithm SimulationResult :=
  if negb (Z.of_nat (length user_pattern) =? duration self)
  then raise ValueError
  else
    (algorithm <- get ;;
     put (algorithm_reset algorithm) ;;
     counts <- steps self verbose 0 user_pattern 0 0 ;;
     let requests_served := fst counts in
     let requests_missed := snd counts in
     algorithm <- get ;;
     metrics <- lift (algorithm_get_metrics algorithm) ;;
     let total_requests := requests_served + requests_missed in
     service_quality <-
       lift (if 0 <? total_requests
             then int_truediv requests_served total_requests
             else Ok f1) ;;
     energy <- lift (metric metrics "energy_consumed") ;;
     energy_efficiency <-
       lift (if number_lt (IntN 0) energy
             then match float_div_number service_quality energy with
                  | Ok x => Ok (FloatN x)
                  | Err e => Err e
                  end
             else Ok (IntN 0)) ;;
     active <- lift (metric metrics "active_time") ;;
     idle <- lift (metric metrics "idle_time") ;;
     total <- lift (metric metrics "total_time") ;;
     ret {| algorithm_name :=
              BaseAlgorithm.name (algorithm_base algorithm);
            energy_consumed := energy;
            active_time := active;
            idle_time := idle;
            total_time := total;
            requests_served := requests_served;
            requests_missed := requests_missed;
            service_quality := service_quality;
            energy_efficiency := energy_efficiency;
            additional_metrics :=
              filter (λ kv, fst kv ∉ base_keys) metrics |})%py.

End SimulationEngine.

(** ** class UserBehaviorGenerator: the periodic pattern *)

Module UserBehaviorGenerator.

(** The loop of [_generate_periodic_pattern] over the time steps that
    are left. *)
Fixpoint periodic_loop (timesteps : list Z) (period : Z)
    (requests : list bool) : result (list bool) :=
  match timesteps with
  | [] => Ok requests
  | timestep :: rest =>
      match int_mod timestep period with
      | Ok r => periodic_loop rest period (requests ++ [r <? 20])
      | Err e => Err e
      end
  end.

Definition _generate_periodic_pattern (duration period : Z)
  : result (list bool) :=
  periodic_loop (seqZ 0 duration) period [].

End UserBehaviorGenerator.

(** ** Invariants and measures of the harness *)

(** An adaptive algorithm as the constructor and [update] leave it: a
    non-zero bin size, a history of zeros and ones, and no more correct
    predictions than predictions. *)
Definition adaptive_ok (a : NAHEOAdaptiveAlgorithm.t) : Prop :=
  NAHEOAdaptiveAlgorithm.time_bin_size a ≠ 0 ∧
  Forall (λ r, r = 0 ∨ r = 1) (NAHEOAdaptiveAlgorithm.recent_requests a) ∧
  0 ≤ NAHEOAdaptiveAlgorithm.correct_predictions a
    ≤ NAHEOAdaptiveAlgorithm.total_predictions a.

Definition algorithm_ok (alg : algorithm) : Prop :=
  match alg with
  | Adaptive a => adaptive_ok a
  | _ => True
  end.

(** The algorithms that are active whenever the user asks. *)
Definition serves_on_request (alg : algorithm) : bool :=
  match alg with
  | AlwaysOn _ | Adaptive _ => true
  | TimerBased _ => false
  end.

Definition same_kind (alg alg' : algorithm) : bool :=
  match alg, alg' with
  | AlwaysOn _, AlwaysOn _ | TimerBased _, TimerBased _
  | Adaptive _, Adaptive _ => true
  | _, _ => false
  end.

(** The number of requests in a pattern. *)
Definition requests (user_pattern : list bool) : Z :=
  Z.of_nat (length (filter (λ b, b = true) user_pattern)).

(** The time of day the engine computes for a time step. *)
Definition time_of_day (time_step : float) (timestep : Z) : result float :=
  match int_to_float timestep with
  | Ok tf => py_float_mod (fmul tf time_step) f86400
  | Err e => Err e
  end.

(** Concrete objects for the examples. *)
Definition engine3 : SimulationEngine.t :=
  {| SimulationEngine.duration := 3; SimulationEngine.time_step := f1 |}.
Definition f2 : float := Eval vm_compute in of_Z 2.
Definition f10 : float := Eval vm_compute in of_Z 10.
Definition adaptive0 : NAHEOAdaptiveAlgorithm.t :=
  NAHEOAdaptiveAlgorithm.init f10 f1 f0_1 f0_5 f2.

Definition timer_never : TimerBasedAlgorithm.t :=
  TimerBasedAlgorithm.init [] f10 f1.
Definition always0 : AlwaysOnAlgorithm.t := AlwaysOnAlgorithm.init f10.
Definition engine600 : SimulationEngine.t :=
  {| SimulationEngine.duration := 600; SimulationEngine.time_step := f1 |}.

(** The times of an algorithm hold the numbers of active and of idle
    steps. *)
Definition times (b : BaseAlgorithm.t) (active idle : Z) : Prop :=
  BaseAlgorithm.active_time b = of_Z active ∧
  BaseAlgorithm.idle_time b = of_Z idle.

(** What [update] appends to the history for a request, and the history
    after it: the oldest entry goes once there are more than
    [max_history]. *)
Definition request_bit (user_request : bool) : Z :=
  if user_request then 1 else 0.

Definition push_history (max_history : Z) (l : list Z) (r : Z) : list Z :=
  let appended := l ++ [r] in
  if max_history <? Z.of_nat (length appended) then tail appended
  else appended.

(** The adaptive algorithm has lost nothing of what it had learned. *)
Definition learned_more (a a' : NAHEOAdaptiveAlgorithm.t) : Prop :=
  NAHEOAdaptiveAlgorithm.max_history a'
  = NAHEOAdaptiveAlgorithm.max_history a ∧
  NAHEOAdaptiveAlgorithm.correct_predictions a
  ≤ NAHEOAdaptiveAlgorithm.correct_predictions a' ∧
  dom (NAHEOAdaptiveAlgorithm.activity_patterns a)
  ⊆ dom (NAHEOAdaptiveAlgorithm.activity_patterns a') ∧
  ∀ bin,
    default 0 (NAHEOAdaptiveAlgorithm.pattern_counts a !! bin)
    ≤ default 0 (NAHEOAdaptiveAlgorithm.pattern_counts a' !! bin).

(** * Checks of the model on concrete values *)

Example literals :
  f0_1 = S754_finite false 7205759403792794 (-56) ∧
  f8_4 = S754_finite false 4728779608739021 (-49) ∧
  f1 = S754_finite false 4503599627370496 (-52).
Proof. repeat split. Qed.

Example get_state_values :
  QLearning_Strategist.get_state (dec 999 1) = Ok 80 ∧
  QLearning_Strategist.get_state f20 = Ok 20 ∧
  QLearning_Strategist.get_state (dec 1999999999 8) = Ok 0 ∧
  QLearning_Strategist.get_state (fsub f0 f0_5) = Ok (-20) ∧
  QLearning_Strategist.get_state S754_nan = Err ValueError ∧
  QLearning_Strategist.get_state f_inf = Err ValueError.
Proof. repeat split; vm_compute; reflexivity. Qed.

Example clamp_values :
  py_max f0_1 (py_min f1 S754_nan) = f1 ∧
  py_max f0_1 (py_min f1 f_inf) = f1 ∧
  py_max f0_1 (py_min f1 f_minus_1) = f0_1 ∧
  py_max f0_1 (py_min f1 f0_5) = f0_5.
Proof. repeat split. Qed.

(** * Facts about binary64 arithmetic *)

Arguments fadd : simpl never.
Arguments fsub : simpl never.
Arguments fmul : simpl never.
Arguments fdiv : simpl never.
Arguments flt : simpl never.
Arguments fle : simpl never.
Arguments feq : simpl never.

Section Comparisons.

Lemma flt_fle a b : flt a b = true → fle a b = true.
Proof.
  unfold flt, fle, SFltb, SFleb. by destruct (SFcompare a b) as [[]|].
Qed.

Lemma py_max_lower a x : fle a a = true → fle a (py_max a x) = true.
Proof.
  intros Ha. unfold py_max. destruct (flt a x) eqn:E; [by apply flt_fle|done].
Qed.

Lemma py_min_upper a x : fle a a = true → fle (py_min a x) a = true.
Proof.
  intros Ha. unfold py_min. destruct (flt x a) eqn:E; [by apply flt_fle|done].
Qed.

Lemma clip_range lo hi x :
  fle lo lo = true → fle hi hi = true → fle lo hi = true →
  fle lo (py_max lo (py_min hi x)) = true ∧
  fle (py_max lo (py_min hi x)) hi = true.
Proof.
  intros Hlo Hhi Hlh. split; [by apply py_max_lower|].
  unfold py_max. destruct (flt lo _); [by apply py_min_upper|done].
Qed.

Lemma fsub_diag x : fsub x x = f0 ∨ fsub x x = S754_nan.
Proof.
  destruct x as [[]|[]| |s m e]; simpl; auto.
  left. unfold fsub, SFsub. rewrite Z.sub_diag. reflexivity.
Qed.

Lemma delta_self x : flt f0_01 (fabs (fsub x x)) = false.
Proof. by destruct (fsub_diag x) as [-> | ->]. Qed.

End Comparisons.

Section Rounding.

Lemma digits2_pos_size p : digits2_pos p = Pos.size p.
Proof. induction p; simpl; congruence. Qed.

Lemma digits2_log2 p : Zpos (digits2_pos p) = Z.log2 (Zpos p) + 1.
Proof.
  rewrite digits2_pos_size. destruct p; simpl; try lia.
Qed.

Lemma digits2_lower p : 2 ^ (Zpos (digits2_pos p) - 1) ≤ Zpos p.
Proof.
  rewrite digits2_log2. replace (Z.log2 (Zpos p) + 1 - 1) with (Z.log2 (Zpos p)) by lia.
  apply Z.log2_spec. lia.
Qed.

Lemma digits2_mono p q : (p ≤ q)%positive → Zpos (digits2_pos p) ≤ Zpos (digits2_pos q).
Proof.
  intros H. rewrite !digits2_log2.
  assert (Z.log2 (Zpos p) ≤ Z.log2 (Zpos q)); [apply Z.log2_le_mono|]; lia.
Qed.

Lemma digits2_iter_xO m d :
  Zpos (digits2_pos (Pos.iter xO m d)) = Zpos (digits2_pos m) + Zpos d.
Proof.
  induction d using Pos.peano_ind.
  - simpl. lia.
  - rewrite Pos.iter_succ. simpl. lia.
Qed.

Lemma shr_1_m mrs : 0 ≤ shr_m mrs → shr_m (shr_1 mrs) = shr_m mrs / 2.
Proof.
  destruct mrs as [[|[p|p|]|p] r s]; cbn [shr_m shr_1]; intros H;
    try lia; try reflexivity.
  - apply Z.div_unique with 1; lia.
  - apply Z.div_unique with 0; lia.
Qed.

Lemma iter_shr_1_m p : ∀ mrs,
  0 ≤ shr_m mrs → shr_m (SpecFloat.iter_pos shr_1 p mrs) = shr_m mrs / 2 ^ Zpos p.
Proof.
  induction p as [p IH|p IH|]; intros mrs H; cbn [SpecFloat.iter_pos].
  - assert (H1 : 0 ≤ shr_m (shr_1 mrs)).
    { rewrite shr_1_m by done. apply Z.div_pos; lia. }
    assert (H2 : 0 ≤ shr_m (SpecFloat.iter_pos shr_1 p (shr_1 mrs))).
    { rewrite IH by done. apply Z.div_pos; lia. }
    rewrite IH, IH, shr_1_m by done.
    rewrite !Z.div_div by lia. f_equal.
    change (Zpos p~1) with (2 * Zpos p + 1).
    rewrite Z.pow_add_r, Z.pow_mul_r, Z.pow_2_r by lia.
    change (2 ^ 2) with 4. rewrite Z.pow_mul_l. lia.
  - assert (H2 : 0 ≤ shr_m (SpecFloat.iter_pos shr_1 p mrs)).
    { rewrite IH by done. apply Z.div_pos; lia. }
    rewrite IH, IH by done.
    rewrite !Z.div_div by lia. f_equal.
    change (Zpos p~0) with (2 * Zpos p).
    rewrite Z.pow_mul_r, Z.pow_2_r by lia.
    change (2 ^ 2) with 4. rewrite Z.pow_mul_l. lia.
  - rewrite shr_1_m by done. reflexivity.
Qed.

Lemma shr_record_of_loc_m m l : shr_m (shr_record_of_loc m l) = m.
Proof. by destruct l as [|[]]. Qed.

Lemma shr_spec m l e n :
  0 ≤ m →
  shr_m (fst (shr (shr_record_of_loc m l) e n)) = m / 2 ^ Z.max 0 n ∧
  snd (shr (shr_record_of_loc m l) e n) = e + Z.max 0 n.
Proof.
  intros Hm. destruct n as [|p|p]; cbn [shr fst snd].
  - rewrite shr_record_of_loc_m. change (2 ^ Z.max 0 0) with 1.
    rewrite Z.div_1_r. lia.
  - rewrite iter_shr_1_m by (by rewrite shr_record_of_loc_m).
    rewrite shr_record_of_loc_m. by rewrite Z.max_r by lia.
  - rewrite shr_record_of_loc_m. rewrite Z.max_l by lia.
    change (2 ^ 0) with 1. rewrite Z.div_1_r. lia.
Qed.

Lemma div_pow_lower m k j : 0 ≤ j ≤ k → 2 ^ k ≤ m → 2 ^ (k - j) ≤ m / 2 ^ j.
Proof.
  intros Hj Hm. apply Z.div_le_lower_bound; [lia|].
  rewrite <- Z.pow_add_r by lia. by replace (j + (k - j)) with k by lia.
Qed.

Lemma digits2_lower_bound p k :
  0 ≤ k → 2 ^ k ≤ Zpos p → k + 1 ≤ Zpos (digits2_pos p).
Proof.
  intros Hk Hp. rewrite digits2_log2.
  apply Z.log2_le_mono in Hp. rewrite Z.log2_pow2 in Hp by done. lia.
Qed.

Lemma round_nearest_even_ge m l : m ≤ round_nearest_even m l.
Proof. destruct l as [|[]]; simpl; try lia. destruct (Z.even m); lia. Qed.

(** A positive mantissa whose value is above the least subnormal is
    never rounded to zero. *)
Lemma binary_round_aux_nonzero sx m e :
  -1074 < Zpos (digits2_pos m) + e →
  feq (binary_round_aux prec emax sx (Zpos m) e loc_Exact) f0 = false.
Proof.
  intros Hd. unfold binary_round_aux, shr_fexp.
  set (d := Zpos (digits2_pos m)) in *.
  set (n1 := fexp prec emax (Zdigits2 (Zpos m) + e) - e).
  destruct (shr_spec (Zpos m) loc_Exact e n1) as [Hm1 He1]; [lia|].
  destruct (shr (shr_record_of_loc (Zpos m) loc_Exact) e n1)
    as [mrs' e'] eqn:E1. cbn [fst snd] in Hm1, He1.
  set (k := Z.max 0 n1) in *.
  assert (Hk : 0 ≤ k ≤ d - 1).
  { subst k n1. unfold fexp, SpecFloat.emin, prec, emax. cbn [Zdigits2].
    fold d. lia. }
  assert (Hlow : 2 ^ (d - 1 - k) ≤ shr_m mrs').
  { rewrite Hm1. apply div_pow_lower; [lia|]. apply digits2_lower. }
  set (m1 := round_nearest_even (shr_m mrs') (loc_of_shr_record mrs')).
  assert (Hm1' : 2 ^ (d - 1 - k) ≤ m1).
  { pose proof (round_nearest_even_ge (shr_m mrs') (loc_of_shr_record mrs')).
    subst m1. lia. }
  assert (0 < 2 ^ (d - 1 - k)) by (apply Z.pow_pos_nonneg; lia).
  destruct m1 as [|p1|p1] eqn:Ep1; try lia.
  set (n2 := fexp prec emax (Zdigits2 (Zpos p1) + e') - e').
  destruct (shr_spec (Zpos p1) loc_Exact e' n2) as [Hm2 He2]; [lia|].
  destruct (shr (shr_record_of_loc (Zpos p1) loc_Exact) e' n2)
    as [mrs'' e''] eqn:E2. cbn [fst snd] in Hm2, He2.
  pose proof (digits2_lower_bound p1 (d - 1 - k) ltac:(lia) Hm1') as Hd1.
  set (d1 := Zpos (digits2_pos p1)) in *.
  assert (Hk2 : 0 ≤ Z.max 0 n2 ≤ d1 - 1).
  { subst n2. unfold fexp, SpecFloat.emin, prec, emax. cbn [Zdigits2].
    fold d1. lia. }
  assert (Hpos : 2 ^ (d1 - 1 - Z.max 0 n2) ≤ shr_m mrs'').
  { rewrite Hm2. apply div_pow_lower; [lia|]. apply digits2_lower. }
  assert (0 < 2 ^ (d1 - 1 - Z.max 0 n2)) by (apply Z.pow_pos_nonneg; lia).
  destruct (shr_m mrs'') as [|q|q]; try lia.
  by destruct (e'' <=? emax - prec), sx.
Qed.

Lemma binary_round_nonzero sx m e :
  -1074 < Zpos (digits2_pos m) + e →
  feq (binary_round prec emax sx m e) f0 = false.
Proof.
  intros Hd. unfold binary_round, shl_align.
  destruct (fexp prec emax (Zpos (digits2_pos m) + e) - e) as [|p|p] eqn:E;
    try by apply binary_round_aux_nonzero.
  apply binary_round_aux_nonzero. rewrite digits2_iter_xO. lia.
Qed.

(** Adding a non-negative float to a positive normal one never gives
    zero. *)
Lemma fadd_pos_nonzero m e y :
  -1074 < Zpos (digits2_pos m) + e →
  fle f0 y = true →
  feq (fadd (S754_finite false m e) y) f0 = false.
Proof.
  intros Hd Hy. destruct y as [s|[]| |[] my ey]; try done.
  unfold fadd, SFadd. cbn [cond_Zopp]. cbn [Z.add binary_normalize].
  apply binary_round_nonzero.
  assert (Zpos (digits2_pos (fst (shl_align m e (Z.min e ey)))) + Z.min e ey
          = Zpos (digits2_pos m) + e) as Hal.
  { unfold shl_align. destruct (Z.min e ey - e) as [|p|p] eqn:E;
      cbn [fst]; [lia|lia|]. rewrite digits2_iter_xO. lia. }
  pose proof (digits2_mono (fst (shl_align m e (Z.min e ey)))
    (fst (shl_align m e (Z.min e ey)) + fst (shl_align my ey (Z.min e ey)))
    ltac:(lia)).
  lia.
Qed.

End Rounding.

(** * The clamps of the program *)

Lemma SFcompare_antisym x y :
  SFcompare y x = CompOpp <$> SFcompare x y.
Proof.
  destruct x as [[]|[]| |[] mx ex], y as [[]|[]| |[] my ey]; try reflexivity;
    cbn [SFcompare fmap option_fmap option_map];
    rewrite (Z.compare_antisym ey ex);
    destruct (ey ?= ex)%Z; cbn [CompOpp]; try reflexivity;
    rewrite (ZC4 my mx); by rewrite ?CompOpp_involutive.
Qed.

Lemma flt_asym x y : flt x y = true → flt y x = false.
Proof.
  unfold flt, SFltb. rewrite (SFcompare_antisym x y).
  by destruct (SFcompare x y) as [[]|].
Qed.

(** Comparison with a finite float is decided by equality exactly when
    the two are the same float. *)
Lemma compare_finite_eq x s m e :
  SFcompare x (S754_finite s m e) = Some Eq → x = S754_finite s m e.
Proof.
  destruct x as [[]|[]| |sx mx ex]; try (by destruct s).
  destruct sx, s; cbn [SFcompare]; try done;
    destruct (ex ?= e)%Z eqn:Ee; try done;
    apply Z.compare_eq in Ee; subst;
    change (Pos.compare_cont Eq mx m) with (mx ?= m)%positive;
    destruct (mx ?= m)%positive eqn:Em; try done;
    apply Pos.compare_eq in Em; by subst.
Qed.

(** Below 0.1 is below 1.0. *)
Lemma flt_f0_1_f1 x : flt x f0_1 = true → flt x f1 = true.
Proof.
  destruct x as [[]|[]| |[] m e]; try done.
  unfold flt, SFltb, f0_1, f1. cbn [SFcompare].
  destruct (e ?= -56)%Z eqn:E1; try done.
  - apply Z.compare_eq in E1. by subst.
  - intros _. rewrite Z.compare_lt_iff in E1.
    assert ((e ?= -52) = Lt)%Z as -> by (apply Z.compare_lt_iff; lia). done.
Qed.

(** What [max(0.1, min(1.0, x))] computes: the clipping of the
    specification on every number, and 1.0 on a NaN. *)
Lemma clamp_is_clip x :
  py_max f0_1 (py_min f1 x) = if is_nan x then f1 else Spec.clip f0_1 f1 x.
Proof.
  destruct (is_nan x) eqn:En; [by destruct x|].
  unfold py_max, py_min, Spec.clip.
  destruct (flt x f1) eqn:E1.
  - rewrite (flt_asym _ _ E1).
    destruct (flt f0_1 x) eqn:E2; [by rewrite (flt_asym _ _ E2)|].
    destruct (flt x f0_1) eqn:E3; [done|].
    unfold flt, SFltb in E2, E3. rewrite (SFcompare_antisym x f0_1) in E2.
    destruct (SFcompare x f0_1) as [[]|] eqn:Ec; try done.
    + symmetry. by apply compare_finite_eq in Ec.
    + by destruct x.
  - change (flt f0_1 f1) with true. cbn match.
    destruct (flt x f0_1) eqn:E3; [by rewrite (flt_f0_1_f1 _ E3) in E1|].
    destruct (flt f1 x) eqn:E4; [done|].
    unfold flt, SFltb in E1, E4. rewrite (SFcompare_antisym x f1) in E4.
    destruct (SFcompare x f1) as [[]|] eqn:Ec; try done.
    + symmetry. by apply compare_finite_eq in Ec.
    + by destruct x.
Qed.

Lemma duty_ok_clamp x : duty_ok (py_max f0_1 (py_min f1 x)) = true.
Proof.
  unfold duty_ok. by destruct (clip_range f0_1 f1 x) as [-> ->].
Qed.

Lemma duty_ok_finite r : duty_ok r = true → is_finite r = true.
Proof. by destruct r as [|[]| |]. Qed.

(** * The monad *)

Lemma bind_Return {St A B} (m : M St A) (k : A → M St B) s s' a :
  m s = Return s' a → bind m k s = k a s'.
Proof. unfold bind. by intros ->. Qed.

Lemma bind_Raise {St A B} (m : M St A) (k : A → M St B) s s' e :
  m s = Raise s' e → bind m k s = Raise s' e.
Proof. unfold bind. by intros ->. Qed.

Lemma zoom_Return {St T A} (proj : St → T) upd (m : M T A) s t a :
  m (proj s) = Return t a → zoom proj upd m s = Return (upd t s) a.
Proof. unfold zoom. by intros ->. Qed.

Lemma zoom_Raise {St T A} (proj : St → T) upd (m : M T A) s t e :
  m (proj s) = Raise t e → zoom proj upd m s = Raise (upd t s) e.
Proof. unfold zoom. by intros ->. Qed.

(** * The estimator *)

Lemma update_Return self v_term v_ocv :
  EKF_GhostSensor.update v_term v_ocv self =
  Return
    {| EKF_GhostSensor.x :=
         (py_max f0 (fst (EKF_GhostSensor.unclamped self v_term v_ocv)),
          py_max f0_05 (snd (EKF_GhostSensor.unclamped self v_term v_ocv)));
       EKF_GhostSensor.P := EKF_GhostSensor.covariance self;
       EKF_GhostSensor.Q := EKF_GhostSensor.Q self;
       EKF_GhostSensor.R := EKF_GhostSensor.R self |}
    (py_max f0 (fst (EKF_GhostSensor.unclamped self v_term v_ocv))).
Proof. reflexivity. Qed.

(** C2. Whatever the belief before and whatever is observed, every
    update of a sequence of updates ends normally, leaves a current
    estimate that is at least 0 and a resistance estimate that is at
    least 0.05, and returns that current estimate, which is the
    unclamped one clamped at 0. *)
Theorem C2_estimator_feasible (calls : list (float * float)) self :
  length (EKF_GhostSensor.update_all calls self) = length calls ∧
  Forall (λ step : EKF_GhostSensor.t * EKF_GhostSensor.t * float * float,
            let '(before, after, v_term, returned) := step in
            feasible after = true ∧
            returned = fst (EKF_GhostSensor.x after) ∧
            ∃ v_ocv,
              returned =
              py_max f0 (fst (EKF_GhostSensor.unclamped before v_term v_ocv)))
         (EKF_GhostSensor.update_all calls self).
Proof.
  revert self. induction calls as [|[v_term v_ocv] calls IH]; intros self.
  - split; [done|constructor].
  - cbn [EKF_GhostSensor.update_all]. rewrite update_Return.
    destruct (IH
      {| EKF_GhostSensor.x :=
           (py_max f0 (fst (EKF_GhostSensor.unclamped self v_term v_ocv)),
            py_max f0_05 (snd (EKF_GhostSensor.unclamped self v_term v_ocv)));
         EKF_GhostSensor.P := EKF_GhostSensor.covariance self;
         EKF_GhostSensor.Q := EKF_GhostSensor.Q self;
         EKF_GhostSensor.R := EKF_GhostSensor.R self |}) as [Hlen Hall].
    split; [cbn [length]; by rewrite Hlen|].
    constructor; [|done].
    split; [|split; [done|by exists v_ocv]].
    unfold feasible. cbn [EKF_GhostSensor.x fst snd].
    by rewrite !py_max_lower.
Qed.

(** * The controller *)

Lemma denominator_constructed self lam :
  wf_mpc self →
  TrueMPC_Reactor.denominator self lam =
  Ok (fadd (S754_finite false 8358680908399642 (-53)) lam).
Proof.
  destruct self as [u a b]. intros [Ha Hb]. cbn in Ha, Hb. subst.
  reflexivity.
Qed.

(** The two ways [compute] can end once the denominator is known. *)
Lemma compute_cases self target current lam den :
  TrueMPC_Reactor.denominator self lam = Ok den →
  TrueMPC_Reactor.compute target current lam self =
  if feq den f0 then Raise self ZeroDivisionError
  else
    let r :=
      py_max f0_1
        (py_min f1
           (fdiv (TrueMPC_Reactor.numerator self target current lam) den)) in
    Return {| TrueMPC_Reactor.u := r;
              TrueMPC_Reactor.a := TrueMPC_Reactor.a self;
              TrueMPC_Reactor.b := TrueMPC_Reactor.b self |} r.
Proof.
  intros Hden. unfold TrueMPC_Reactor.compute, bind, get.
  rewrite Hden. cbn [lift ret]. unfold py_truediv.
  by destruct (feq den f0).
Qed.

(** C1. On a controller with the constructor's gains and for every
    aggressiveness that is at least 0, [compute] ends normally for every
    target and current voltage (finite or not); the duty cycle it returns
    lies in [[0.1, 1.0]] and is the stored one, and the gains are
    unchanged, so the same holds at the next call. *)
Theorem C1_compute_duty_in_range self target current lam :
  wf_mpc self → fle f0 lam = true →
  ∃ self' r,
    TrueMPC_Reactor.compute target current lam self = Return self' r ∧
    TrueMPC_Reactor.u self' = r ∧ duty_ok r = true ∧ wf_mpc self'.
Proof.
  intros Hwf Hlam.
  rewrite (compute_cases _ _ _ _ _ (denominator_constructed self lam Hwf)).
  rewrite fadd_pos_nonzero by done.
  eexists _, _. split; [reflexivity|]. cbn [TrueMPC_Reactor.u].
  split; [done|]. split; [apply duty_ok_clamp|done].
Qed.

Lemma C1_witness :
  ∃ self' r,
    TrueMPC_Reactor.compute f1 f1 f1 TrueMPC_Reactor.init = Return self' r ∧
    TrueMPC_Reactor.u self' = r ∧ duty_ok r = true ∧ wf_mpc self'.
Proof.
  apply (C1_compute_duty_in_range TrueMPC_Reactor.init f1 f1 f1).
  - split; reflexivity.
  - reflexivity.
Defined.

(** C3, as the program has it.  On a controller with the gains of the
    constructor, a call whose denominator evaluates to zero fails with
    [ZeroDivisionError]: it has no optimum.  Every other call divides the
    numerator of the specification by its denominator, both evaluated in
    binary64 in the order they are written, and stores and returns that
    optimum clipped to [[0.1, 1.0]] when it is a number, and 1.0 when it
    is NaN. *)
Theorem C3_compute_closed_form self target current lam :
  wf_mpc self →
  let u_opt :=
    Spec.u_opt f0_9 f0_8 target current lam (TrueMPC_Reactor.u self) in
  TrueMPC_Reactor.compute target current lam self =
  if feq (Spec.denominator f0_9 f0_8 lam) f0
  then Raise self ZeroDivisionError
  else
    let r := if is_nan u_opt then f1 else Spec.clip f0_1 f1 u_opt in
    Return {| TrueMPC_Reactor.u := r; TrueMPC_Reactor.a := f0_9;
              TrueMPC_Reactor.b := f0_8 |} r.
Proof.
  intros Hwf u_opt.
  rewrite (compute_cases _ _ _ _ _ (denominator_constructed self lam Hwf)).
  destruct self as [u a b]. destruct Hwf as [Ha Hb]. cbn in Ha, Hb. subst a b.
  change (fadd (S754_finite false 8358680908399642 (-53)) lam)
    with (Spec.denominator f0_9 f0_8 lam).
  destruct (feq (Spec.denominator f0_9 f0_8 lam) f0); [done|].
  cbn zeta. rewrite clamp_is_clip. reflexivity.
Qed.

Lemma C3_witness :
  wf_mpc TrueMPC_Reactor.init ∧
  TrueMPC_Reactor.compute (fdiv f7_5 f8_4) f1 f1 TrueMPC_Reactor.init =
  Return {| TrueMPC_Reactor.u := S754_finite false 6575202064145541 (-54);
            TrueMPC_Reactor.a := f0_9; TrueMPC_Reactor.b := f0_8 |}
         (S754_finite false 6575202064145541 (-54)).
Proof.
  split; [by split|].
  exact (C3_compute_closed_form TrueMPC_Reactor.init (fdiv f7_5 f8_4) f1 f1
           (conj eq_refl eq_refl)).
Defined.

(** C3 as stated fails: with a NaN target the optimum is NaN, clipping
    leaves a NaN as it is, and [compute] returns 1.0. *)
Lemma C3_nan_optimum_returns_one :
  let u_opt :=
    Spec.u_opt f0_9 f0_8 S754_nan f1 f1
      (TrueMPC_Reactor.u TrueMPC_Reactor.init) in
  Spec.clip f0_1 f1 u_opt = S754_nan ∧
  TrueMPC_Reactor.compute S754_nan f1 f1 TrueMPC_Reactor.init =
  Return TrueMPC_Reactor.init f1 ∧
  f1 ≠ Spec.clip f0_1 f1 u_opt.
Proof. repeat split; vm_compute; done. Qed.

(** C4, as the program has it.  A zero denominator makes [compute] fail
    with [ZeroDivisionError] and leaves the controller as it was; any
    other denominator, infinite and NaN included, makes it end normally
    with a finite duty cycle in [[0.1, 1.0]]. *)
Theorem C4_compute_zero_or_clipped self target current lam den :
  TrueMPC_Reactor.denominator self lam = Ok den →
  if feq den f0
  then TrueMPC_Reactor.compute target current lam self
       = Raise self ZeroDivisionError
  else ∃ self' r,
      TrueMPC_Reactor.compute target current lam self = Return self' r ∧
      TrueMPC_Reactor.u self' = r ∧ duty_ok r = true ∧ is_finite r = true.
Proof.
  intros Hden. rewrite (compute_cases _ _ _ _ _ Hden).
  destruct (feq den f0); [done|].
  eexists _, _. split; [reflexivity|]. cbn [TrueMPC_Reactor.u].
  split; [done|]. split; [apply duty_ok_clamp|].
  apply duty_ok_finite, duty_ok_clamp.
Qed.

Lemma C4_witness :
  TrueMPC_Reactor.compute f1 f1
    (S754_finite true 8358680908399642 (-53)) TrueMPC_Reactor.init
  = Raise TrueMPC_Reactor.init ZeroDivisionError.
Proof.
  apply (C4_compute_zero_or_clipped TrueMPC_Reactor.init f1 f1
           (S754_finite true 8358680908399642 (-53)) f0).
  reflexivity.
Defined.

(** C4 as stated fails: with an infinite aggressiveness the denominator
    is infinite, and [compute] does not fail: it returns 1.0. *)
Lemma C4_infinite_denominator_returns :
  TrueMPC_Reactor.denominator TrueMPC_Reactor.init f_inf = Ok f_inf ∧
  is_finite f_inf = false ∧
  TrueMPC_Reactor.compute f1 f1 f_inf TrueMPC_Reactor.init =
  Return TrueMPC_Reactor.init f1.
Proof. repeat split. Qed.

(** * The generator *)

Lemma binary_round_aux_nonneg m e l :
  flt (binary_round_aux prec emax false m e l) f0 = false.
Proof.
  unfold binary_round_aux.
  destruct (shr_fexp prec emax m e l) as [mrs' e'].
  destruct (shr_fexp prec emax _ e' loc_Exact) as [mrs'' e''].
  destruct (shr_m mrs''); [done| |done].
  by destruct (e'' <=? emax - prec).
Qed.

(** [random()] is never below 0. *)
Lemma unit_float_nonneg k : flt (Random.unit_float k) f0 = false.
Proof.
  unfold Random.unit_float.
  pose proof (Z.mod_pos_bound k (2 ^ 53) ltac:(done)) as Hk.
  destruct (k mod 2 ^ 53) as [|p|p]; [done| |lia].
  unfold binary_normalize, binary_round.
  destruct (shl_align _ _ _). apply binary_round_aux_nonneg.
Qed.

Lemma random_Return g :
  Random.random g =
  Return {| Random.draws := Random.draws g;
            Random.cursor := S (Random.cursor g) |}
         (Random.unit_float (Random.draws g (Random.cursor g))).
Proof. reflexivity. Qed.

Lemma choice_ACTIONS g :
  ∃ act,
    Random.choice ACTIONS g =
    Return {| Random.draws := Random.draws g;
              Random.cursor := S (Random.cursor g) |} act ∧
    act ∈ ACTIONS.
Proof.
  unfold Random.choice, ACTIONS, bind. cbn [Random.next_raw].
  change (Random.next_raw g) with
    (Return {| Random.draws := Random.draws g;
               Random.cursor := S (Random.cursor g) |}
            (Random.draws g (Random.cursor g))).
  cbv beta iota. cbn [length].
  pose proof (Z.mod_pos_bound (Random.draws g (Random.cursor g)) 3
                ltac:(done)) as Hk.
  change (Z.of_nat 3) with 3.
  destruct (Z.to_nat (Random.draws g (Random.cursor g) mod 3))
    as [|[|[|n]]] eqn:E; [| | |lia];
    eexists; (split; [reflexivity|]); rewrite !elem_of_cons; auto.
Qed.

(** * The rows of the table *)

Lemma better_elem best item : better best item = best ∨ better best item = item.
Proof. unfold better. destruct (flt _ _); auto. Qed.

Lemma foldl_better_elem rest : ∀ best,
  foldl better best rest ∈ best :: rest.
Proof.
  induction rest as [|item rest IH]; intros best; cbn [foldl].
  { apply elem_of_cons. by left. }
  specialize (IH (better best item)). apply elem_of_cons in IH.
  rewrite !elem_of_cons. destruct IH as [IH|IH]; [|auto].
  rewrite IH. destruct (better_elem best item) as [-> | ->]; auto.
Qed.

Lemma argmax_key d : d ≠ [] → ∃ k, argmax d = Ok k ∧ k ∈ d.*1.
Proof.
  destruct d as [|item rest]; [done|]. intros _. eexists. split; [done|].
  apply list_elem_of_fmap. eexists. split; [done|]. apply foldl_better_elem.
Qed.

(** A later item never replaces an item it does not strictly exceed. *)
Lemma foldl_better_keeps post : ∀ best,
  Forall (λ kv, flt (snd best) (snd kv) = false) post →
  foldl better best post = best.
Proof.
  induction post as [|item post IH]; intros best Hall; [done|].
  inversion Hall as [|? ? H1 H2]; subst. cbn [foldl].
  unfold better at 2. rewrite H1. by apply IH.
Qed.

(** The first key whose value exceeds all values before it and is
    exceeded by none after it is the one [max] returns. *)
Lemma argmax_first pre k v post :
  Forall (λ kv, flt (snd kv) v = true) pre →
  Forall (λ kv, flt v (snd kv) = false) post →
  argmax (pre ++ (k, v) :: post) = Ok k.
Proof.
  intros Hpre Hpost. destruct pre as [|item pre].
  - cbn [app argmax]. by rewrite foldl_better_keeps.
  - cbn [app argmax]. rewrite foldl_app. cbn [foldl].
    assert (foldl better item pre ∈ item :: pre) as Hin
      by apply foldl_better_elem.
    rewrite Forall_forall in Hpre. apply Hpre in Hin.
    unfold better at 2. cbn [snd]. rewrite Hin.
    by rewrite foldl_better_keeps.
Qed.

Lemma new_row_ACTIONS : new_row ACTIONS = [(f0_1, f0); (f1, f0); (f5, f0)].
Proof. reflexivity. Qed.

Lemma row_get_ACTIONS (d : row) act :
  d.*1 = ACTIONS → act ∈ ACTIONS → ∃ v, row_get d act = Ok v.
Proof.
  destruct d as [|[k1 v1] [|[k2 v2] [|[k3 v3] [|]]]]; try done.
  intros [= -> -> ->] Hact. unfold ACTIONS in Hact.
  rewrite !elem_of_cons in Hact.
  destruct Hact as [->|[->|[->|Hact]]]; [by eexists..|by inversion Hact].
Qed.

Lemma row_set_ACTIONS (d : row) act v :
  d.*1 = ACTIONS → act ∈ ACTIONS → (row_set d act v).*1 = ACTIONS.
Proof.
  destruct d as [|[k1 v1] [|[k2 v2] [|[k3 v3] [|]]]]; try done.
  intros [= -> -> ->] Hact. unfold ACTIONS in Hact.
  rewrite !elem_of_cons in Hact.
  destruct Hact as [->|[->|[->|Hact]]]; [done..|by inversion Hact].
Qed.

(** * The learner *)

Lemma ensure_row_Return s q :
  QLearning_Strategist.ensure_row s q =
  Return (QLearning_Strategist.with_row s q) tt.
Proof. reflexivity. Qed.

Lemma with_row_wf s q : wf_rl q → wf_rl (QLearning_Strategist.with_row s q).
Proof.
  intros [Hact Hrows]. unfold QLearning_Strategist.with_row.
  destruct (QLearning_Strategist.q_table q !! s) eqn:E; [done|].
  split; [done|]. cbn [QLearning_Strategist.q_table QLearning_Strategist.set_q_table].
  apply map_Forall_insert_2; [|done]. by rewrite Hact.
Qed.

Lemma with_row_lookup s q :
  wf_rl q →
  ∃ d, QLearning_Strategist.q_table (QLearning_Strategist.with_row s q) !! s
       = Some d ∧ d.*1 = ACTIONS.
Proof.
  intros [Hact Hrows]. unfold QLearning_Strategist.with_row.
  destruct (QLearning_Strategist.q_table q !! s) as [d|] eqn:E.
  - exists d. split; [done|]. by apply (Hrows s).
  - eexists. cbn [QLearning_Strategist.q_table QLearning_Strategist.set_q_table].
    rewrite lookup_insert_eq. split; [done|]. by rewrite Hact.
Qed.

Lemma with_row_keeps s s' q d :
  QLearning_Strategist.q_table q !! s' = Some d →
  QLearning_Strategist.q_table (QLearning_Strategist.with_row s q) !! s'
  = Some d.
Proof.
  intros Hd. unfold QLearning_Strategist.with_row.
  destruct (QLearning_Strategist.q_table q !! s) eqn:E; [done|].
  cbn [QLearning_Strategist.q_table QLearning_Strategist.set_q_table].
  rewrite lookup_insert_ne; [done|]. intros ->. congruence.
Qed.

Lemma lookup_row_Return s q d :
  QLearning_Strategist.q_table q !! s = Some d →
  QLearning_Strategist.lookup_row s q = Return q d.
Proof.
  intros Hd. unfold QLearning_Strategist.lookup_row, bind, get. by rewrite Hd.
Qed.

(** On a well-formed learner and for an action of the action set,
    [learn] ends normally, keeps the learner well formed, and leaves a
    row for the bin it credits. *)
Lemma learn_Return q s act reward ns :
  wf_rl q → act ∈ ACTIONS →
  ∃ q', QLearning_Strategist.learn s act reward ns q = Return q' tt ∧
        wf_rl q' ∧ is_Some (QLearning_Strategist.q_table q' !! s).
Proof.
  intros Hwf Hact.
  pose proof (with_row_wf s q Hwf) as Hwf1.
  pose proof (with_row_wf ns _ Hwf1) as Hwf2.
  destruct (with_row_lookup s q Hwf) as (d0 & Hd0 & _).
  pose proof (with_row_keeps ns s _ d0 Hd0) as Hd.
  assert (d0.*1 = ACTIONS) as Hkeys by (by apply (proj2 Hwf2 s)).
  destruct (with_row_lookup ns _ Hwf1) as (dn & Hdn & Hkn).
  destruct (row_get_ACTIONS d0 act Hkeys Hact) as [old_q Hold].
  set (q2 := QLearning_Strategist.with_row ns
               (QLearning_Strategist.with_row s q)) in *.
  unfold QLearning_Strategist.learn.
  rewrite (bind_Return _ _ _ _ _ (ensure_row_Return s q)).
  rewrite (bind_Return _ _ _ _ _ (ensure_row_Return ns _)). fold q2.
  rewrite (bind_Return _ _ _ _ _ (lookup_row_Return s q2 d0 Hd)).
  rewrite Hold. cbn [lift]. unfold ret at 1. unfold bind at 1.
  rewrite (bind_Return _ _ _ _ _ (lookup_row_Return ns q2 dn Hdn)).
  destruct dn as [|[kn vn] dn]; [done|].
  cbn [py_max_list fmap list_fmap lift snd]. unfold ret at 1. unfold bind at 1.
  unfold get at 1. unfold bind at 1.
  rewrite (bind_Return _ _ _ _ _ (lookup_row_Return s q2 d0 Hd)).
  eexists. split; [reflexivity|]. split.
  - split; [apply Hwf2|].
    cbn [QLearning_Strategist.q_table QLearning_Strategist.set_q_table].
    apply map_Forall_insert_2; [|apply Hwf2]. by apply row_set_ACTIONS.
  - cbn [QLearning_Strategist.q_table QLearning_Strategist.set_q_table].
    rewrite lookup_insert_eq. by eexists.
Qed.

Lemma greedy_Return s q :
  wf_rl q →
  ∃ act, QLearning_Strategist.greedy s q
         = Return (QLearning_Strategist.with_row s q) act ∧ act ∈ ACTIONS.
Proof.
  intros Hwf. destruct (with_row_lookup s q Hwf) as (d & Hd & Hk).
  destruct (argmax_key d) as (k & Hk1 & Hk2); [by destruct d|].
  exists k. unfold QLearning_Strategist.greedy.
  rewrite (bind_Return _ _ _ _ _ (ensure_row_Return s q)).
  rewrite (bind_Return _ _ _ _ _ (lookup_row_Return s _ d Hd)).
  rewrite Hk1. split; [done|]. by rewrite <- Hk.
Qed.

(** The generator after one output. *)
Lemma choose_action_greedy s q g :
  flt (Random.unit_float (Random.draws g (Random.cursor g)))
      (QLearning_Strategist.epsilon q) = false →
  QLearning_Strategist.choose_action s (q, g) =
  match QLearning_Strategist.greedy s q with
  | Return q' act =>
      Return (q', {| Random.draws := Random.draws g;
                     Random.cursor := S (Random.cursor g) |}) act
  | Raise q' e =>
      Raise (q', {| Random.draws := Random.draws g;
                    Random.cursor := S (Random.cursor g) |}) e
  end.
Proof.
  intros Hr. unfold QLearning_Strategist.choose_action.
  unfold bind at 1. unfold zoom at 1. cbn [snd fst]. rewrite random_Return.
  unfold bind at 1. unfold zoom at 1. unfold get. cbn [fst snd].
  rewrite Hr. unfold zoom. cbn [fst snd]. reflexivity.
Qed.

Lemma choose_action_explore s q g :
  flt (Random.unit_float (Random.draws g (Random.cursor g)))
      (QLearning_Strategist.epsilon q) = true →
  QLearning_Strategist.choose_action s (q, g) =
  match Random.choice (QLearning_Strategist.actions q)
          {| Random.draws := Random.draws g;
             Random.cursor := S (Random.cursor g) |} with
  | Return g' act => Return (q, g') act
  | Raise g' e => Raise (q, g') e
  end.
Proof.
  intros Hr. unfold QLearning_Strategist.choose_action.
  unfold bind at 1. unfold zoom at 1. cbn [snd fst]. rewrite random_Return.
  unfold bind at 1. unfold zoom at 1. unfold get. cbn [fst snd].
  rewrite Hr. unfold zoom. cbn [fst snd]. reflexivity.
Qed.

Lemma choose_action_Return s q g :
  wf_rl q →
  ∃ q' g' act,
    QLearning_Strategist.choose_action s (q, g) = Return (q', g') act ∧
    wf_rl q' ∧ act ∈ ACTIONS.
Proof.
  intros Hwf.
  destruct (flt (Random.unit_float (Random.draws g (Random.cursor g)))
                (QLearning_Strategist.epsilon q)) eqn:Hr.
  - rewrite (choose_action_explore _ _ _ Hr). rewrite (proj1 Hwf).
    destruct (choice_ACTIONS
                {| Random.draws := Random.draws g;
                   Random.cursor := S (Random.cursor g) |})
      as (act & -> & Hact).
    by eexists _, _, _.
  - rewrite (choose_action_greedy _ _ _ Hr).
    destruct (greedy_Return s q Hwf) as (act & -> & Hact).
    eexists _, _, _. split; [done|]. split; [by apply with_row_wf|done].
Qed.

(** C8. With an exploration probability of 0 the draw never selects
    exploration, whatever the generator gives.  On a bin with no row the
    row is created with every value 0 and the first-listed action, 0.1,
    is returned.  On a bin with a row, the key returned is the first one
    whose value strictly exceeds every value listed before it and is
    exceeded by no value listed after it: among tied maxima the
    first-listed wins. *)
Theorem C8_greedy_first_listed q g bin :
  QLearning_Strategist.epsilon q = f0 →
  QLearning_Strategist.actions q = ACTIONS →
  let g' := {| Random.draws := Random.draws g;
               Random.cursor := S (Random.cursor g) |} in
  (QLearning_Strategist.q_table q !! bin = None →
   QLearning_Strategist.choose_action bin (q, g) =
   Return (QLearning_Strategist.with_row bin q, g') f0_1) ∧
  (∀ pre k v post,
     QLearning_Strategist.q_table q !! bin = Some (pre ++ (k, v) :: post) →
     Forall (λ kv, flt (snd kv) v = true) pre →
     Forall (λ kv, flt v (snd kv) = false) post →
     QLearning_Strategist.choose_action bin (q, g) = Return (q, g') k).
Proof.
  intros Heps Hact g'.
  assert (flt (Random.unit_float (Random.draws g (Random.cursor g)))
              (QLearning_Strategist.epsilon q) = false) as Hr
    by (rewrite Heps; apply unit_float_nonneg).
  rewrite (choose_action_greedy _ _ _ Hr).
  unfold QLearning_Strategist.greedy.
  rewrite (bind_Return _ _ _ _ _ (ensure_row_Return bin q)).
  split.
  - intros Hnone.
    erewrite (bind_Return _ _ _ _ (new_row ACTIONS)); [done|].
    apply lookup_row_Return. unfold QLearning_Strategist.with_row.
    rewrite Hnone, Hact.
    cbn [QLearning_Strategist.q_table QLearning_Strategist.set_q_table].
    apply lookup_insert_eq.
  - intros pre k v post Hrow Hpre Hpost.
    assert (QLearning_Strategist.with_row bin q = q) as Hsame.
    { unfold QLearning_Strategist.with_row. by rewrite Hrow. }
    rewrite Hsame.
    rewrite (bind_Return _ _ _ _ _ (lookup_row_Return bin q _ Hrow)).
    by rewrite argmax_first.
Qed.

Lemma C8_witness :
  QLearning_Strategist.choose_action 40 (greedy_learner, seeded_half) =
  Return (QLearning_Strategist.with_row 40 greedy_learner,
          {| Random.draws := Random.draws seeded_half; Random.cursor := 1 |})
         f0_1.
Proof.
  apply (proj1 (C8_greedy_first_listed greedy_learner seeded_half 40
                  eq_refl eq_refl)).
  reflexivity.
Defined.

(** C10. A charge of exactly 100 is discretized to the bin 100, which is
    none of 0, 20, 40, 60, 80; a new brain credits the bin 100, and its
    table has no row for it, so whatever the reward and the next bin
    are, the first call of [learn] ends with a row keyed 100 in the
    table. *)
Theorem C10_full_charge_bin :
  QLearning_Strategist.get_state f100 = Ok 100 ∧
  (100 ∉ Spec.bins) ∧
  NAHEO_Brain_V2.last_soc_state NAHEO_Brain_V2.init = 100 ∧
  QLearning_Strategist.q_table (NAHEO_Brain_V2.rl NAHEO_Brain_V2.init) !! 100
  = None ∧
  ∀ reward next_state,
    ∃ q',
      QLearning_Strategist.learn
        (NAHEO_Brain_V2.last_soc_state NAHEO_Brain_V2.init)
        (NAHEO_Brain_V2.last_action NAHEO_Brain_V2.init)
        reward next_state (NAHEO_Brain_V2.rl NAHEO_Brain_V2.init)
      = Return q' tt ∧
      is_Some (QLearning_Strategist.q_table q' !! 100).
Proof.
  split; [vm_compute; reflexivity|]. split.
  { unfold Spec.bins. rewrite !elem_of_cons, elem_of_nil. lia. }
  split; [done|]. split; [done|].
  intros reward next_state.
  destruct (learn_Return QLearning_Strategist.init 100 f1 reward next_state)
    as (q' & Hq' & _ & Hrow).
  - split; [done|]. apply map_Forall_empty.
  - unfold ACTIONS. rewrite !elem_of_cons. auto.
  - by exists q'.
Qed.

(** * The orchestrator *)

Lemma compute_Return self target current lam :
  wf_mpc self → fle f0 lam = true →
  ∃ r, TrueMPC_Reactor.compute target current lam self =
       Return {| TrueMPC_Reactor.u := r;
                 TrueMPC_Reactor.a := TrueMPC_Reactor.a self;
                 TrueMPC_Reactor.b := TrueMPC_Reactor.b self |} r ∧
       duty_ok r = true.
Proof.
  intros Hwf Hlam.
  rewrite (compute_cases _ _ _ _ _ (denominator_constructed self lam Hwf)).
  rewrite fadd_pos_nonzero by done.
  eexists. split; [reflexivity|]. apply duty_ok_clamp.
Qed.

Lemma ACTIONS_nonneg act : act ∈ ACTIONS → fle f0 act = true.
Proof.
  unfold ACTIONS. rewrite !elem_of_cons, elem_of_nil.
  by intros [->|[->|[->|[]]]].
Qed.

(** A cycle on a well-formed brain, for an observation that has the
    three fields and a charge that can be discretized: every step ends
    normally, and the cycle returns the pieces the steps produced. *)
Lemma run_cycle_Return obs w v d soc cs :
  wf_brain (NAHEO_Brain_V2.brain w) →
  obs !! "V" = Some v → obs !! "Disturbance" = Some d →
  obs !! "SoC" = Some soc →
  QLearning_Strategist.get_state (as_float soc) = Ok cs →
  ∃ ghost' i_est reward q1 q2 g' act mpc' pwm,
    EKF_GhostSensor.update (as_float v)
      (fadd f6 (fmul f2_4 (fdiv (as_float soc) f100)))
      (NAHEO_Brain_V2.ghost (NAHEO_Brain_V2.brain w))
    = Return ghost' i_est ∧
    QLearning_Strategist.learn
      (NAHEO_Brain_V2.last_soc_state (NAHEO_Brain_V2.brain w))
      (NAHEO_Brain_V2.last_action (NAHEO_Brain_V2.brain w))
      reward cs (NAHEO_Brain_V2.rl (NAHEO_Brain_V2.brain w))
    = Return q1 tt ∧
    QLearning_Strategist.choose_action cs (q1, NAHEO_Brain_V2.rng w)
    = Return (q2, g') act ∧
    act ∈ ACTIONS ∧
    TrueMPC_Reactor.compute
      (fdiv (if is_true d then f8_4 else f7_5) f8_4)
      (fdiv (as_float v) f8_4)
      (if is_true d then f0_01 else act)
      (NAHEO_Brain_V2.mpc (NAHEO_Brain_V2.brain w))
    = Return mpc' pwm ∧
    duty_ok pwm = true ∧
    wf_brain {| NAHEO_Brain_V2.ghost := ghost'; NAHEO_Brain_V2.mpc := mpc';
                NAHEO_Brain_V2.rl := q2;
                NAHEO_Brain_V2.last_soc_state := cs;
                NAHEO_Brain_V2.last_action := act |} ∧
    NAHEO_Brain_V2.run_cycle obs w =
    Return
      {| NAHEO_Brain_V2.brain :=
           {| NAHEO_Brain_V2.ghost := ghost'; NAHEO_Brain_V2.mpc := mpc';
              NAHEO_Brain_V2.rl := q2;
              NAHEO_Brain_V2.last_soc_state := cs;
              NAHEO_Brain_V2.last_action := act |};
         NAHEO_Brain_V2.rng := g' |}
      (pwm, if is_true d then "HIGH" else "LOW", i_est).
Proof.
  intros Hwf Hv Hd Hsoc Hcs.
  destruct w as [[gh mp q ls la] g].
  destruct Hwf as (Hq & Hmp & Hla).
  cbn [NAHEO_Brain_V2.brain NAHEO_Brain_V2.rl NAHEO_Brain_V2.mpc
       NAHEO_Brain_V2.last_action NAHEO_Brain_V2.ghost NAHEO_Brain_V2.rng
       NAHEO_Brain_V2.last_soc_state] in *.
  pose proof (update_Return gh (as_float v)
    (fadd f6 (fmul f2_4 (fdiv (as_float soc) f100)))) as Hup.
  set (ghost' := EKF_GhostSensor.mk _ _ _ _) in Hup.
  set (i_est := py_max f0 _) in Hup.
  set (reward := fsub (fdiv (as_float v) f8_4)
                   (fmul (fmul (fdiv (fsub f110 (as_float soc)) f4) i_est)
                         f0_18)).
  destruct (learn_Return q ls la reward cs Hq Hla) as (q1 & Hlearn & Hq1 & _).
  destruct (choose_action_Return cs q1 g Hq1) as (q2 & g' & act & Hch & Hq2 & Hact).
  assert (fle f0 (if is_true d then f0_01 else act) = true) as Hlam.
  { destruct (is_true d); [done|by apply ACTIONS_nonneg]. }
  destruct (compute_Return mp (fdiv (if is_true d then f8_4 else f7_5) f8_4)
              (fdiv (as_float v) f8_4) _ Hmp Hlam) as (pwm & Hcomp & Hduty).
  exists ghost', i_est, reward, q1, q2, g', act,
    {| TrueMPC_Reactor.u := pwm; TrueMPC_Reactor.a := TrueMPC_Reactor.a mp;
       TrueMPC_Reactor.b := TrueMPC_Reactor.b mp |}, pwm.
  split; [done|]. split; [done|]. split; [done|]. split; [done|].
  split; [exact Hcomp|]. split; [done|]. split.
  { split; [done|]. split; [apply Hmp|done]. }
  unfold NAHEO_Brain_V2.run_cycle, item. rewrite Hv, Hd, Hsoc. cbn [lift].
  do 3 (unfold ret at 1; unfold bind at 1).
  change (py_truediv (as_float soc) f100) with (Ok (fdiv (as_float soc) f100)).
  cbn [lift]. unfold ret at 1. unfold bind at 1.
  unfold NAHEO_Brain_V2.on_ghost.
  erewrite bind_Return; [|by apply zoom_Return].
  rewrite Hcs. cbn [lift]. unfold ret at 1. unfold bind at 1.
  change (py_truediv (fsub f110 (as_float soc)) f4)
    with (Ok (fdiv (fsub f110 (as_float soc)) f4)).
  change (py_truediv (as_float v) f8_4) with (Ok (fdiv (as_float v) f8_4)).
  cbn [lift]. do 2 (unfold ret at 1; unfold bind at 1).
  unfold NAHEO_Brain_V2.get_self at 1. unfold bind at 1.
  unfold NAHEO_Brain_V2.on_rl.
  erewrite bind_Return; [|by apply zoom_Return].
  unfold NAHEO_Brain_V2.on_rl_rng.
  erewrite bind_Return; [|by apply zoom_Return].
  unfold NAHEO_Brain_V2.assign_last at 1. unfold bind at 1.
  change (py_truediv (if is_true d then f8_4 else f7_5) f8_4)
    with (Ok (fdiv (if is_true d then f8_4 else f7_5) f8_4)).
  cbn [lift]. do 2 (unfold ret at 1; unfold bind at 1).
  unfold NAHEO_Brain_V2.on_mpc.
  erewrite bind_Return; [|by apply zoom_Return].
  unfold NAHEO_Brain_V2.get_self at 1. unfold bind at 1. unfold ret.
  cbn [NAHEO_Brain_V2.set_mpc NAHEO_Brain_V2.set_last NAHEO_Brain_V2.set_rl
       NAHEO_Brain_V2.set_rl_rng NAHEO_Brain_V2.set_ghost
       NAHEO_Brain_V2.brain NAHEO_Brain_V2.rl NAHEO_Brain_V2.mpc
       NAHEO_Brain_V2.last_action NAHEO_Brain_V2.ghost NAHEO_Brain_V2.rng
       NAHEO_Brain_V2.last_soc_state TrueMPC_Reactor.u fst snd].
  rewrite delta_self, orb_false_r. reflexivity.
Qed.

Lemma wf_brain_init : wf_brain NAHEO_Brain_V2.init.
Proof.
  split; [|split].
  - split; [done|]. apply map_Forall_empty.
  - done.
  - unfold ACTIONS. cbn. rewrite !elem_of_cons. auto.
Qed.

(** The power mode of a cycle that ends normally is decided by the
    disturbance flag alone: the duty cycle is compared with the value the
    controller has just stored, which is the duty cycle itself. *)
Lemma run_cycle_mode obs w v d soc cs :
  wf_brain (NAHEO_Brain_V2.brain w) →
  obs !! "V" = Some v → obs !! "Disturbance" = Some d →
  obs !! "SoC" = Some soc →
  QLearning_Strategist.get_state (as_float soc) = Ok cs →
  ∃ pwm i_est,
    returned (NAHEO_Brain_V2.run_cycle obs w)
    = Some (pwm, if is_true d then "HIGH" else "LOW", i_est).
Proof.
  intros Hwf Hv Hd Hsoc Hcs.
  destruct (run_cycle_Return obs w v d soc cs Hwf Hv Hd Hsoc Hcs)
    as (? & i_est & ? & ? & ? & ? & ? & ? & pwm & _ & _ & _ & _ & _ & _ & _ & ->).
  by exists pwm, i_est.
Qed.

(** C5, on the program.  First cycle of a new brain, full charge, full
    voltage, no disturbance, whatever the generator gives: the stored
    duty cycle is 1.0 before the cycle, the duty cycle returned differs
    from it by more than 0.01, and yet the power mode is "LOW". *)
Theorem C5_low_despite_duty_jump g :
  ∃ pwm i_est,
    TrueMPC_Reactor.u (NAHEO_Brain_V2.mpc (NAHEO_Brain_V2.brain (fresh g)))
    = f1 ∧
    returned (NAHEO_Brain_V2.run_cycle (observation f8_4 false f100) (fresh g))
    = Some (pwm, "LOW", i_est) ∧
    flt f0_01 (fabs (fsub pwm f1)) = true.
Proof.
  destruct (run_cycle_Return (observation f8_4 false f100) (fresh g)
              (PyFloat f8_4) (PyBool false) (PyFloat f100) 100)
    as (gh' & i_est & reward & q1 & q2 & g' & act & mpc' & pwm
        & _ & _ & _ & Hact & Hcomp & _ & _ & Hrun);
    [apply wf_brain_init|reflexivity..|vm_compute; reflexivity|].
  exists pwm, i_est. split; [done|]. rewrite Hrun. split; [done|].
  cbn [is_true NAHEO_Brain_V2.mpc NAHEO_Brain_V2.brain fresh
       NAHEO_Brain_V2.init] in Hcomp.
  unfold ACTIONS in Hact. rewrite !elem_of_cons, elem_of_nil in Hact.
  destruct Hact as [->|[->|[->|[]]]]; vm_compute in Hcomp;
    injection Hcomp as _ <-; vm_compute; reflexivity.
Qed.

(** The same cycle with a generator whose first output makes
    [random()] 0.5: the duty cycle goes from 1.0 to about 0.365. *)
Example first_cycle_half :
  returned (NAHEO_Brain_V2.run_cycle (observation f8_4 false f100)
              (fresh seeded_half))
  = Some (S754_finite false 6575202064145541 (-54), "LOW", f0).
Proof. vm_compute. reflexivity. Qed.

(** C6. On a well-formed brain, for an observation whose disturbance
    flag is set and whose charge can be discretized, the cycle ends
    normally with power mode "HIGH"; the duty cycle and the controller
    left behind are those of [compute] called with target 8.4/8.4 and
    aggressiveness 0.01; the stored bin is the bin of the charge and the
    stored action is the action [choose_action] returned after [learn],
    an action of the action set and not the override. *)
Theorem C6_disturbance_override obs w v d soc cs :
  wf_brain (NAHEO_Brain_V2.brain w) →
  obs !! "V" = Some v → obs !! "Disturbance" = Some d →
  obs !! "SoC" = Some soc →
  is_true d = true →
  QLearning_Strategist.get_state (as_float soc) = Ok cs →
  ∃ w' pwm i_est reward q1,
    NAHEO_Brain_V2.run_cycle obs w = Return w' (pwm, "HIGH", i_est) ∧
    TrueMPC_Reactor.compute (fdiv f8_4 f8_4) (fdiv (as_float v) f8_4) f0_01
      (NAHEO_Brain_V2.mpc (NAHEO_Brain_V2.brain w))
    = Return (NAHEO_Brain_V2.mpc (NAHEO_Brain_V2.brain w')) pwm ∧
    NAHEO_Brain_V2.last_soc_state (NAHEO_Brain_V2.brain w') = cs ∧
    QLearning_Strategist.learn
      (NAHEO_Brain_V2.last_soc_state (NAHEO_Brain_V2.brain w))
      (NAHEO_Brain_V2.last_action (NAHEO_Brain_V2.brain w))
      reward cs (NAHEO_Brain_V2.rl (NAHEO_Brain_V2.brain w))
    = Return q1 tt ∧
    QLearning_Strategist.choose_action cs (q1, NAHEO_Brain_V2.rng w)
    = Return (NAHEO_Brain_V2.rl (NAHEO_Brain_V2.brain w'),
              NAHEO_Brain_V2.rng w')
             (NAHEO_Brain_V2.last_action (NAHEO_Brain_V2.brain w')) ∧
    NAHEO_Brain_V2.last_action (NAHEO_Brain_V2.brain w') ∈ ACTIONS ∧
    NAHEO_Brain_V2.last_action (NAHEO_Brain_V2.brain w') ≠ f0_01.
Proof.
  intros Hwf Hv Hd Hsoc Hdist Hcs.
  destruct (run_cycle_Return obs w v d soc cs Hwf Hv Hd Hsoc Hcs)
    as (gh' & i_est & reward & q1 & q2 & g' & act & mpc' & pwm
        & _ & Hlearn & Hch & Hact & Hcomp & _ & _ & Hrun).
  rewrite Hdist in Hcomp, Hrun.
  eexists _, pwm, i_est, reward, q1. split; [exact Hrun|].
  cbn [NAHEO_Brain_V2.brain NAHEO_Brain_V2.mpc NAHEO_Brain_V2.rl
       NAHEO_Brain_V2.rng NAHEO_Brain_V2.last_soc_state
       NAHEO_Brain_V2.last_action].
  repeat (split; [done|]).
  intros ->. revert Hact. unfold ACTIONS.
  rewrite !elem_of_cons, elem_of_nil. by intros [|[|[|]]].
Qed.

Lemma C6_witness :
  ∃ w' pwm i_est reward q1,
    NAHEO_Brain_V2.run_cycle (observation f8_4 true f50) (fresh seeded_half)
    = Return w' (pwm, "HIGH", i_est) ∧
    TrueMPC_Reactor.compute (fdiv f8_4 f8_4) (fdiv f8_4 f8_4) f0_01
      TrueMPC_Reactor.init
    = Return (NAHEO_Brain_V2.mpc (NAHEO_Brain_V2.brain w')) pwm ∧
    NAHEO_Brain_V2.last_soc_state (NAHEO_Brain_V2.brain w') = 40 ∧
    QLearning_Strategist.learn 100 f1 reward 40 QLearning_Strategist.init
    = Return q1 tt ∧
    QLearning_Strategist.choose_action 40 (q1, seeded_half)
    = Return (NAHEO_Brain_V2.rl (NAHEO_Brain_V2.brain w'),
              NAHEO_Brain_V2.rng w')
             (NAHEO_Brain_V2.last_action (NAHEO_Brain_V2.brain w')) ∧
    NAHEO_Brain_V2.last_action (NAHEO_Brain_V2.brain w') ∈ ACTIONS ∧
    NAHEO_Brain_V2.last_action (NAHEO_Brain_V2.brain w') ≠ f0_01.
Proof.
  apply (C6_disturbance_override (observation f8_4 true f50)
           (fresh seeded_half) (PyFloat f8_4) (PyBool true) (PyFloat f50) 40).
  - apply wf_brain_init.
  - reflexivity.
  - reflexivity.
  - reflexivity.
  - reflexivity.
  - vm_compute. reflexivity.
Defined.

(** C7, as the program has it.  An observation that lacks one of the
    fields V, Disturbance, SoC makes the cycle fail at once with
    [KeyError], and nothing of the brain or of the generator has
    changed. *)
Theorem C7_missing_field_fails obs w :
  obs !! "V" = None ∨ obs !! "Disturbance" = None ∨ obs !! "SoC" = None →
  NAHEO_Brain_V2.run_cycle obs w = Raise w KeyError.
Proof.
  intros H. unfold NAHEO_Brain_V2.run_cycle, item.
  destruct (obs !! "V") as [v|]; [|done].
  cbn [lift]. unfold ret at 1. unfold bind at 1.
  destruct (obs !! "Disturbance") as [d|]; [|done].
  cbn [lift]. unfold ret at 1. unfold bind at 1.
  destruct (obs !! "SoC") as [soc|]; [|done].
  by destruct H as [|[|]].
Qed.

Lemma C7_witness :
  NAHEO_Brain_V2.run_cycle
    (<["V" := PyFloat f8_4]> (<["SoC" := PyFloat f50]> ∅))
    (fresh seeded_half)
  = Raise (fresh seeded_half) KeyError.
Proof.
  apply (C7_missing_field_fails
           (<["V" := PyFloat f8_4]> (<["SoC" := PyFloat f50]> ∅))
           (fresh seeded_half)).
  right. left. reflexivity.
Defined.

(** C7 as stated fails: a negative terminal voltage and a charge of 150
    percent are both accepted; the cycle ends normally and the brain has
    changed. *)
Lemma C7_out_of_range_accepted :
  flt f_minus_1 f0 = true ∧
  raised (NAHEO_Brain_V2.run_cycle (observation f_minus_1 false f50)
            (fresh seeded_half)) = None ∧
  NAHEO_Brain_V2.brain
    (final_state (NAHEO_Brain_V2.run_cycle (observation f_minus_1 false f50)
                    (fresh seeded_half)))
  ≠ NAHEO_Brain_V2.init ∧
  flt f100 f150 = true ∧
  raised (NAHEO_Brain_V2.run_cycle (observation f8_4 false f150)
            (fresh seeded_half)) = None ∧
  NAHEO_Brain_V2.brain
    (final_state (NAHEO_Brain_V2.run_cycle (observation f8_4 false f150)
                    (fresh seeded_half)))
  ≠ NAHEO_Brain_V2.init.
Proof.
  split; [done|]. split; [vm_compute; reflexivity|]. split.
  { intros H. apply (f_equal NAHEO_Brain_V2.last_soc_state) in H.
    vm_compute in H. discriminate. }
  split; [done|]. split; [vm_compute; reflexivity|].
  intros H. apply (f_equal NAHEO_Brain_V2.last_soc_state) in H.
  vm_compute in H. discriminate.
Qed.

(** * Determinism *)

Lemma same_world_refl w : same_world w w.
Proof. by repeat split. Qed.

Lemma det_ret {A} (a : A) : deterministic (ret a).
Proof. intros w1 w2 Hw. by split. Qed.

Lemma det_lift {A} (r : result A) : deterministic (lift r).
Proof. intros w1 w2 Hw. destruct r; by split. Qed.

Lemma det_bind {A B} (m : M NAHEO_Brain_V2.world A)
    (k : A → M NAHEO_Brain_V2.world B) :
  deterministic m → (∀ a, deterministic (k a)) → deterministic (bind m k).
Proof.
  intros Hm Hk w1 w2 Hw. specialize (Hm w1 w2 Hw). unfold bind.
  destruct (m w1) as [w1' a1|w1' e1], (m w2) as [w2' a2|w2' e2]; try done.
  destruct Hm as [-> Hw']. by apply Hk.
Qed.

Lemma det_get_self : deterministic NAHEO_Brain_V2.get_self.
Proof. intros w1 w2 Hw. split; [apply Hw|done]. Qed.

Lemma det_assign_last s act : deterministic (NAHEO_Brain_V2.assign_last s act).
Proof.
  intros w1 w2 [Hb Hg]. split; [done|]. split; [|done].
  cbn. by rewrite Hb.
Qed.

(** A method of a component reads and writes the brain only. *)
Lemma det_on_ghost {A} (m : M EKF_GhostSensor.t A) :
  deterministic (NAHEO_Brain_V2.on_ghost m).
Proof.
  intros w1 w2 [Hb Hg]. unfold NAHEO_Brain_V2.on_ghost, zoom. rewrite Hb.
  destruct (m _); (split; [done|]); (split; [|done]); cbn; by rewrite Hb.
Qed.

Lemma det_on_mpc {A} (m : M TrueMPC_Reactor.t A) :
  deterministic (NAHEO_Brain_V2.on_mpc m).
Proof.
  intros w1 w2 [Hb Hg]. unfold NAHEO_Brain_V2.on_mpc, zoom. rewrite Hb.
  destruct (m _); (split; [done|]); (split; [|done]); cbn; by rewrite Hb.
Qed.

Lemma det_on_rl {A} (m : M QLearning_Strategist.t A) :
  deterministic (NAHEO_Brain_V2.on_rl m).
Proof.
  intros w1 w2 [Hb Hg]. unfold NAHEO_Brain_V2.on_rl, zoom. rewrite Hb.
  destruct (m _); (split; [done|]); (split; [|done]); cbn; by rewrite Hb.
Qed.

Lemma same_draws_next g1 g2 :
  same_draws g1 g2 →
  Random.draws g1 (Random.cursor g1) = Random.draws g2 (Random.cursor g2) ∧
  same_draws {| Random.draws := Random.draws g1;
                Random.cursor := S (Random.cursor g1) |}
             {| Random.draws := Random.draws g2;
                Random.cursor := S (Random.cursor g2) |}.
Proof.
  intros [Hc Hd]. split; [by rewrite Hc, Hd|]. split; [cbn; by rewrite Hc|done].
Qed.

Lemma choice_same {A} (seq : list A) g1 g2 :
  same_draws g1 g2 →
  match Random.choice seq g1, Random.choice seq g2 with
  | Return g1' a1, Return g2' a2 => a1 = a2 ∧ same_draws g1' g2'
  | Raise g1' e1, Raise g2' e2 => e1 = e2 ∧ same_draws g1' g2'
  | _, _ => False
  end.
Proof.
  intros Hg. destruct (same_draws_next g1 g2 Hg) as [Hk Hg'].
  destruct seq as [|a seq]; [by split|].
  unfold Random.choice.
  rewrite (bind_Return _ _ g1 _ (Random.draws g1 (Random.cursor g1)) eq_refl).
  rewrite (bind_Return _ _ g2 _ (Random.draws g2 (Random.cursor g2)) eq_refl).
  rewrite Hk. by destruct (_ !! _).
Qed.

(** [choose_action] reads the generator through its outputs only. *)
Lemma det_choose_action s :
  deterministic
    (NAHEO_Brain_V2.on_rl_rng (QLearning_Strategist.choose_action s)).
Proof.
  intros [b1 g1] [b2 g2] [Hb Hg]. cbn in Hb, Hg. subst b2.
  destruct (same_draws_next g1 g2 Hg) as [Hk Hg'].
  unfold NAHEO_Brain_V2.on_rl_rng, zoom.
  cbn [NAHEO_Brain_V2.brain NAHEO_Brain_V2.rng].
  destruct (flt (Random.unit_float (Random.draws g1 (Random.cursor g1)))
              (QLearning_Strategist.epsilon (NAHEO_Brain_V2.rl b1))) eqn:Hr.
  - rewrite (choose_action_explore s _ g1 Hr).
    rewrite Hk in Hr. rewrite (choose_action_explore s _ g2 Hr).
    pose proof (choice_same
      (QLearning_Strategist.actions (NAHEO_Brain_V2.rl b1)) _ _ Hg') as Hc.
    destruct (Random.choice _ _), (Random.choice _ _); try done;
      destruct Hc as [-> Hc]; (split; [done|]); (split; [done|exact Hc]).
  - rewrite (choose_action_greedy s _ g1 Hr).
    rewrite Hk in Hr. rewrite (choose_action_greedy s _ g2 Hr).
    destruct (QLearning_Strategist.greedy s _);
      (split; [done|]); (split; [done|exact Hg']).
Qed.

Lemma det_run_cycle obs : deterministic (NAHEO_Brain_V2.run_cycle obs).
Proof.
  unfold NAHEO_Brain_V2.run_cycle.
  repeat first
    [ apply det_bind; [|intros ?]
    | apply det_lift | apply det_ret | apply det_get_self
    | apply det_assign_last | apply det_on_ghost | apply det_on_mpc
    | apply det_on_rl | apply det_choose_action ].
Qed.

Lemma others_draw_same k : ∀ w1 w2,
  same_world w1 w2 → same_world (others_draw k w1) (others_draw k w2).
Proof.
  induction k as [|k IH]; intros w1 w2 Hw; [done|].
  cbn [others_draw]. apply IH. destruct Hw as [Hb Hg]. split; [done|].
  cbn [NAHEO_Brain_V2.rng]. by apply same_draws_next.
Qed.

Lemma run_shared_same others1 others2 obs : ∀ i w1 w2,
  same_world w1 w2 →
  (∀ j, (j < length obs)%nat → others1 (i + j)%nat = others2 (i + j)%nat) →
  fst (run_shared others1 i obs w1) = fst (run_shared others2 i obs w2).
Proof.
  induction obs as [|o obs IH]; intros i w1 w2 Hw Hothers; [done|].
  cbn [run_shared].
  pose proof (Hothers 0%nat ltac:(cbn [length]; lia)) as H0.
  rewrite Nat.add_0_r in H0. rewrite H0.
  pose proof (det_run_cycle o _ _ (others_draw_same (others2 i) w1 w2 Hw))
    as Ho.
  destruct (NAHEO_Brain_V2.run_cycle o (others_draw (others2 i) w1))
    as [w1' d1|w1' e1],
    (NAHEO_Brain_V2.run_cycle o (others_draw (others2 i) w2))
    as [w2' d2|w2' e2]; try done.
  - destruct Ho as [-> Hw'].
    assert (fst (run_shared others1 (S i) obs w1')
            = fst (run_shared others2 (S i) obs w2')) as Hrest.
    { apply IH; [done|]. intros j Hj.
      replace (S i + j)%nat with (i + S j)%nat by lia.
      apply Hothers. cbn [length]. lia. }
    destruct (run_shared others1 (S i) obs w1') as [[ds1 x1] w1''],
             (run_shared others2 (S i) obs w2') as [[ds2 x2] w2''].
    cbn [fst] in *. by injection Hrest as -> ->.
  - by destruct Ho as [-> _].
Qed.

(** When nobody else draws, a run in the process is the run of the
    cycles alone. *)
Lemma run_shared_nobody obs : ∀ i w,
  run_shared nobody i obs w = NAHEO_Brain_V2.run obs w.
Proof.
  induction obs as [|o obs IH]; intros i w; [done|].
  cbn [run_shared NAHEO_Brain_V2.run nobody others_draw].
  destruct (NAHEO_Brain_V2.run_cycle o w); [|done]. by rewrite IH.
Qed.

(** C9, as the program has it.  Two runs over new cores, from generators
    seeded alike and over the same observations, in which the rest of
    the process draws from the shared generator equally often before
    each cycle, give the same duty cycles, power modes and current
    estimates, cycle for cycle, and stop on the same exception if they
    stop. *)
Theorem C9_same_seed_same_draws_same_run obs others1 others2 g1 g2 :
  same_draws g1 g2 →
  (∀ i, (i < length obs)%nat → others1 i = others2 i) →
  fst (run_shared others1 0 obs (fresh g1))
  = fst (run_shared others2 0 obs (fresh g2)).
Proof.
  intros Hg Hothers. apply run_shared_same; [by split|done].
Qed.

Lemma C9_witness :
  fst (run_shared once_before_second 0
         [observation f8_4 false f100; observation f7_5 true f50]
         (fresh seeded_half))
  = fst (run_shared (λ i, (if (i <? 2)%nat then once_before_second i
                           else 7)%nat) 0
           [observation f8_4 false f100; observation f7_5 true f50]
           (fresh seeded_half')).
Proof.
  apply (C9_same_seed_same_draws_same_run
           [observation f8_4 false f100; observation f7_5 true f50]
           once_before_second
           (λ i, (if (i <? 2)%nat then once_before_second i else 7)%nat)
           seeded_half seeded_half').
  - split; [reflexivity|]. intros n. cbn. lia.
  - intros i Hi. cbn [length] in Hi.
    destruct i as [|[|i]]; [reflexivity|reflexivity|lia].
Defined.

(** C9 as stated fails: after [random.seed(22)], two runs over new cores
    and the same two observations differ in the second duty cycle when,
    in one of them, the plant model has drawn once between the cycles:
    the learner then explores where it would have exploited. *)
Lemma C9_other_draw_changes_run :
  let obs := [observation f8_4 false f100; observation f7_5 false f50] in
  run_shared nobody 0 obs (fresh seeded_22)
  = NAHEO_Brain_V2.run obs (fresh seeded_22) ∧
  fst (run_shared nobody 0 obs (fresh seeded_22))
  = ([(S754_finite false 6575202064145541 (-54), "LOW", f0);
      (f0_1, "LOW", f0)], None) ∧
  fst (run_shared once_before_second 0 obs (fresh seeded_22))
  = ([(S754_finite false 6575202064145541 (-54), "LOW", f0);
      (S754_finite false 6791826616341999 (-55), "LOW", f0)], None) ∧
  fst (run_shared nobody 0 obs (fresh seeded_22))
  ≠ fst (run_shared once_before_second 0 obs (fresh seeded_22)).
Proof.
  split; [apply run_shared_nobody|].
  split; [vm_compute; reflexivity|]. split; [vm_compute; reflexivity|].
  vm_compute. discriminate.
Qed.

(** * The order of binary64 *)

Lemma feq_sym x y : feq x y = feq y x.
Proof.
  unfold feq, SFeqb. rewrite (SFcompare_antisym x y).
  by destruct (SFcompare x y) as [[]|].
Qed.

Lemma flt_irrefl x : flt x x = false.
Proof.
  destruct (flt x x) eqn:E; [|done]. by rewrite (flt_asym _ _ E) in E.
Qed.

Lemma lex_lt e1 m1 e2 m2 :
  match e1 ?= e2 with
  | Lt => Lt | Gt => Gt | Eq => Pos.compare_cont Eq m1 m2
  end = Lt ↔ e1 < e2 ∨ (e1 = e2 ∧ (m1 < m2)%positive).
Proof.
  change (Pos.compare_cont Eq m1 m2) with (m1 ?= m2)%positive.
  destruct (Z.compare_spec e1 e2); [|split; [lia|done]|split; [done|lia]].
  destruct (Pos.compare_spec m1 m2); split; try done; lia.
Qed.

Lemma lex_gt e1 m1 e2 m2 :
  match e1 ?= e2 with
  | Lt => Gt | Gt => Lt | Eq => CompOpp (Pos.compare_cont Eq m1 m2)
  end = Lt ↔ e2 < e1 ∨ (e1 = e2 ∧ (m2 < m1)%positive).
Proof.
  change (Pos.compare_cont Eq m1 m2) with (m1 ?= m2)%positive.
  destruct (Z.compare_spec e1 e2); [|split; [done|lia]|split; [lia|done]].
  destruct (Pos.compare_spec m1 m2); cbn [CompOpp]; split; try done; lia.
Qed.

Lemma flt_trans x y z : flt x y = true → flt y z = true → flt x z = true.
Proof.
  unfold flt, SFltb.
  destruct x as [[]|[]| |[] mx ex], y as [[]|[]| |[] my ey],
           z as [[]|[]| |[] mz ez]; cbn [SFcompare]; try done.
  - intros H1 H2.
    destruct (match ex ?= ey with Lt => Gt | Gt => Lt
              | Eq => CompOpp (Pos.compare_cont Eq mx my) end) eqn:E1;
      try done.
    destruct (match ey ?= ez with Lt => Gt | Gt => Lt
              | Eq => CompOpp (Pos.compare_cont Eq my mz) end) eqn:E2;
      try done.
    apply lex_gt in E1, E2.
    assert (match ex ?= ez with Lt => Gt | Gt => Lt
            | Eq => CompOpp (Pos.compare_cont Eq mx mz) end = Lt) as ->; [|done].
    apply lex_gt. lia.
  - intros H1 H2.
    destruct (match ex ?= ey with Lt => Lt | Gt => Gt
              | Eq => Pos.compare_cont Eq mx my end) eqn:E1; try done.
    destruct (match ey ?= ez with Lt => Lt | Gt => Gt
              | Eq => Pos.compare_cont Eq my mz end) eqn:E2; try done.
    apply lex_lt in E1, E2.
    assert (match ex ?= ez with Lt => Lt | Gt => Gt
            | Eq => Pos.compare_cont Eq mx mz end = Lt) as ->; [|done].
    apply lex_lt. lia.
Qed.

(** * More on the learner *)

Lemma with_row_dom s q :
  dom (QLearning_Strategist.q_table (QLearning_Strategist.with_row s q))
  = {[s]} ∪ dom (QLearning_Strategist.q_table q).
Proof.
  unfold QLearning_Strategist.with_row.
  destruct (QLearning_Strategist.q_table q !! s) as [d|] eqn:E.
  - apply (elem_of_dom_2 (D := gset Z)) in E.
    apply set_eq. intros k. rewrite elem_of_union, elem_of_singleton.
    split; [auto|]. by intros [->|].
  - cbn [QLearning_Strategist.q_table QLearning_Strategist.set_q_table].
    by rewrite dom_insert_L.
Qed.

(** What [learn] leaves on a well-formed learner, written out. *)
Lemma learn_result q s act reward ns :
  wf_rl q → act ∈ ACTIONS →
  let q2 := QLearning_Strategist.with_row ns
              (QLearning_Strategist.with_row s q) in
  ∃ d old dn next_max,
    QLearning_Strategist.q_table q2 !! s = Some d ∧ d.*1 = ACTIONS ∧
    row_get d act = Ok old ∧
    QLearning_Strategist.q_table q2 !! ns = Some dn ∧
    py_max_list dn.*2 = Ok next_max ∧
    QLearning_Strategist.learn s act reward ns q =
    Return
      (QLearning_Strategist.set_q_table
         (<[s := row_set d act
                   (fadd old
                      (fmul (QLearning_Strategist.alpha q2)
                         (fsub (fadd reward
                                  (fmul (QLearning_Strategist.gamma q2)
                                        next_max)) old)))]>
            (QLearning_Strategist.q_table q2)) q2) tt.
Proof.
  intros Hwf Hact q2.
  pose proof (with_row_wf s q Hwf) as Hwf1.
  pose proof (with_row_wf ns _ Hwf1) as Hwf2.
  destruct (with_row_lookup s q Hwf) as (d0 & Hd0 & _).
  pose proof (with_row_keeps ns s _ d0 Hd0) as Hd.
  assert (d0.*1 = ACTIONS) as Hkeys by (by apply (proj2 Hwf2 s)).
  destruct (with_row_lookup ns _ Hwf1) as (dn & Hdn & Hkn).
  destruct (row_get_ACTIONS d0 act Hkeys Hact) as [old_q Hold].
  fold q2 in Hd, Hdn, Hwf2.
  destruct dn as [|[kn vn] dn']; [done|].
  exists d0, old_q, ((kn, vn) :: dn'), (foldl py_max vn dn'.*2).
  split; [done|]. split; [done|]. split; [done|]. split; [done|].
  split; [done|].
  unfold QLearning_Strategist.learn.
  rewrite (bind_Return _ _ _ _ _ (ensure_row_Return s q)).
  rewrite (bind_Return _ _ _ _ _ (ensure_row_Return ns _)). fold q2.
  rewrite (bind_Return _ _ _ _ _ (lookup_row_Return s q2 d0 Hd)).
  rewrite Hold. cbn [lift]. unfold ret at 1. unfold bind at 1.
  rewrite (bind_Return _ _ _ _ _ (lookup_row_Return ns q2 _ Hdn)).
  cbn [py_max_list fmap list_fmap lift snd]. unfold ret at 1. unfold bind at 1.
  unfold get at 1. unfold bind at 1.
  rewrite (bind_Return _ _ _ _ _ (lookup_row_Return s q2 d0 Hd)).
  reflexivity.
Qed.

Lemma ACTIONS_self_eq act : act ∈ ACTIONS → feq act act = true.
Proof.
  unfold ACTIONS. rewrite !elem_of_cons, elem_of_nil.
  by intros [->|[->|[->|[]]]].
Qed.

Lemma row_get_set_same (d : row) act v :
  d.*1 = ACTIONS → act ∈ ACTIONS → row_get (row_set d act v) act = Ok v.
Proof.
  destruct d as [|[k1 v1] [|[k2 v2] [|[k3 v3] [|]]]]; try done.
  intros [= -> -> ->] Hact. unfold ACTIONS in Hact.
  rewrite !elem_of_cons, elem_of_nil in Hact.
  by destruct Hact as [->|[->|[->|[]]]].
Qed.

Lemma row_get_set_other (d : row) act v a' :
  d.*1 = ACTIONS → act ∈ ACTIONS → feq act a' = false →
  row_get (row_set d act v) a' = row_get d a'.
Proof.
  destruct d as [|[k1 v1] [|[k2 v2] [|[k3 v3] [|]]]]; try done.
  intros [= -> -> ->] Hact Hne. unfold ACTIONS in Hact.
  rewrite !elem_of_cons, elem_of_nil in Hact.
  destruct Hact as [->|[->|[->|[]]]];
    cbn [row_set row_get];
    repeat match goal with
           | |- context [feq ?a ?b] =>
               first [ change (feq a b) with true
                     | change (feq a b) with false ]; cbv iota
           end;
    cbn [row_get]; rewrite ?Hne; try reflexivity;
    destruct (feq f0_1 a'); try reflexivity;
    destruct (feq f1 a'); try reflexivity.
Qed.

(** X1. The update rule of [learn]: on a well-formed learner and for an
    action of the action set, [learn] ends normally and the entry of the
    credited bin and action becomes
    [old + alpha * (reward + gamma * next_max - old)], where [old] is the
    entry before the call (0 when the row did not exist) and [next_max]
    is the greatest value of the row of the next bin (0 when that row
    did not exist). *)
Theorem X1_learn_update_rule q s act reward ns :
  wf_rl q → act ∈ ACTIONS →
  let q2 := QLearning_Strategist.with_row ns
              (QLearning_Strategist.with_row s q) in
  ∃ q' old dn next_max,
    QLearning_Strategist.learn s act reward ns q = Return q' tt ∧
    q_value q2 s act = Ok old ∧
    QLearning_Strategist.q_table q2 !! ns = Some dn ∧
    py_max_list dn.*2 = Ok next_max ∧
    q_value q' s act =
    Ok (fadd old
          (fmul (QLearning_Strategist.alpha q)
             (fsub (fadd reward (fmul (QLearning_Strategist.gamma q) next_max))
                   old))).
Proof.
  intros Hwf Hact q2.
  destruct (learn_result q s act reward ns Hwf Hact)
    as (d & old & dn & nm & Hd & Hk & Hold & Hdn & Hnm & Hlearn).
  fold q2 in Hd, Hdn, Hlearn.
  eexists _, old, dn, nm. split; [exact Hlearn|].
  split; [unfold q_value; by rewrite Hd|]. split; [done|]. split; [done|].
  unfold q_value.
  cbn [QLearning_Strategist.q_table QLearning_Strategist.set_q_table].
  rewrite lookup_insert_eq. rewrite row_get_set_same by done.
  subst q2. unfold QLearning_Strategist.with_row.
  by repeat destruct (_ !! _).
Qed.

Lemma wf_rl_init : wf_rl QLearning_Strategist.init.
Proof. split; [done|]. apply map_Forall_empty. Qed.

Lemma f1_in_ACTIONS : f1 ∈ ACTIONS.
Proof. unfold ACTIONS. rewrite !elem_of_cons. auto. Qed.

Lemma X1_witness :
  let q2 := QLearning_Strategist.with_row 40
              (QLearning_Strategist.with_row 100 QLearning_Strategist.init) in
  ∃ q' old dn next_max,
    QLearning_Strategist.learn 100 f1 f1 40 QLearning_Strategist.init
    = Return q' tt ∧
    q_value q2 100 f1 = Ok old ∧
    QLearning_Strategist.q_table q2 !! 40 = Some dn ∧
    py_max_list dn.*2 = Ok next_max ∧
    q_value q' 100 f1 =
    Ok (fadd old
          (fmul (QLearning_Strategist.alpha QLearning_Strategist.init)
             (fsub (fadd f1
                      (fmul (QLearning_Strategist.gamma
                               QLearning_Strategist.init) next_max))
                   old))).
Proof.
  apply (X1_learn_update_rule QLearning_Strategist.init 100 f1 f1 40).
  - apply wf_rl_init.
  - apply f1_in_ACTIONS.
Defined.

(** X2. The frame of [learn]: every entry other than the credited one
    reads after the call as it reads once the rows of the two bins
    exist, and the learning rate, the discount, the exploration
    probability and the action set are unchanged. *)
Theorem X2_learn_frame q s act reward ns :
  wf_rl q → act ∈ ACTIONS →
  ∃ q',
    QLearning_Strategist.learn s act reward ns q = Return q' tt ∧
    (∀ s' a', s' ≠ s ∨ feq act a' = false →
       q_value q' s' a' =
       q_value (QLearning_Strategist.with_row ns
                  (QLearning_Strategist.with_row s q)) s' a') ∧
    QLearning_Strategist.alpha q' = QLearning_Strategist.alpha q ∧
    QLearning_Strategist.gamma q' = QLearning_Strategist.gamma q ∧
    QLearning_Strategist.epsilon q' = QLearning_Strategist.epsilon q ∧
    QLearning_Strategist.actions q' = QLearning_Strategist.actions q.
Proof.
  intros Hwf Hact.
  destruct (learn_result q s act reward ns Hwf Hact)
    as (d & old & dn & nm & Hd & Hk & Hold & Hdn & Hnm & Hlearn).
  eexists. split; [exact Hlearn|]. split.
  - intros s' a' Hne. unfold q_value at 1.
    cbn [QLearning_Strategist.q_table QLearning_Strategist.set_q_table].
    destruct (decide (s' = s)) as [->|Hs].
    + rewrite lookup_insert_eq. destruct Hne as [|Hne]; [done|].
      rewrite row_get_set_other by done. unfold q_value. by rewrite Hd.
    + by rewrite lookup_insert_ne.
  - unfold QLearning_Strategist.with_row.
    repeat destruct (_ !! _); done.
Qed.

Lemma X2_witness :
  ∃ q',
    QLearning_Strategist.learn 100 f1 f1 40 QLearning_Strategist.init
    = Return q' tt ∧
    (∀ s' a', s' ≠ 100 ∨ feq f1 a' = false →
       q_value q' s' a' =
       q_value (QLearning_Strategist.with_row 40
                  (QLearning_Strategist.with_row 100
                     QLearning_Strategist.init)) s' a') ∧
    QLearning_Strategist.alpha q'
    = QLearning_Strategist.alpha QLearning_Strategist.init ∧
    QLearning_Strategist.gamma q'
    = QLearning_Strategist.gamma QLearning_Strategist.init ∧
    QLearning_Strategist.epsilon q'
    = QLearning_Strategist.epsilon QLearning_Strategist.init ∧
    QLearning_Strategist.actions q'
    = QLearning_Strategist.actions QLearning_Strategist.init.
Proof.
  apply (X2_learn_frame QLearning_Strategist.init 100 f1 f1 40).
  - apply wf_rl_init.
  - apply f1_in_ACTIONS.
Defined.

(** X3. An action outside the action set: [learn] fails with [KeyError]
    when it reads the entry, after it has created the rows of the two
    bins; nothing else of the learner has changed. *)
Theorem X3_learn_unknown_action q s act reward ns :
  wf_rl q → Forall (λ k, feq k act = false) ACTIONS →
  QLearning_Strategist.learn s act reward ns q =
  Raise (QLearning_Strategist.with_row ns (QLearning_Strategist.with_row s q))
        KeyError.
Proof.
  intros Hwf Hact.
  pose proof (with_row_wf s q Hwf) as Hwf1.
  destruct (with_row_lookup s q Hwf) as (d & Hd0 & Hk).
  pose proof (with_row_keeps ns s _ d Hd0) as Hd.
  unfold QLearning_Strategist.learn.
  rewrite (bind_Return _ _ _ _ _ (ensure_row_Return s q)).
  rewrite (bind_Return _ _ _ _ _ (ensure_row_Return ns _)).
  rewrite (bind_Return _ _ _ _ _ (lookup_row_Return s _ d Hd)).
  assert (row_get d act = Err KeyError) as ->; [|done].
  destruct d as [|[k1 v1] [|[k2 v2] [|[k3 v3] [|]]]]; try done.
  injection Hk as -> -> ->. unfold ACTIONS in Hact.
  inversion Hact as [|? ? H1 Hact1]; subst.
  inversion Hact1 as [|? ? H2 Hact2]; subst.
  inversion Hact2 as [|? ? H3 _]; subst.
  cbn [row_get]. by rewrite H1, H2, H3.
Qed.

Lemma X3_witness :
  QLearning_Strategist.learn 100 f0_01 f1 40 QLearning_Strategist.init =
  Raise (QLearning_Strategist.with_row 40
           (QLearning_Strategist.with_row 100 QLearning_Strategist.init))
        KeyError.
Proof.
  apply (X3_learn_unknown_action QLearning_Strategist.init 100 f0_01 f1 40).
  - apply wf_rl_init.
  - repeat constructor.
Defined.

(** X5. Exploration leaves the learner alone: when the draw is below
    the exploration probability, [choose_action] returns an element of
    the action list and the learner is as before; no row is created for
    the bin, even when the bin is new.  With an empty action list it
    fails with [IndexError], the learner again as before. *)
Theorem X5_explore_leaves_table q g s :
  flt (Random.unit_float (Random.draws g (Random.cursor g)))
      (QLearning_Strategist.epsilon q) = true →
  match QLearning_Strategist.actions q with
  | [] =>
      ∃ g', QLearning_Strategist.choose_action s (q, g)
            = Raise (q, g') IndexError
  | _ :: _ =>
      ∃ a g',
        QLearning_Strategist.choose_action s (q, g) = Return (q, g') a ∧
        a ∈ QLearning_Strategist.actions q
  end.
Proof.
  intros Hr. rewrite (choose_action_explore _ _ _ Hr).
  destruct (QLearning_Strategist.actions q) as [|a0 acts] eqn:E;
    [by eexists|].
  unfold Random.choice.
  erewrite bind_Return; [|reflexivity].
  cbn [Random.draws Random.cursor].
  set (i := Z.to_nat _).
  assert (i < length (a0 :: acts))%nat as Hi.
  { subst i.
    pose proof (Z.mod_pos_bound (Random.draws g (S (Random.cursor g)))
                  (Z.of_nat (length (a0 :: acts)))) as Hb.
    cbn [length] in *. lia. }
  destruct (lookup_lt_is_Some_2 _ _ Hi) as [a Ha]. rewrite Ha.
  exists a. eexists. split; [done|].
  by apply list_elem_of_lookup_2 in Ha.
Qed.

Lemma X5_witness :
  ∃ a g',
    QLearning_Strategist.choose_action 40
      (QLearning_Strategist.init,
       {| Random.draws := λ _, 0; Random.cursor := 0 |})
    = Return (QLearning_Strategist.init, g') a ∧
    a ∈ QLearning_Strategist.actions QLearning_Strategist.init.
Proof.
  apply (X5_explore_leaves_table QLearning_Strategist.init
           {| Random.draws := λ _, 0; Random.cursor := 0 |} 40).
  reflexivity.
Defined.

(** The item [max] keeps has a value that no item of the list strictly
    exceeds. *)
Lemma foldl_better_maximal rest : ∀ best seen,
  best ∈ seen →
  Forall (λ kv, flt (snd best) (snd kv) = false) seen →
  foldl better best rest ∈ seen ++ rest ∧
  Forall (λ kv, flt (snd (foldl better best rest)) (snd kv) = false)
         (seen ++ rest).
Proof.
  induction rest as [|item rest IH]; intros best seen Hin Hall.
  - rewrite app_nil_r. by split.
  - cbn [foldl].
    replace (seen ++ item :: rest) with ((seen ++ [item]) ++ rest)
      by (by rewrite <- app_assoc).
    apply IH.
    + unfold better. destruct (flt _ _);
        rewrite elem_of_app, list_elem_of_singleton; auto.
    + unfold better. destruct (flt (snd best) (snd item)) eqn:E.
      * apply Forall_app. split.
        -- rewrite Forall_forall in Hall |- *. intros x Hx.
           specialize (Hall x Hx).
           destruct (flt (snd item) (snd x)) eqn:E2; [|done].
           by rewrite (flt_trans _ _ _ E E2) in Hall.
        -- constructor; [apply flt_irrefl|constructor].
      * apply Forall_app. split; [done|]. by repeat constructor.
Qed.

(** X6. Exploitation: when the draw is not below the exploration
    probability and the bin has a non-empty row, [choose_action]
    returns a key of that row whose value no value of the row strictly
    exceeds; it consumes one output and leaves the table as it is. *)
Theorem X6_greedy_is_maximal q g s (d : row) :
  flt (Random.unit_float (Random.draws g (Random.cursor g)))
      (QLearning_Strategist.epsilon q) = false →
  QLearning_Strategist.q_table q !! s = Some d → d ≠ [] →
  ∃ k v,
    QLearning_Strategist.choose_action s (q, g) = Return (q, advance 1 g) k ∧
    (k, v) ∈ d ∧
    Forall (λ kv, flt v (snd kv) = false) d.
Proof.
  intros Hr Hd Hne. rewrite (choose_action_greedy _ _ _ Hr).
  unfold QLearning_Strategist.greedy.
  rewrite (bind_Return _ _ _ _ _ (ensure_row_Return s q)).
  assert (QLearning_Strategist.with_row s q = q) as ->
    by (unfold QLearning_Strategist.with_row; by rewrite Hd).
  rewrite (bind_Return _ _ _ _ _ (lookup_row_Return s q _ Hd)).
  destruct d as [|item rest]; [done|].
  destruct (foldl_better_maximal rest item [item]) as [Hin Hmax].
  { apply list_elem_of_singleton. done. }
  { repeat constructor. apply flt_irrefl. }
  cbn [app] in Hin, Hmax. cbn [argmax lift ret].
  destruct (foldl better item rest) as [k v] eqn:E.
  exists k, v. by split.
Qed.

Lemma X6_witness :
  ∃ k v,
    QLearning_Strategist.choose_action 40
      (QLearning_Strategist.set_q_table
         (<[40 := [(f0_1, f0); (f1, f0_5); (f5, f0_1)]]> ∅)
         QLearning_Strategist.init, seeded_half)
    = Return (QLearning_Strategist.set_q_table
                (<[40 := [(f0_1, f0); (f1, f0_5); (f5, f0_1)]]> ∅)
                QLearning_Strategist.init, advance 1 seeded_half) k ∧
    (k, v) ∈ [(f0_1, f0); (f1, f0_5); (f5, f0_1)] ∧
    Forall (λ kv, flt v (snd kv) = false) [(f0_1, f0); (f1, f0_5); (f5, f0_1)].
Proof.
  apply (X6_greedy_is_maximal
           (QLearning_Strategist.set_q_table
              (<[40 := [(f0_1, f0); (f1, f0_5); (f5, f0_1)]]> ∅)
              QLearning_Strategist.init) seeded_half 40
           [(f0_1, f0); (f1, f0_5); (f5, f0_1)]).
  - reflexivity.
  - reflexivity.
  - discriminate.
Defined.

(** * More on the orchestrator *)

(** Once the bin has a row, [choose_action] leaves the learner as it
    is, however it ends. *)
Lemma choose_action_keeps_learner s q g :
  is_Some (QLearning_Strategist.q_table q !! s) →
  fst (final_state (QLearning_Strategist.choose_action s (q, g))) = q.
Proof.
  intros [d Hd].
  destruct (flt (Random.unit_float (Random.draws g (Random.cursor g)))
                (QLearning_Strategist.epsilon q)) eqn:Hr.
  - rewrite (choose_action_explore _ _ _ Hr). by destruct (Random.choice _ _).
  - rewrite (choose_action_greedy _ _ _ Hr).
    unfold QLearning_Strategist.greedy.
    rewrite (bind_Return _ _ _ _ _ (ensure_row_Return s q)).
    assert (QLearning_Strategist.with_row s q = q) as ->
      by (unfold QLearning_Strategist.with_row; by rewrite Hd).
    rewrite (bind_Return _ _ _ _ _ (lookup_row_Return s q _ Hd)).
    by destruct (argmax d).
Qed.

Lemma learn_dom q s act reward ns q' :
  wf_rl q → act ∈ ACTIONS →
  QLearning_Strategist.learn s act reward ns q = Return q' tt →
  dom (QLearning_Strategist.q_table q')
  = dom (QLearning_Strategist.q_table q) ∪ {[s]} ∪ {[ns]} ∧
  is_Some (QLearning_Strategist.q_table q' !! ns).
Proof.
  intros Hwf Hact Hlearn.
  destruct (learn_result q s act reward ns Hwf Hact)
    as (d & old & dn & nm & Hd & Hk & Hold & Hdn & Hnm & Heq).
  rewrite Heq in Hlearn. injection Hlearn as <-.
  cbn [QLearning_Strategist.q_table QLearning_Strategist.set_q_table].
  split.
  - rewrite dom_insert_L, !with_row_dom.
    apply set_eq. intros k.
    rewrite !elem_of_union, !elem_of_singleton. tauto.
  - destruct (decide (ns = s)) as [->|Hne].
    + rewrite lookup_insert_eq. by eexists.
    + rewrite lookup_insert_ne by done. by eexists.
Qed.

(** X4. The policy table only grows, and by the two bins of the cycle:
    after a cycle that ends normally its bins are the bins before the
    cycle, the bin credited (the stored one) and the bin of the current
    charge. *)
Theorem X4_table_after_cycle obs w v d soc cs :
  wf_brain (NAHEO_Brain_V2.brain w) →
  obs !! "V" = Some v → obs !! "Disturbance" = Some d →
  obs !! "SoC" = Some soc →
  QLearning_Strategist.get_state (as_float soc) = Ok cs →
  ∃ w' out,
    NAHEO_Brain_V2.run_cycle obs w = Return w' out ∧
    dom (QLearning_Strategist.q_table
           (NAHEO_Brain_V2.rl (NAHEO_Brain_V2.brain w')))
    = dom (QLearning_Strategist.q_table
             (NAHEO_Brain_V2.rl (NAHEO_Brain_V2.brain w)))
      ∪ {[NAHEO_Brain_V2.last_soc_state (NAHEO_Brain_V2.brain w)]}
      ∪ {[cs]}.
Proof.
  intros Hwf Hv Hd Hsoc Hcs.
  destruct (run_cycle_Return obs w v d soc cs Hwf Hv Hd Hsoc Hcs)
    as (gh' & i_est & reward & q1 & q2 & g' & act & mpc' & pwm
        & _ & Hlearn & Hch & _ & _ & _ & _ & Hrun).
  destruct Hwf as (Hq & _ & Hla).
  destruct (learn_dom _ _ _ _ _ _ Hq Hla Hlearn) as [Hdom Hrow].
  pose proof (choose_action_keeps_learner cs q1 (NAHEO_Brain_V2.rng w) Hrow)
    as Hkeep.
  rewrite Hch in Hkeep. cbn [final_state fst] in Hkeep. subst q2.
  eexists _, _. split; [exact Hrun|].
  cbn [NAHEO_Brain_V2.brain NAHEO_Brain_V2.rl]. exact Hdom.
Qed.

Lemma X4_witness :
  ∃ w' out,
    NAHEO_Brain_V2.run_cycle (observation f8_4 true f50) (fresh seeded_half)
    = Return w' out ∧
    dom (QLearning_Strategist.q_table
           (NAHEO_Brain_V2.rl (NAHEO_Brain_V2.brain w')))
    = dom (QLearning_Strategist.q_table
             (NAHEO_Brain_V2.rl (NAHEO_Brain_V2.brain (fresh seeded_half))))
      ∪ {[NAHEO_Brain_V2.last_soc_state
            (NAHEO_Brain_V2.brain (fresh seeded_half))]}
      ∪ {[40]}.
Proof.
  apply (X4_table_after_cycle (observation f8_4 true f50) (fresh seeded_half)
           (PyFloat f8_4) (PyBool true) (PyFloat f50) 40).
  - apply wf_brain_init.
  - reflexivity.
  - reflexivity.
  - reflexivity.
  - vm_compute. reflexivity.
Defined.

(** X7. The decision of a cycle: on a well-formed brain and an
    observation with the three fields and a charge that can be
    discretized, the cycle ends normally; the duty cycle lies in
    [[0.1, 1.0]] and is the one the controller has stored, the power
    mode is "HIGH" or "LOW", the current estimate is at least 0 and is
    the one the estimator has stored, and the brain is again well formed
    with a feasible belief. *)
Theorem X7_cycle_decision_contract obs w v d soc cs :
  wf_brain (NAHEO_Brain_V2.brain w) →
  obs !! "V" = Some v → obs !! "Disturbance" = Some d →
  obs !! "SoC" = Some soc →
  QLearning_Strategist.get_state (as_float soc) = Ok cs →
  ∃ w' pwm mode i_est,
    NAHEO_Brain_V2.run_cycle obs w = Return w' (pwm, mode, i_est) ∧
    duty_ok pwm = true ∧ (mode = "HIGH" ∨ mode = "LOW") ∧
    fle f0 i_est = true ∧
    TrueMPC_Reactor.u (NAHEO_Brain_V2.mpc (NAHEO_Brain_V2.brain w')) = pwm ∧
    fst (EKF_GhostSensor.x (NAHEO_Brain_V2.ghost (NAHEO_Brain_V2.brain w')))
    = i_est ∧
    feasible (NAHEO_Brain_V2.ghost (NAHEO_Brain_V2.brain w')) = true ∧
    wf_brain (NAHEO_Brain_V2.brain w').
Proof.
  intros Hwf Hv Hd Hsoc Hcs.
  destruct (run_cycle_Return obs w v d soc cs Hwf Hv Hd Hsoc Hcs)
    as (gh' & i_est & reward & q1 & q2 & g' & act & mpc' & pwm
        & Hup & _ & _ & Hact & Hcomp & Hduty & Hwf' & Hrun).
  rewrite update_Return in Hup. injection Hup as <- <-.
  destruct (compute_Return (NAHEO_Brain_V2.mpc (NAHEO_Brain_V2.brain w))
              (fdiv (if is_true d then f8_4 else f7_5) f8_4)
              (fdiv (as_float v) f8_4) (if is_true d then f0_01 else act))
    as (r & Hr & _).
  { apply Hwf. }
  { destruct (is_true d); [done|]. by apply ACTIONS_nonneg. }
  rewrite Hr in Hcomp. injection Hcomp as <- <-.
  eexists _, _, _, _. split; [exact Hrun|].
  cbn [NAHEO_Brain_V2.brain NAHEO_Brain_V2.mpc NAHEO_Brain_V2.ghost
       TrueMPC_Reactor.u EKF_GhostSensor.x fst].
  split; [done|]. split; [destruct (is_true d); auto|].
  split; [by apply py_max_lower|]. split; [done|]. split; [done|].
  split; [|done]. unfold feasible. cbn [EKF_GhostSensor.x fst snd].
  by rewrite !py_max_lower.
Qed.

Lemma X7_witness :
  ∃ w' pwm mode i_est,
    NAHEO_Brain_V2.run_cycle (observation f7_5 false f50) (fresh seeded_half)
    = Return w' (pwm, mode, i_est) ∧
    duty_ok pwm = true ∧ (mode = "HIGH" ∨ mode = "LOW") ∧
    fle f0 i_est = true ∧
    TrueMPC_Reactor.u (NAHEO_Brain_V2.mpc (NAHEO_Brain_V2.brain w')) = pwm ∧
    fst (EKF_GhostSensor.x (NAHEO_Brain_V2.ghost (NAHEO_Brain_V2.brain w')))
    = i_est ∧
    feasible (NAHEO_Brain_V2.ghost (NAHEO_Brain_V2.brain w')) = true ∧
    wf_brain (NAHEO_Brain_V2.brain w').
Proof.
  apply (X7_cycle_decision_contract (observation f7_5 false f50)
           (fresh seeded_half) (PyFloat f7_5) (PyBool false) (PyFloat f50) 40).
  - apply wf_brain_init.
  - reflexivity.
  - reflexivity.
  - reflexivity.
  - vm_compute. reflexivity.
Defined.

(** X8. The power mode follows the disturbance flag alone: a cycle that
    ends normally returns "HIGH" when the flag is true and "LOW" when it
    is not, whatever the duty cycle does. *)
Theorem X8_mode_follows_flag obs w v d soc cs :
  wf_brain (NAHEO_Brain_V2.brain w) →
  obs !! "V" = Some v → obs !! "Disturbance" = Some d →
  obs !! "SoC" = Some soc →
  QLearning_Strategist.get_state (as_float soc) = Ok cs →
  ∃ w' pwm i_est,
    NAHEO_Brain_V2.run_cycle obs w
    = Return w' (pwm, if is_true d then "HIGH" else "LOW", i_est).
Proof.
  intros Hwf Hv Hd Hsoc Hcs.
  destruct (run_cycle_Return obs w v d soc cs Hwf Hv Hd Hsoc Hcs)
    as (? & i_est & ? & ? & ? & ? & ? & ? & pwm
        & _ & _ & _ & _ & _ & _ & _ & Hrun).
  by eexists _, pwm, i_est.
Qed.

Lemma X8_witness :
  ∃ w' pwm i_est,
    NAHEO_Brain_V2.run_cycle (observation f7_5 false f50) (fresh seeded_half)
    = Return w' (pwm, "LOW", i_est).
Proof.
  apply (X8_mode_follows_flag (observation f7_5 false f50)
           (fresh seeded_half) (PyFloat f7_5) (PyBool false) (PyFloat f50) 40).
  - apply wf_brain_init.
  - reflexivity.
  - reflexivity.
  - reflexivity.
  - vm_compute. reflexivity.
Defined.

(** X9. A charge that cannot be discretized (NaN or infinite): the
    cycle fails with the exception of [int], after the estimator has
    been updated with the observation and before anything else is
    touched: the learner, the controller, the stored bin and action and
    the generator are as before, the estimator is the updated one. *)
Theorem X9_bad_charge_updates_estimator obs w v d soc e :
  obs !! "V" = Some v → obs !! "Disturbance" = Some d →
  obs !! "SoC" = Some soc →
  QLearning_Strategist.get_state (as_float soc) = Err e →
  ∃ ghost' i_est,
    EKF_GhostSensor.update (as_float v)
      (fadd f6 (fmul f2_4 (fdiv (as_float soc) f100)))
      (NAHEO_Brain_V2.ghost (NAHEO_Brain_V2.brain w))
    = Return ghost' i_est ∧
    NAHEO_Brain_V2.run_cycle obs w
    = Raise (NAHEO_Brain_V2.set_ghost ghost' w) e.
Proof.
  intros Hv Hd Hsoc Hcs.
  pose proof (update_Return (NAHEO_Brain_V2.ghost (NAHEO_Brain_V2.brain w))
    (as_float v) (fadd f6 (fmul f2_4 (fdiv (as_float soc) f100)))) as Hup.
  eexists _, _. split; [exact Hup|].
  unfold NAHEO_Brain_V2.run_cycle, item. rewrite Hv, Hd, Hsoc. cbn [lift].
  do 3 (unfold ret at 1; unfold bind at 1).
  change (py_truediv (as_float soc) f100) with (Ok (fdiv (as_float soc) f100)).
  cbn [lift]. unfold ret at 1. unfold bind at 1.
  unfold NAHEO_Brain_V2.on_ghost.
  erewrite bind_Return; [|by apply zoom_Return].
  rewrite Hcs. reflexivity.
Qed.

Lemma X9_witness :
  ∃ ghost' i_est,
    EKF_GhostSensor.update f7_5
      (fadd f6 (fmul f2_4 (fdiv S754_nan f100))) EKF_GhostSensor.init
    = Return ghost' i_est ∧
    NAHEO_Brain_V2.run_cycle (observation f7_5 false S754_nan)
      (fresh seeded_half)
    = Raise (NAHEO_Brain_V2.set_ghost ghost' (fresh seeded_half)) ValueError.
Proof.
  apply (X9_bad_charge_updates_estimator (observation f7_5 false S754_nan)
           (fresh seeded_half) (PyFloat f7_5) (PyBool false)
           (PyFloat S754_nan) ValueError).
  - reflexivity.
  - reflexivity.
  - reflexivity.
  - vm_compute. reflexivity.
Defined.

(** The estimator of the cycle above is not the one the brain was
    constructed with: its covariance has grown by the process noise. *)
Example bad_charge_changes_covariance :
  EKF_GhostSensor.P
    (NAHEO_Brain_V2.ghost
       (NAHEO_Brain_V2.brain
          (final_state
             (NAHEO_Brain_V2.run_cycle (observation f7_5 false S754_nan)
                (fresh seeded_half)))))
  ≠ EKF_GhostSensor.P EKF_GhostSensor.init.
Proof. vm_compute. discriminate. Qed.

(** X10. A run over observations that all have the three fields and a
    charge that can be discretized, from a well-formed brain: no cycle
    raises, there is one decision per observation, every duty cycle lies
    in [[0.1, 1.0]], every current estimate is at least 0, and the brain
    is well formed at the end. *)
Theorem X10_run_never_raises obs : ∀ w,
  wf_brain (NAHEO_Brain_V2.brain w) → Forall processable obs →
  ∃ ds w',
    NAHEO_Brain_V2.run obs w = (ds, None, w') ∧
    length ds = length obs ∧
    Forall (λ dec : float * string * float,
              duty_ok (fst (fst dec)) = true ∧ fle f0 (snd dec) = true) ds ∧
    wf_brain (NAHEO_Brain_V2.brain w').
Proof.
  induction obs as [|o obs IH]; intros w Hwf Hall.
  - by exists [], w.
  - inversion Hall as [|? ? (v & d & soc & cs & Hv & Hd & Hsoc & Hcs) Hall'];
      subst.
    destruct (run_cycle_Return o w v d soc cs Hwf Hv Hd Hsoc Hcs)
      as (gh' & i_est & reward & q1 & q2 & g' & act & mpc' & pwm
          & Hup & _ & _ & _ & _ & Hduty & Hwf1 & Hrun).
    rewrite update_Return in Hup. injection Hup as _ <-.
    destruct (IH {| NAHEO_Brain_V2.brain := _; NAHEO_Brain_V2.rng := g' |}
                Hwf1 Hall') as (ds & w' & Hrest & Hlen & Hds & Hwf').
    eexists (_ :: ds), w'.
    cbn [NAHEO_Brain_V2.run]. rewrite Hrun, Hrest.
    split; [done|]. split; [cbn [length]; by rewrite Hlen|].
    split; [|done]. constructor; [|done]. cbn [fst snd].
    split; [done|]. by apply py_max_lower.
Qed.

Lemma X10_witness :
  ∃ ds w',
    NAHEO_Brain_V2.run
      [observation f8_4 false f100; observation f7_5 true f50]
      (fresh seeded_half) = (ds, None, w') ∧
    length ds
    = length [observation f8_4 false f100; observation f7_5 true f50] ∧
    Forall (λ dec : float * string * float,
              duty_ok (fst (fst dec)) = true ∧ fle f0 (snd dec) = true) ds ∧
    wf_brain (NAHEO_Brain_V2.brain w').
Proof.
  apply (X10_run_never_raises
           [observation f8_4 false f100; observation f7_5 true f50]
           (fresh seeded_half)).
  - apply wf_brain_init.
  - constructor; [|constructor; [|constructor]].
    + exists (PyFloat f8_4), (PyBool false), (PyFloat f100), 100.
      repeat split.
    + exists (PyFloat f7_5), (PyBool true), (PyFloat f50), 40.
      repeat split.
Defined.

Example run_simulation_adaptive_3 :
  match SimulationEngine.run_simulation engine3 [true; false; true] false
          (Adaptive adaptive0) with
  | Return _ r =>
      (SimulationEngine.requests_served r, SimulationEngine.requests_missed r,
       SimulationEngine.service_quality r,
       SimulationEngine.energy_consumed r)
  | Raise _ _ => (0, 0, f0, IntN 0)
  end = (2, 0, f1, FloatN (of_Z 32)).
Proof. vm_compute. reflexivity. Qed.

Example int_truediv_values :
  int_truediv 1 10 = Ok f0_1 ∧ int_truediv 7 10 = Ok f0_7 ∧
  int_truediv 1 0 = Err ZeroDivisionError ∧
  int_truediv (2 ^ 1100) 1 = Err OverflowError ∧
  int_truediv (2 ^ 54 + 1) 1 = Ok (of_Z (2 ^ 54)).
Proof. repeat split; vm_compute; reflexivity. Qed.

Example periodic_values :
  UserBehaviorGenerator._generate_periodic_pattern 4 3
  = Ok [true; true; true; true] ∧
  UserBehaviorGenerator._generate_periodic_pattern 3 0
  = Err ZeroDivisionError ∧
  UserBehaviorGenerator._generate_periodic_pattern (-2) 0 = Ok [].
Proof. repeat split. Qed.

(** * Facts for the harness *)

(** A mantissa that is already of the right width is kept by the
    rounding. *)
Lemma binary_round_aux_canonical sx m e :
  fexp prec emax (Zpos (digits2_pos m) + e) = e → e ≤ emax - prec →
  binary_round_aux prec emax sx (Zpos m) e loc_Exact = S754_finite sx m e.
Proof.
  intros Hc He. unfold binary_round_aux, shr_fexp. cbn [Zdigits2].
  rewrite Hc, Z.sub_diag. cbn [shr shr_record_of_loc loc_of_shr_record
    shr_m round_nearest_even Zdigits2].
  rewrite Hc, Z.sub_diag. cbn [shr shr_record_of_loc shr_m].
  by rewrite (proj2 (Z.leb_le _ _) He).
Qed.

Lemma digits2_upper p k : 0 ≤ k → Zpos p < 2 ^ k → Zpos (digits2_pos p) ≤ k.
Proof.
  intros Hk Hp. rewrite digits2_log2.
  assert (Z.log2 (Zpos p) < k); [|lia]. apply Z.log2_lt_pow2; lia.
Qed.

(** Converting a natural number below [2^53] never overflows. *)
Lemma int_to_float_small t :
  0 ≤ t < 2 ^ 53 → ∃ x, int_to_float t = Ok x.
Proof.
  intros Ht. unfold int_to_float, of_Z.
  destruct t as [|p|p]; [by eexists|  |lia].
  assert (Zpos (digits2_pos p) ≤ 53) as Hd by (apply digits2_upper; lia).
  unfold binary_normalize, binary_round, shl_align.
  assert (fexp prec emax (Zpos (digits2_pos p) + 0)
          = Zpos (digits2_pos p) - 53) as Hf.
  { unfold fexp, SpecFloat.emin, prec, emax. lia. }
  rewrite Hf.
  destruct (Zpos (digits2_pos p) - 53 - 0) as [|q|q] eqn:E.
  - rewrite binary_round_aux_canonical; [by eexists| |unfold emax, prec; lia].
    unfold fexp, SpecFloat.emin, prec, emax. lia.
  - lia.
  - rewrite binary_round_aux_canonical; [by eexists| |unfold emax, prec; lia].
    rewrite digits2_iter_xO. unfold fexp, SpecFloat.emin, prec, emax. lia.
Qed.

Lemma time_of_day_small time_step t :
  0 ≤ t < 2 ^ 53 → ∃ tod, time_of_day time_step t = Ok tod.
Proof.
  intros Ht. unfold time_of_day.
  destruct (int_to_float_small t Ht) as [tf ->].
  unfold py_float_mod. change (feq f86400 f0) with false. by eexists.
Qed.

(** The quotients [_predict_activity] forms never fail. *)
Lemma int_truediv_small a b :
  0 ≤ a ≤ 10 → 1 ≤ b ≤ 10 → ∃ q, int_truediv a b = Ok q.
Proof.
  intros Ha Hb.
  assert (a = 0 ∨ a = 1 ∨ a = 2 ∨ a = 3 ∨ a = 4 ∨ a = 5 ∨ a = 6 ∨ a = 7
          ∨ a = 8 ∨ a = 9 ∨ a = 10) as Ha' by lia.
  assert (b = 1 ∨ b = 2 ∨ b = 3 ∨ b = 4 ∨ b = 5 ∨ b = 6 ∨ b = 7
          ∨ b = 8 ∨ b = 9 ∨ b = 10) as Hb' by lia.
  clear Ha Hb.
  repeat (destruct Ha' as [->|Ha']); try subst a;
    repeat (destruct Hb' as [->|Hb']); try subst b;
    eexists; vm_compute; reflexivity.
Qed.

Lemma py_sum_bits_from (l : list Z) : ∀ acc,
  Forall (λ r, r = 0 ∨ r = 1) l →
  acc ≤ foldl Z.add acc l ≤ acc + Z.of_nat (length l).
Proof.
  induction l as [|r l IH]; intros acc Hall; cbn [foldl length]; [lia|].
  inversion Hall as [|? ? Hr Hl]; subst.
  specialize (IH (acc + r) Hl). lia.
Qed.

Lemma recent_rate_small (l : list Z) :
  Forall (λ r, r = 0 ∨ r = 1) l → l ≠ [] →
  ∃ q, int_truediv (NAHEOAdaptiveAlgorithm.py_sum
                      (NAHEOAdaptiveAlgorithm.last_ten l))
         (Z.min 10 (Z.of_nat (length l))) = Ok q.
Proof.
  intros Hall Hne.
  assert (Forall (λ r, r = 0 ∨ r = 1) (NAHEOAdaptiveAlgorithm.last_ten l))
    as Hten by (by apply Forall_drop).
  pose proof (py_sum_bits_from _ 0 Hten) as Hsum.
  assert (length (NAHEOAdaptiveAlgorithm.last_ten l) ≤ 10)%nat as Hlen.
  { unfold NAHEOAdaptiveAlgorithm.last_ten. rewrite length_drop. lia. }
  apply int_truediv_small.
  - unfold NAHEOAdaptiveAlgorithm.py_sum. lia.
  - destruct l; [done|]. cbn [length]. lia.
Qed.

Lemma round_nearest_even_le m l : round_nearest_even m l ≤ m + 1.
Proof. destruct l as [|[]]; simpl; try lia. destruct (Z.even m); lia. Qed.

Lemma Zdigits2_upper m k : 0 ≤ k → 0 ≤ m < 2 ^ k → Zdigits2 m ≤ k.
Proof.
  intros Hk Hm. destruct m as [|p|p]; cbn [Zdigits2]; [done| |lia].
  apply digits2_upper; lia.
Qed.

Lemma Zdigits2_lower m : 0 < m → 2 ^ (Zdigits2 m - 1) ≤ m.
Proof.
  destruct m as [|p|p]; [lia| |lia]. intros _. apply digits2_lower.
Qed.

Lemma Zdigits2_nonneg m : 0 ≤ Zdigits2 m.
Proof. destruct m; cbn [Zdigits2]; lia. Qed.

(** A mantissa whose value is below [2^1023] is never rounded to an
    infinity. *)
Lemma binary_round_aux_no_overflow sx m e l :
  0 ≤ m → Zdigits2 m + e ≤ 1023 → e ≤ 971 →
  is_inf (binary_round_aux prec emax sx m e l) = false.
Proof.
  intros Hm Hd He. unfold binary_round_aux, shr_fexp.
  set (d := Zdigits2 m) in *.
  pose proof (Zdigits2_nonneg m) as Hd0. fold d in Hd0.
  set (n1 := fexp prec emax (d + e) - e).
  destruct (shr_spec m l e n1 Hm) as [Hm1 He1].
  destruct (shr (shr_record_of_loc m l) e n1) as [mrs' e'].
  cbn [fst snd] in Hm1, He1.
  set (k := Z.max 0 n1) in *.
  assert (0 ≤ shr_m mrs') as Hpos1 by (rewrite Hm1; apply Z.div_pos; lia).
  assert (Zdigits2 (shr_m mrs') + e' ≤ 1023 ∧ e' ≤ 971) as [Hd1 He1'].
  { assert (e' ≤ 971) as Hle.
    { subst e' k n1. unfold fexp, SpecFloat.emin, prec, emax. lia. }
    split; [|done].
    destruct (Z.eq_dec m 0) as [->|Hne].
    { rewrite Hm1. rewrite Z.div_0_l by lia. cbn [Zdigits2]. lia. }
    pose proof (Zdigits2_lower m ltac:(lia)) as Hlow. fold d in Hlow.
    assert (m < 2 ^ d) as Hup.
    { destruct m as [|p|p]; [lia| |lia]. subst d. cbn [Zdigits2].
      rewrite digits2_log2. apply Z.log2_spec. lia. }
    destruct (Z_le_gt_dec k d) as [Hkd|Hkd].
    - assert (Zdigits2 (shr_m mrs') ≤ d - k); [|lia].
      apply Zdigits2_upper; [lia|]. split; [done|]. rewrite Hm1.
      apply Z.div_lt_upper_bound; [lia|].
      rewrite <- Z.pow_add_r by lia. by replace (k + (d - k)) with d by lia.
    - assert (shr_m mrs' = 0) as ->.
      { rewrite Hm1. apply Z.div_small. split; [done|].
        assert (2 ^ d ≤ 2 ^ k) by (apply Z.pow_le_mono_r; lia). lia. }
      cbn [Zdigits2]. lia. }
  set (m1 := round_nearest_even (shr_m mrs') (loc_of_shr_record mrs')).
  pose proof (round_nearest_even_le (shr_m mrs') (loc_of_shr_record mrs')) as Hr1.
  pose proof (round_nearest_even_ge (shr_m mrs') (loc_of_shr_record mrs')) as Hr2.
  fold m1 in Hr1, Hr2.
  assert (Zdigits2 m1 ≤ Zdigits2 (shr_m mrs') + 1) as Hdm1.
  { apply Zdigits2_upper; [pose proof (Zdigits2_nonneg (shr_m mrs')); lia|].
    split; [lia|].
    destruct (Z.eq_dec (shr_m mrs') 0) as [E|Hne].
    { rewrite E in *. cbn [Zdigits2]. change (2 ^ (0 + 1)) with 2. lia. }
    assert (shr_m mrs' < 2 ^ Zdigits2 (shr_m mrs')) as Hup.
    { destruct (shr_m mrs') as [|p|p]; [lia| |lia]. cbn [Zdigits2].
      rewrite digits2_log2. apply Z.log2_spec. lia. }
    rewrite Z.pow_add_r by (pose proof (Zdigits2_nonneg (shr_m mrs')); lia).
    lia. }
  set (n2 := fexp prec emax (Zdigits2 m1 + e') - e').
  destruct (shr_spec m1 loc_Exact e' n2 ltac:(lia)) as [Hm2 He2].
  destruct (shr (shr_record_of_loc m1 loc_Exact) e' n2) as [mrs'' e''].
  cbn [fst snd] in Hm2, He2.
  destruct (shr_m mrs'') as [|q|q]; [done| |done].
  assert (e'' ≤ 971) as Hfin.
  { subst e'' n2. unfold fexp, SpecFloat.emin, prec, emax. lia. }
  destruct (Z.leb_spec e'' (emax - prec)) as [|Hgt]; [done|].
  unfold emax, prec in Hgt. lia.
Qed.

(** The quotient of two integers [0 ≤ a ≤ b], [0 < b], is a float. *)
Lemma int_truediv_fraction a b :
  0 ≤ a ≤ b → 0 < b → ∃ q, int_truediv a b = Ok q.
Proof.
  intros Ha Hb. unfold int_truediv.
  rewrite (proj2 (Z.eqb_neq b 0)) by lia.
  destruct b as [|pb|pb]; [lia| |lia].
  destruct a as [|pa|pa]; [by eexists| |lia].
  cbn [int_as_operand]. unfold fdiv, SFdiv. cbn [xorb].
  unfold SFdiv_core_binary.
  set (d1 := Zdigits2 (Zpos pa)). set (d2 := Zdigits2 (Zpos pb)).
  set (e' := Z.min (fexp prec emax (d1 + 0 - (d2 + 0))) (0 - 0)).
  assert (e' ≤ 0) as He' by (subst e'; lia).
  set (s := 0 - 0 - e').
  assert (s = - e') as Hs by (subst s; lia).
  set (m' := match s with
             | 0 => Zpos pa | Zpos _ => Z.shiftl (Zpos pa) s | Zneg _ => 0
             end).
  assert (m' = Zpos pa * 2 ^ s) as Hm'.
  { subst m'. destruct s as [|p|p] eqn:Es; [lia| |lia].
    rewrite Z.shiftl_mul_pow2; lia. }
  pose proof (Z.div_eucl_eq m' (Zpos pb) ltac:(lia)) as Hdiv.
  pose proof (Z.mod_pos_bound m' (Zpos pb) ltac:(lia)) as Hmod.
  unfold Z.modulo in Hmod.
  destruct (Z.div_eucl m' (Zpos pb)) as [q r].
  assert (0 ≤ 2 ^ s) by (apply Z.pow_nonneg; lia).
  assert (0 ≤ q ≤ 2 ^ s) as Hq by nia.
  assert (is_inf (binary_round_aux prec emax false q e'
                    (new_location (Zpos pb) r)) = false) as ->;
    [|by eexists].
  apply binary_round_aux_no_overflow; [lia| |lia].
  assert (Zdigits2 q ≤ s + 1); [|lia].
  apply Zdigits2_upper; [lia|]. rewrite Z.pow_add_r by lia. lia.
Qed.
(** * Exact arithmetic on the counters of the harness

    The times of an algorithm are floats that only ever hold natural
    numbers; below [2^53] their sums are exact. *)

Lemma shr_1_even x :
  0 ≤ x →
  shr_1 {| shr_m := 2 * x; shr_r := false; shr_s := false |}
  = {| shr_m := x; shr_r := false; shr_s := false |}.
Proof. destruct x as [|p|p]; [done|done|lia]. Qed.

(** Shifting out zeros loses nothing. *)
Lemma iter_shr_1_exact n : ∀ x,
  0 ≤ x →
  SpecFloat.iter_pos shr_1 n
    {| shr_m := x * 2 ^ Zpos n; shr_r := false; shr_s := false |}
  = {| shr_m := x; shr_r := false; shr_s := false |}.
Proof.
  induction n as [n IH|n IH|]; intros x Hx; cbn [SpecFloat.iter_pos].
  - replace (x * 2 ^ Zpos (n~1)) with (2 * (x * 2 ^ Zpos n * 2 ^ Zpos n)).
    + assert (0 ≤ x * 2 ^ Zpos n) by (apply Z.mul_nonneg_nonneg; lia).
      rewrite shr_1_even by (apply Z.mul_nonneg_nonneg; lia).
      by rewrite IH, IH.
    + assert (Zpos (n~1) = Zpos n + Zpos n + 1) as -> by lia.
      rewrite !Z.pow_add_r by lia. change (2 ^ 1) with 2. lia.
  - replace (x * 2 ^ Zpos (n~0)) with (x * 2 ^ Zpos n * 2 ^ Zpos n).
    + assert (0 ≤ x * 2 ^ Zpos n) by (apply Z.mul_nonneg_nonneg; lia).
      by rewrite IH, IH.
    + assert (Zpos (n~0) = Zpos n + Zpos n) as -> by lia.
      rewrite !Z.pow_add_r by lia. lia.
  - change (2 ^ 1) with 2. rewrite Z.mul_comm. by apply shr_1_even.
Qed.

Lemma Zpos_iter_xO p n : Zpos (Pos.iter xO p n) = Zpos p * 2 ^ Zpos n.
Proof.
  induction n as [|n IH] using Pos.peano_ind; [simpl; lia|].
  rewrite Pos.iter_succ, Pos2Z.inj_succ, Z.pow_succ_r by lia.
  rewrite Pos2Z.inj_xO, IH. lia.
Qed.

Lemma digits2_mul_pow2 c n mx :
  0 ≤ n → Zpos mx = Zpos c * 2 ^ n →
  Zpos (digits2_pos mx) = Zpos (digits2_pos c) + n.
Proof.
  intros Hn Hmx. rewrite !digits2_log2, Hmx.
  rewrite Z.log2_mul_pow2 by lia. lia.
Qed.

(** Rounding a mantissa that is, once aligned, of 53 digits. *)
Lemma binary_round_exact sx mx ex c E :
  E = Zpos (digits2_pos mx) + ex - 53 → -1074 ≤ E ≤ 971 →
  Zpos (digits2_pos c) = 53 →
  (E ≤ ex ∧ Zpos c = Zpos mx * 2 ^ (ex - E))
  ∨ (ex ≤ E ∧ Zpos mx = Zpos c * 2 ^ (E - ex)) →
  binary_round prec emax sx mx ex = S754_finite sx c E.
Proof.
  intros HE Hb Hc Hv. unfold binary_round, shl_align.
  assert (fexp prec emax (Zpos (digits2_pos mx) + ex) = E) as HfE
    by (unfold fexp, SpecFloat.emin, prec, emax; lia).
  assert (fexp prec emax (Zpos (digits2_pos c) + E) = E) as Hfc
    by (unfold fexp, SpecFloat.emin, prec, emax; lia).
  rewrite HfE.
  destruct (E - ex) as [|n|n] eqn:En.
  - assert (ex = E) as -> by lia.
    assert (mx = c) as ->.
    { rewrite Z.sub_diag in Hv. change (2 ^ 0) with 1 in Hv.
      destruct Hv as [[_ Hv]|[_ Hv]]; lia. }
    apply binary_round_aux_canonical; [done|unfold emax, prec; lia].
  - destruct Hv as [[Hle _]|[_ Hv]]; [lia|].
    replace (E - ex) with (Zpos n) in Hv by lia.
    unfold binary_round_aux, shr_fexp. cbn [Zdigits2].
    rewrite HfE, En. cbn [shr shr_record_of_loc]. rewrite Hv.
    rewrite iter_shr_1_exact by lia.
    cbn [shr_m loc_of_shr_record round_nearest_even Zdigits2].
    replace (ex + Zpos n) with E by lia.
    rewrite Hfc, Z.sub_diag. cbn [shr shr_record_of_loc shr_m].
    assert ((E <=? emax - prec) = true) as ->
      by (apply Z.leb_le; unfold emax, prec; lia).
    done.
  - destruct Hv as [[_ Hv]|[Hle _]]; [|lia].
    replace (ex - E) with (Zpos n) in Hv by lia.
    assert (Pos.iter xO mx n = c) as ->.
    { apply Pos2Z.inj. by rewrite Zpos_iter_xO. }
    apply binary_round_aux_canonical; [done|unfold emax, prec; lia].
Qed.

(** The float of a positive integer below [2^53]. *)
Lemma of_Z_pos p :
  Zpos p < 2 ^ 53 →
  ∃ c, of_Z (Zpos p) = S754_finite false c (Zpos (digits2_pos p) - 53) ∧
       Zpos c = Zpos p * 2 ^ (53 - Zpos (digits2_pos p)) ∧
       Zpos (digits2_pos c) = 53.
Proof.
  intros Hp.
  assert (Zpos (digits2_pos p) ≤ 53) as Hd by (apply digits2_upper; lia).
  set (d := Zpos (digits2_pos p)) in *.
  assert (0 < 2 ^ (53 - d)) as Hpow by (apply Z.pow_pos_nonneg; lia).
  destruct (Zpos p * 2 ^ (53 - d)) as [|c|c] eqn:Ec; [lia| |lia].
  assert (Zpos (digits2_pos c) = 53) as Hc.
  { rewrite (digits2_mul_pow2 p (53 - d) c) by (done || lia). fold d. lia. }
  exists c. split; [|done].
  unfold of_Z, binary_normalize.
  apply binary_round_exact; [fold d; lia|lia|done|].
  left. split; [lia|]. rewrite <- Ec. f_equal. f_equal. lia.
Qed.

Lemma shl_align_value c E ez :
  ez ≤ E → Zpos (fst (shl_align c E ez)) = Zpos c * 2 ^ (E - ez).
Proof.
  intros Hle. unfold shl_align.
  destruct (ez - E) as [|n|n] eqn:En; cbn [fst].
  - replace (E - ez) with 0 by lia. change (2 ^ 0) with 1. lia.
  - lia.
  - rewrite Zpos_iter_xO. f_equal. f_equal. lia.
Qed.

(** Adding two natural numbers whose sum is below [2^53] is exact. *)
Lemma fadd_of_Z a b :
  0 ≤ a → 0 ≤ b → a + b < 2 ^ 53 → fadd (of_Z a) (of_Z b) = of_Z (a + b).
Proof.
  intros Ha Hb Hsum.
  destruct a as [|pa|pa]; [|  |lia].
  { destruct b as [|pb|pb]; [done| |lia]. rewrite Z.add_0_l.
    destruct (of_Z_pos pb ltac:(lia)) as (c & -> & _). done. }
  destruct b as [|pb|pb]; [|  |lia].
  { rewrite Z.add_0_r. destruct (of_Z_pos pa ltac:(lia)) as (c & -> & _).
    done. }
  destruct (of_Z_pos pa ltac:(lia)) as (ca & -> & Hca & Hda).
  destruct (of_Z_pos pb ltac:(lia)) as (cb & -> & Hcb & Hdb).
  change (Zpos pa + Zpos pb) with (Zpos (pa + pb)) in *.
  destruct (of_Z_pos (pa + pb) Hsum) as (cs & -> & Hcs & Hds).
  set (da := Zpos (digits2_pos pa)) in *.
  set (db := Zpos (digits2_pos pb)) in *.
  set (ds := Zpos (digits2_pos (pa + pb))) in *.
  assert (1 ≤ da ∧ 1 ≤ db) as [Hda1 Hdb1] by (subst da db; lia).
  assert (da ≤ ds ∧ db ≤ ds) as [Has Hbs]
    by (subst da db ds; split; apply digits2_mono; lia).
  assert (ds ≤ 53) as Hs53 by (subst ds; apply digits2_upper; lia).
  unfold fadd, SFadd. cbn [cond_Zopp].
  set (ez := Z.min (da - 53) (db - 53)).
  rewrite !shl_align_value by (subst ez; lia).
  rewrite Hca, Hcb.
  assert (Zpos pa * 2 ^ (53 - da) * 2 ^ (da - 53 - ez)
          + Zpos pb * 2 ^ (53 - db) * 2 ^ (db - 53 - ez)
          = Zpos (pa + pb) * 2 ^ (- ez)) as ->.
  { rewrite <- !Z.mul_assoc, <- !Z.pow_add_r by (subst ez; lia).
    replace (53 - da + (da - 53 - ez)) with (- ez) by lia.
    replace (53 - db + (db - 53 - ez)) with (- ez) by lia. lia. }
  assert (0 < 2 ^ (- ez)) as Hpow
    by (apply Z.pow_pos_nonneg; subst ez; lia).
  destruct (Zpos (pa + pb) * 2 ^ (- ez)) as [|mx|mx] eqn:Emx; [lia| |lia].
  unfold binary_normalize.
  pose proof (digits2_mul_pow2 (pa + pb) (- ez) mx
                ltac:(subst ez; lia) (eq_sym Emx)) as Hdm.
  fold ds in Hdm.
  apply binary_round_exact; [lia|lia|done|].
  right. split; [subst ez; lia|].
  rewrite <- Emx, Hcs, <- Z.mul_assoc, <- Z.pow_add_r by (subst ez; lia).
  f_equal. f_equal. lia.
Qed.

(** An integer divided by itself is exactly 1. *)
Lemma int_truediv_self n : 0 < n → int_truediv n n = Ok f1.
Proof.
  intros Hn. unfold int_truediv.
  rewrite (proj2 (Z.eqb_neq n 0)) by lia.
  destruct n as [|p|p]; [lia| |lia]. cbn [int_as_operand].
  unfold fdiv, SFdiv, SFdiv_core_binary. cbn [xorb].
  rewrite Z.sub_diag.
  replace (Zdigits2 (Zpos p) + 0 - (Zdigits2 (Zpos p) + 0)) with 0 by lia.
  change (Z.min (fexp prec emax 0) 0) with (-53).
  change (0 - -53) with 53.
  rewrite Z.shiftl_mul_pow2 by lia.
  assert (Z.div_eucl (Zpos p * 2 ^ 53) (Zpos p) = (2 ^ 53, 0)) as ->.
  { pose proof (Z.div_eucl_eq (Zpos p * 2 ^ 53) (Zpos p) ltac:(lia)) as Heq.
    pose proof (Z.mod_pos_bound (Zpos p * 2 ^ 53) (Zpos p) ltac:(lia)) as Hm.
    unfold Z.modulo in Hm.
    destruct (Z.div_eucl (Zpos p * 2 ^ 53) (Zpos p)) as [q r].
    assert (q = 2 ^ 53) by nia. f_equal; nia. }
  assert (new_location (Zpos p) 0 = loc_Exact) as ->.
  { unfold new_location, new_location_even, new_location_odd.
    by destruct (Z.even (Zpos p)). }
  done.
Qed.

Lemma int_truediv_zero n : 0 < n → int_truediv 0 n = Ok f0.
Proof.
  intros Hn. unfold int_truediv.
  rewrite (proj2 (Z.eqb_neq n 0)) by lia.
  destruct n as [|p|p]; [lia|reflexivity|lia].
Qed.

(** * The adaptive algorithm *)

Lemma get_time_bin_int a t :
  NAHEOAdaptiveAlgorithm.time_bin_size a ≠ 0 →
  NAHEOAdaptiveAlgorithm._get_time_bin a (IntN t)
  = Ok (t / NAHEOAdaptiveAlgorithm.time_bin_size a).
Proof.
  intros Hs. unfold NAHEOAdaptiveAlgorithm._get_time_bin,
    number_floordiv_int, int_floordiv.
  by rewrite (proj2 (Z.eqb_neq _ _) Hs).
Qed.

Lemma pattern_at_Return bin a :
  NAHEOAdaptiveAlgorithm.pattern_at bin a =
  Return
    (NAHEOAdaptiveAlgorithm.set_activity_patterns
       (<[bin := default f0_5
                   (NAHEOAdaptiveAlgorithm.activity_patterns a !! bin)]>
          (NAHEOAdaptiveAlgorithm.activity_patterns a)) a)
    (default f0_5 (NAHEOAdaptiveAlgorithm.activity_patterns a !! bin)).
Proof.
  unfold NAHEOAdaptiveAlgorithm.pattern_at, bind, get.
  destruct (NAHEOAdaptiveAlgorithm.activity_patterns a !! bin) as [p|] eqn:E;
    [|done].
  cbn [default ret]. rewrite insert_id by done. by destruct a.
Qed.

(** What [update] leaves, field by field. *)
Lemma adaptive_update_Return a t (was_active user_request : bool) :
  NAHEOAdaptiveAlgorithm.time_bin_size a ≠ 0 →
  let bin := t / NAHEOAdaptiveAlgorithm.time_bin_size a in
  let appended :=
    NAHEOAdaptiveAlgorithm.recent_requests a
      ++ [if user_request then 1 else 0] in
  ∃ a',
    NAHEOAdaptiveAlgorithm.update (IntN t) was_active user_request a
    = Return a' tt ∧
    NAHEOAdaptiveAlgorithm.time_bin_size a'
    = NAHEOAdaptiveAlgorithm.time_bin_size a ∧
    NAHEOAdaptiveAlgorithm.max_history a'
    = NAHEOAdaptiveAlgorithm.max_history a ∧
    NAHEOAdaptiveAlgorithm.recent_requests a'
    = (if NAHEOAdaptiveAlgorithm.max_history a <? Z.of_nat (length appended)
       then tail appended else appended) ∧
    NAHEOAdaptiveAlgorithm.total_predictions a'
    = NAHEOAdaptiveAlgorithm.total_predictions a + 1 ∧
    NAHEOAdaptiveAlgorithm.correct_predictions a'
    = NAHEOAdaptiveAlgorithm.correct_predictions a
      + (if eqb was_active user_request then 1 else 0) ∧
    NAHEOAdaptiveAlgorithm.was_previously_active a' = was_active ∧
    NAHEOAdaptiveAlgorithm.pattern_counts a'
    = <[bin := default 0 (NAHEOAdaptiveAlgorithm.pattern_counts a !! bin) + 1]>
        (NAHEOAdaptiveAlgorithm.pattern_counts a) ∧
    NAHEOAdaptiveAlgorithm.activity_patterns a'
    = <[bin :=
          fadd (fmul (fsub f1 (NAHEOAdaptiveAlgorithm.learning_rate a))
                  (default f0_5
                     (NAHEOAdaptiveAlgorithm.activity_patterns a !! bin)))
               (fmul (NAHEOAdaptiveAlgorithm.learning_rate a)
                  (if user_request then f1 else f0))]>
        (NAHEOAdaptiveAlgorithm.activity_patterns a) ∧
    BaseAlgorithm.active_time (NAHEOAdaptiveAlgorithm.base a')
    = (if was_active
       then fadd (BaseAlgorithm.active_time (NAHEOAdaptiveAlgorithm.base a))
                 f1
       else BaseAlgorithm.active_time (NAHEOAdaptiveAlgorithm.base a)) ∧
    BaseAlgorithm.idle_time (NAHEOAdaptiveAlgorithm.base a')
    = (if was_active
       then BaseAlgorithm.idle_time (NAHEOAdaptiveAlgorithm.base a)
       else fadd (BaseAlgorithm.idle_time (NAHEOAdaptiveAlgorithm.base a))
                 f1).
Proof.
  intros Hs bin appended. eexists. split.
  - unfold NAHEOAdaptiveAlgorithm.update.
    unfold get at 1. unfold bind at 1. unfold put at 1. unfold bind at 1.
    unfold get at 1. unfold bind at 1.
    rewrite get_time_bin_int by (by destruct a).
    cbn [lift]. unfold ret at 1. unfold bind at 1.
    rewrite (bind_Return _ _ _ _ _ (pattern_at_Return _ _)).
    unfold bind, get, put. reflexivity.
  - destruct a. adaptive_fields. fold bin. fold appended.
    repeat split.
    + destruct was_active, user_request; cbn; lia.
    + by rewrite insert_insert_eq.
    + destruct was_active; [|done]. by case_match.
    + destruct was_active; [|done]. by case_match.
Qed.

Lemma set_activity_patterns_id a :
  NAHEOAdaptiveAlgorithm.set_activity_patterns
    (NAHEOAdaptiveAlgorithm.activity_patterns a) a = a.
Proof. by destruct a. Qed.

Lemma predict_activity_Return a t ctx :
  adaptive_ok a →
  let bin := t / NAHEOAdaptiveAlgorithm.time_bin_size a in
  ∃ p,
    NAHEOAdaptiveAlgorithm._predict_activity (IntN t) ctx a
    = Return
        (NAHEOAdaptiveAlgorithm.set_activity_patterns
           (<[bin := default f0_5
                       (NAHEOAdaptiveAlgorithm.activity_patterns a !! bin)]>
              (NAHEOAdaptiveAlgorithm.activity_patterns a)) a) p.
Proof.
  intros (Hs & Hbits & _) bin. unfold NAHEOAdaptiveAlgorithm._predict_activity.
  unfold get at 1. unfold bind at 1.
  rewrite get_time_bin_int by done. cbn [lift]. unfold ret at 1.
  unfold bind at 1.
  rewrite (bind_Return _ _ _ _ _ (pattern_at_Return _ _)). fold bin.
  unfold get at 1. unfold bind at 1.
  set (a1 := NAHEOAdaptiveAlgorithm.set_activity_patterns _ a).
  assert (NAHEOAdaptiveAlgorithm.recent_requests a1
          = NAHEOAdaptiveAlgorithm.recent_requests a) as Hrec by (by destruct a).
  rewrite Hrec.
  destruct (0 <? Z.of_nat (length (NAHEOAdaptiveAlgorithm.recent_requests a)))
    eqn:Elen; [|by eexists].
  destruct (recent_rate_small _ Hbits) as [q Hq].
  { intros E. rewrite E in Elen. done. }
  rewrite Hq. by eexists.
Qed.

(** What [should_activate] does on an adaptive algorithm that is in
    order: it ends normally; at most the table of patterns changes,
    by the default entry of the bin read; a request is always served and
    changes nothing. *)
Lemma adaptive_should_activate_Return a t user_request ctx :
  adaptive_ok a →
  let bin := t / NAHEOAdaptiveAlgorithm.time_bin_size a in
  ∃ b,
    NAHEOAdaptiveAlgorithm.should_activate (IntN t) user_request ctx a
    = Return
        (if user_request then a
         else NAHEOAdaptiveAlgorithm.set_activity_patterns
                (<[bin := default f0_5
                            (NAHEOAdaptiveAlgorithm.activity_patterns a
                               !! bin)]>
                   (NAHEOAdaptiveAlgorithm.activity_patterns a)) a) b ∧
    (user_request = true → b = true).
Proof.
  intros Hok bin. unfold NAHEOAdaptiveAlgorithm.should_activate.
  destruct user_request; [by exists true|].
  destruct (predict_activity_Return a t ctx Hok) as [p Hp]. fold bin in Hp.
  rewrite (bind_Return _ _ _ _ _ Hp).
  unfold get at 1. unfold bind at 1.
  destruct (fle _ _); [by exists true|].
  destruct (_ && _); by eexists.
Qed.

Lemma adaptive_ok_set_patterns P a :
  adaptive_ok a →
  adaptive_ok (NAHEOAdaptiveAlgorithm.set_activity_patterns P a).
Proof. by destruct a. Qed.

Lemma adaptive_ok_update a a' t wa ur :
  adaptive_ok a →
  NAHEOAdaptiveAlgorithm.update (IntN t) wa ur a = Return a' tt →
  adaptive_ok a'.
Proof.
  intros (Hs & Hbits & Hacc) Hup.
  destruct (adaptive_update_Return a t wa ur Hs)
    as (a2 & Heq & Hsize & _ & Hrec & Htot & Hcor & _).
  rewrite Heq in Hup. injection Hup as <-.
  split; [by rewrite Hsize|].
  split; [|rewrite Htot, Hcor; destruct (eqb wa ur); lia].
  rewrite Hrec.
  assert (Forall (λ r, r = 0 ∨ r = 1)
            (NAHEOAdaptiveAlgorithm.recent_requests a
               ++ [if ur then 1 else 0])) as Happ.
  { apply Forall_app. split; [done|].
    constructor; [destruct ur; auto|constructor]. }
  destruct (_ <? _); [|done].
  destruct (_ ++ _) as [|r l]; [done|]. by inversion Happ.
Qed.

Lemma times_active b b' act idl :
  times b act idl → 0 ≤ act → act + 1 < 2 ^ 53 →
  BaseAlgorithm.active_time b' = fadd (BaseAlgorithm.active_time b) f1 →
  BaseAlgorithm.idle_time b' = BaseAlgorithm.idle_time b →
  times b' (act + 1) idl.
Proof.
  intros [Ha Hi] Hact Hb Ha' Hi'. split; [|by rewrite Hi'].
  rewrite Ha', Ha. change f1 with (of_Z 1). apply fadd_of_Z; lia.
Qed.

Lemma times_idle b b' act idl :
  times b act idl → 0 ≤ idl → idl + 1 < 2 ^ 53 →
  BaseAlgorithm.active_time b' = BaseAlgorithm.active_time b →
  BaseAlgorithm.idle_time b' = fadd (BaseAlgorithm.idle_time b) f1 →
  times b' act (idl + 1).
Proof.
  intros [Ha Hi] Hidl Hb Ha' Hi'. split; [by rewrite Ha'|].
  rewrite Hi', Hi. change f1 with (of_Z 1). apply fadd_of_Z; lia.
Qed.

Lemma learned_more_refl a : learned_more a a.
Proof. by repeat split. Qed.

Lemma learned_more_trans a1 a2 a3 :
  learned_more a1 a2 → learned_more a2 a3 → learned_more a1 a3.
Proof.
  intros (Hm1 & Hc1 & Hd1 & Hn1) (Hm2 & Hc2 & Hd2 & Hn2).
  split; [congruence|]. split; [lia|]. split; [set_solver|].
  intros bin. specialize (Hn1 bin). specialize (Hn2 bin). lia.
Qed.

Lemma learned_more_set_patterns a P :
  dom (NAHEOAdaptiveAlgorithm.activity_patterns a) ⊆ dom P →
  learned_more a (NAHEOAdaptiveAlgorithm.set_activity_patterns P a).
Proof. intros HP. destruct a. by repeat split. Qed.

Lemma learned_more_update a a' t wa ur :
  NAHEOAdaptiveAlgorithm.time_bin_size a ≠ 0 →
  NAHEOAdaptiveAlgorithm.update (IntN t) wa ur a = Return a' tt →
  learned_more a a' ∧
  NAHEOAdaptiveAlgorithm.recent_requests a'
  = push_history (NAHEOAdaptiveAlgorithm.max_history a)
      (NAHEOAdaptiveAlgorithm.recent_requests a) (request_bit ur).
Proof.
  intros Hs Hup.
  destruct (adaptive_update_Return a t wa ur Hs)
    as (a2 & Heq & _ & Hmh & Hrec & _ & Hcor & _ & Hcnt & Hpat & _).
  rewrite Heq in Hup. injection Hup as <-.
  split; [|done].
  split; [done|]. split; [rewrite Hcor; destruct (eqb wa ur); lia|].
  split.
  - rewrite Hpat, dom_insert. set_solver.
  - intros bin. rewrite Hcnt.
    destruct (decide (bin = t / NAHEOAdaptiveAlgorithm.time_bin_size a))
      as [->|Hne].
    + rewrite lookup_insert_eq. destruct (_ !! _); simpl; lia.
    + by rewrite lookup_insert_ne.
Qed.

(** One pass of the loop body on the algorithm: the decision and the
    update both end normally, and what they leave. *)
Lemma step_Return alg t user_request ctx :
  algorithm_ok alg →
  ∃ alg1 b alg2,
    algorithm_should_activate (IntN t) user_request ctx alg = Return alg1 b ∧
    algorithm_update (IntN t) b user_request alg1 = Return alg2 tt ∧
    algorithm_ok alg2 ∧ same_kind alg alg2 = true ∧
    (user_request = true → serves_on_request alg = true → b = true) ∧
    (∀ a, alg = TimerBased a →
       b = existsb (TimerBasedAlgorithm.in_window
                      (default (IntN t) (ctx !! "time_of_day")))
             (TimerBasedAlgorithm.schedule a) ∧
       ∃ a2, alg2 = TimerBased a2 ∧
             TimerBasedAlgorithm.schedule a2
             = TimerBasedAlgorithm.schedule a) ∧
    (∀ a, alg = Adaptive a →
       ∃ a2, alg2 = Adaptive a2 ∧
             NAHEOAdaptiveAlgorithm.total_predictions a2
             = NAHEOAdaptiveAlgorithm.total_predictions a + 1 ∧
             NAHEOAdaptiveAlgorithm.recent_requests a2
             = push_history (NAHEOAdaptiveAlgorithm.max_history a)
                 (NAHEOAdaptiveAlgorithm.recent_requests a)
                 (request_bit user_request) ∧
             learned_more a a2) ∧
    (∀ a, alg = AlwaysOn a → b = true) ∧
    (∀ act idl,
       times (algorithm_base alg) act idl → 0 ≤ act → 0 ≤ idl →
       act + idl + 1 < 2 ^ 53 →
       times (algorithm_base alg2)
         (act + (if b then 1 else 0)) (idl + (if b then 0 else 1))).
Proof.
  intros Hok. destruct alg as [a|a|a].
  - eexists _, true, _. split; [reflexivity|].
    split; [unfold algorithm_update, dispatch,
              AlwaysOnAlgorithm.update, bind, get, put; reflexivity|].
    split; [done|]. split; [done|]. split; [done|]. split; [done|].
    split; [done|]. split; [done|].
    intros act idl Ht Hact Hidl Hsum. rewrite Z.add_0_r.
    by apply (times_active (AlwaysOnAlgorithm.base a)); [|lia|lia| |].
  - eexists _, _, _. split; [reflexivity|].
    split; [reflexivity|]. split; [done|]. split; [done|].
    split; [done|]. split; [intros a0 [= <-]; split; [done|]; by eexists|].
    split; [done|]. split; [done|].
    intros act idl Ht Hact Hidl Hsum.
    cbn [algorithm_base TimerBasedAlgorithm.base].
    destruct (existsb _ _); rewrite Z.add_0_r.
    + by apply (times_active (TimerBasedAlgorithm.base a)); [|lia|lia| |].
    + by apply (times_idle (TimerBasedAlgorithm.base a)); [|lia|lia| |].
  - cbn in Hok.
    destruct (adaptive_should_activate_Return a t user_request ctx Hok)
      as (b & Hsa & Hb).
    set (a1 := if user_request then a else _) in Hsa.
    assert (adaptive_ok a1) as Hok1.
    { subst a1. destruct user_request; [done|].
      by apply adaptive_ok_set_patterns. }
    assert (NAHEOAdaptiveAlgorithm.total_predictions a1
            = NAHEOAdaptiveAlgorithm.total_predictions a) as Htot.
    { subst a1. destruct user_request; [done|]. by destruct a. }
    assert (NAHEOAdaptiveAlgorithm.base a1 = NAHEOAdaptiveAlgorithm.base a)
      as Hbase.
    { subst a1. destruct user_request; [done|]. by destruct a. }
    destruct (adaptive_update_Return a1 t b user_request (proj1 Hok1))
      as (a2 & Hup & _ & _ & _ & Htot2 & _ & _ & _ & _ & Hact2 & Hidl2).
    rewrite Hbase in Hact2, Hidl2.
    exists (Adaptive a1), b, (Adaptive a2).
    split; [unfold algorithm_should_activate, dispatch; by rewrite Hsa|].
    split; [unfold algorithm_update, dispatch; by rewrite Hup|].
    split; [by apply (adaptive_ok_update a1 a2 t b user_request)|].
    split; [done|]. split; [intros Hr _; by apply Hb|]. split; [done|].
    split.
    { intros a0 [= <-]. exists a2. split; [done|]. split; [lia|].
      destruct (learned_more_update a1 a2 t b user_request (proj1 Hok1) Hup)
        as [Hmore Hrec].
      assert (learned_more a a1) as Hmore1.
      { subst a1. destruct user_request; [apply learned_more_refl|].
        apply learned_more_set_patterns. rewrite dom_insert. set_solver. }
      assert (NAHEOAdaptiveAlgorithm.recent_requests a1
              = NAHEOAdaptiveAlgorithm.recent_requests a
              ∧ NAHEOAdaptiveAlgorithm.max_history a1
                = NAHEOAdaptiveAlgorithm.max_history a) as [Hr1 Hm1].
      { subst a1. destruct user_request; [done|]. by destruct a. }
      rewrite Hr1, Hm1 in Hrec. split; [done|].
      by apply (learned_more_trans a a1 a2). }
    split; [done|].
    intros act idl Ht Hact Hidl Hsum.
    cbn [algorithm_base]. destruct b; rewrite Z.add_0_r.
    + by apply (times_active (NAHEOAdaptiveAlgorithm.base a)); [|lia|lia| |].
    + by apply (times_idle (NAHEOAdaptiveAlgorithm.base a)); [|lia|lia| |].
Qed.

Lemma same_kind_always_on alg alg' a :
  same_kind alg alg' = true → alg = AlwaysOn a → ∃ a', alg' = AlwaysOn a'.
Proof. intros Hk ->. destruct alg'; [by eexists|done|done]. Qed.

Lemma same_kind_serves alg alg' :
  same_kind alg alg' = true → serves_on_request alg' = serves_on_request alg.
Proof. by destruct alg, alg'. Qed.

Lemma same_kind_trans alg1 alg2 alg3 :
  same_kind alg1 alg2 = true → same_kind alg2 alg3 = true →
  same_kind alg1 alg3 = true.
Proof. by destruct alg1, alg2, alg3. Qed.

Lemma requests_cons b l :
  requests (b :: l) = (if b then 1 else 0) + requests l.
Proof.
  unfold requests. rewrite filter_cons.
  destruct b; case_decide; try done; cbn [length]; lia.
Qed.

(** The loop of [run_simulation] without progress reports. *)
Lemma steps_Return eng user_pattern : ∀ timestep served missed alg,
  0 ≤ timestep → timestep + Z.of_nat (length user_pattern) ≤ 2 ^ 53 →
  algorithm_ok alg →
  ∃ alg' s m,
    SimulationEngine.steps eng false timestep user_pattern served missed alg
    = Return alg' (s, m) ∧
    s + m = served + missed + requests user_pattern ∧
    served ≤ s ∧ missed ≤ m ∧
    (serves_on_request alg = true → m = missed) ∧
    algorithm_ok alg' ∧ same_kind alg alg' = true ∧
    (∀ a, alg = TimerBased a →
       (TimerBasedAlgorithm.schedule a = [] → s = served) ∧
       ∃ a', alg' = TimerBased a' ∧
             TimerBasedAlgorithm.schedule a'
             = TimerBasedAlgorithm.schedule a) ∧
    (∀ a, alg = Adaptive a →
       ∃ a', alg' = Adaptive a' ∧
             NAHEOAdaptiveAlgorithm.total_predictions a'
             = NAHEOAdaptiveAlgorithm.total_predictions a
               + Z.of_nat (length user_pattern) ∧
             NAHEOAdaptiveAlgorithm.recent_requests a'
             = foldl (push_history (NAHEOAdaptiveAlgorithm.max_history a))
                 (NAHEOAdaptiveAlgorithm.recent_requests a)
                 (request_bit <$> user_pattern) ∧
             learned_more a a') ∧
    (∀ act idl,
       times (algorithm_base alg) act idl → 0 ≤ act → 0 ≤ idl →
       act + idl + Z.of_nat (length user_pattern) < 2 ^ 53 →
       ∃ n, s - served ≤ n ≤ Z.of_nat (length user_pattern) ∧
            times (algorithm_base alg') (act + n)
              (idl + (Z.of_nat (length user_pattern) - n)) ∧
            (∀ a, alg = AlwaysOn a → n = Z.of_nat (length user_pattern))).
Proof.
  induction user_pattern as [|ur rest IH];
    intros timestep served missed alg Ht Hlen Hok.
  - exists alg, served, missed. split; [done|].
    split; [unfold requests; cbn; lia|]. split; [lia|]. split; [lia|].
    split; [done|]. split; [done|]. split; [by destruct alg|].
    split; [intros a ->; split; [done|]; by eexists|].
    split.
    { intros a ->. eexists. split; [done|]. split; [cbn [length]; lia|].
      split; [done|apply learned_more_refl]. }
    intros act idl Htimes _ _ _. exists 0. cbn [length].
    split; [lia|]. split; [|done]. by rewrite !Z.add_0_r.
  - cbn [length] in Hlen. cbn [SimulationEngine.steps].
    destruct (int_to_float_small timestep ltac:(lia)) as [tf Htf].
    rewrite Htf. cbn [lift]. unfold ret at 1. unfold bind at 1.
    unfold py_float_mod. change (feq f86400 f0) with false.
    cbn [lift]. unfold ret at 1. unfold bind at 1.
    set (ctx := <["timestamp" := IntN timestep]> _).
    destruct (step_Return alg timestep ur ctx Hok)
      as (alg1 & b & alg2 & Hsa & Hup & Hok2 & Hkind & Hserve & Htimer & Hadapt
          & Halways & Htimes).
    rewrite (bind_Return _ _ _ _ _ Hsa).
    rewrite (bind_Return _ _ _ _ _ Hup).
    cbn [SimulationEngine.progress_due lift]. unfold ret at 1.
    unfold bind at 1.
    destruct (IH (timestep + 1)
                (if ur && b then served + 1 else served)
                (if ur && negb b then missed + 1 else missed)
                alg2 ltac:(lia) ltac:(lia) Hok2)
      as (alg' & s & m & Hsteps & Hsum & Hs & Hm & Hserve' & Hok' & Hkind'
          & Htimer' & Hadapt' & Htimes').
    exists alg', s, m. split; [exact Hsteps|].
    rewrite requests_cons.
    split; [destruct ur, b; cbn [andb negb] in *; lia|].
    split; [destruct (ur && b); lia|].
    split; [destruct (ur && negb b); lia|].
    split.
    { intros Hsv. rewrite Hserve' by (by rewrite (same_kind_serves _ _ Hkind)).
      destruct ur; [|done]. by rewrite Hserve. }
    split; [done|]. split; [by apply (same_kind_trans _ _ _ Hkind Hkind')|].
    split.
    { intros a ->. destruct (Htimer a eq_refl) as (Hb & a2 & -> & Hsched).
      destruct (Htimer' a2 eq_refl) as (Hempty & a' & -> & Hsched').
      split.
      - intros Hnil. rewrite Hempty by (by rewrite Hsched).
        rewrite Hb, Hnil. cbn [existsb]. by rewrite andb_false_r.
      - exists a'. split; [done|]. by rewrite Hsched'. }
    split.
    { intros a ->.
      destruct (Hadapt a eq_refl) as (a2 & -> & Htot & Hrec & Hmore).
      destruct (Hadapt' a2 eq_refl) as (a' & -> & Htot' & Hrec' & Hmore').
      exists a'. split; [done|]. split; [cbn [length]; lia|].
      split; [|by apply (learned_more_trans a a2 a')].
      rewrite fmap_cons. cbn [foldl]. rewrite <- Hrec.
      by rewrite <- (proj1 Hmore). }
    intros act idl Ht0 Hact Hidl Hbound.
    cbn [length] in Hbound |- *. rewrite Nat2Z.inj_succ in Hbound |- *.
    specialize (Htimes act idl Ht0 Hact Hidl ltac:(lia)).
    destruct (Htimes' _ _ Htimes
                ltac:(destruct b; lia) ltac:(destruct b; lia)
                ltac:(destruct b; lia))
      as (n & Hn & Htn & Hall).
    exists (n + (if b then 1 else 0)).
    split; [destruct ur, b; cbn [andb negb] in *; lia|].
    split.
    + replace (act + (n + (if b then 1 else 0)))
        with (act + (if b then 1 else 0) + n) by lia.
      replace (idl + (Z.succ (Z.of_nat (length rest))
                      - (n + (if b then 1 else 0))))
        with (idl + (if b then 0 else 1) + (Z.of_nat (length rest) - n))
        by (destruct b; lia).
      done.
    + intros a ->. rewrite (Halways a eq_refl).
      destruct (same_kind_always_on _ _ a Hkind eq_refl) as [a2 ->].
      rewrite (Hall a2 eq_refl). lia.
Qed.

(** * The engine *)

Lemma algorithm_reset_ok alg :
  algorithm_ok alg → algorithm_ok (algorithm_reset alg).
Proof. destruct alg as [a|a|a]; [done|done|by destruct a]. Qed.

Lemma algorithm_reset_kind alg : same_kind alg (algorithm_reset alg) = true.
Proof. by destruct alg. Qed.

Lemma get_metrics_Return alg :
  algorithm_ok alg →
  ∃ metrics,
    algorithm_get_metrics alg = Ok metrics ∧
    metrics !! "energy_consumed"
    = Some (FloatN (BaseAlgorithm.energy_consumed (algorithm_base alg))) ∧
    metrics !! "active_time"
    = Some (FloatN (BaseAlgorithm.active_time (algorithm_base alg))) ∧
    metrics !! "idle_time"
    = Some (FloatN (BaseAlgorithm.idle_time (algorithm_base alg))) ∧
    metrics !! "total_time"
    = Some (FloatN (fadd (BaseAlgorithm.active_time (algorithm_base alg))
                         (BaseAlgorithm.idle_time (algorithm_base alg)))).
Proof.
  intros Hok. destruct alg as [a|a|a]; try (by eexists).
  destruct Hok as (_ & _ & Hacc).
  unfold algorithm_get_metrics, NAHEOAdaptiveAlgorithm.get_metrics.
  destruct (0 <? NAHEOAdaptiveAlgorithm.total_predictions a) eqn:E.
  - destruct (int_truediv_fraction _ _ Hacc) as [q ->]; [lia|].
    by eexists.
  - by eexists.
Qed.

Lemma positive_float_nonzero e :
  number_lt (IntN 0) (FloatN e) = true → feq e f0 = false.
Proof. by destruct e as [[]|[]| |[] m ex]. Qed.

(** A simulation without progress reports, on an algorithm that is in
    order and a pattern of the length of the engine: everything the
    result says about requests, and what is left of the algorithm. *)
Lemma run_simulation_Return eng user_pattern alg :
  Z.of_nat (length user_pattern) = SimulationEngine.duration eng →
  SimulationEngine.duration eng ≤ 2 ^ 53 →
  algorithm_ok alg →
  ∃ alg' res,
    SimulationEngine.run_simulation eng user_pattern false alg
    = Return alg' res ∧
    SimulationEngine.requests_served res
    + SimulationEngine.requests_missed res = requests user_pattern ∧
    0 ≤ SimulationEngine.requests_served res ∧
    0 ≤ SimulationEngine.requests_missed res ∧
    (serves_on_request alg = true →
     SimulationEngine.requests_missed res = 0) ∧
    algorithm_ok alg' ∧ same_kind alg alg' = true ∧
    (∀ a, alg = TimerBased a → TimerBasedAlgorithm.schedule a = [] →
       SimulationEngine.requests_served res = 0) ∧
    (∀ a, alg = Adaptive a →
       ∃ a', alg' = Adaptive a' ∧
             NAHEOAdaptiveAlgorithm.total_predictions a'
             = NAHEOAdaptiveAlgorithm.total_predictions a
               + SimulationEngine.duration eng ∧
             NAHEOAdaptiveAlgorithm.recent_requests a'
             = foldl (push_history (NAHEOAdaptiveAlgorithm.max_history a))
                 (NAHEOAdaptiveAlgorithm.recent_requests a)
                 (request_bit <$> user_pattern) ∧
             learned_more a a') ∧
    (if 0 <? requests user_pattern
     then int_truediv (SimulationEngine.requests_served res)
            (requests user_pattern)
     else Ok f1) = Ok (SimulationEngine.service_quality res) ∧
    (SimulationEngine.duration eng < 2 ^ 53 →
     ∃ n, SimulationEngine.requests_served res ≤ n
          ≤ SimulationEngine.duration eng ∧
          SimulationEngine.active_time res = FloatN (of_Z n) ∧
          SimulationEngine.idle_time res
          = FloatN (of_Z (SimulationEngine.duration eng - n)) ∧
          SimulationEngine.total_time res
          = FloatN (of_Z (SimulationEngine.duration eng)) ∧
          (∀ a, alg = AlwaysOn a → n = SimulationEngine.duration eng)).
Proof.
  intros Hlen Hdur Hok. unfold SimulationEngine.run_simulation.
  rewrite (proj2 (Z.eqb_eq _ _) Hlen). cbn [negb].
  unfold get at 1. unfold bind at 1. unfold put at 1. unfold bind at 1.
  destruct (steps_Return eng user_pattern 0 0 0 (algorithm_reset alg)
              ltac:(lia) ltac:(lia) (algorithm_reset_ok _ Hok))
    as (alg' & s & m & Hsteps & Hsum & Hs & Hm & Hserve & Hok' & Hkind
        & Htimer & Hadapt & Htimes).
  rewrite (bind_Return _ _ _ _ _ Hsteps).
  unfold get at 1. unfold bind at 1.
  destruct (get_metrics_Return alg' Hok')
    as (metrics & -> & Hen & Hact & Hidle & Htot).
  cbn [lift fst snd]. unfold ret at 1. unfold bind at 1.
  assert (∃ sq, (if 0 <? s + m then int_truediv s (s + m) else Ok f1) = Ok sq)
    as [sq Hsq].
  { destruct (0 <? s + m) eqn:E; [|by eexists].
    apply int_truediv_fraction; lia. }
  rewrite Hsq.
  cbn [lift]. unfold ret at 1. unfold bind at 1.
  unfold SimulationEngine.metric. rewrite Hen, Hact, Hidle, Htot.
  cbn [lift]. unfold ret at 1. unfold bind at 1.
  set (energy := BaseAlgorithm.energy_consumed (algorithm_base alg')).
  assert (∃ eff,
            (if number_lt (IntN 0) (FloatN energy)
             then match SimulationEngine.float_div_number sq (FloatN energy)
                  with Ok x => Ok (FloatN x) | Err e => Err e end
             else Ok (IntN 0)) = Ok eff) as [eff ->].
  { destruct (number_lt (IntN 0) (FloatN energy)) eqn:E; [|by eexists].
    cbn [SimulationEngine.float_div_number]. unfold py_truediv.
    rewrite (positive_float_nonzero _ E). by eexists. }
  cbn [lift]. do 4 (unfold ret at 1; unfold bind at 1). unfold ret.
  eexists _, _. split; [reflexivity|].
  cbn [SimulationEngine.requests_served SimulationEngine.requests_missed].
  split; [lia|]. split; [lia|]. split; [lia|].
  split.
  { intros Hsv. rewrite Hserve; [done|].
    by rewrite (same_kind_serves _ _ (algorithm_reset_kind alg)). }
  split; [done|].
  split; [by apply (same_kind_trans _ _ _ (algorithm_reset_kind alg) Hkind)|].
  split.
  { intros a -> Hnil. cbn [algorithm_reset] in Htimer.
    by destruct (Htimer _ eq_refl) as [-> _]. }
  split.
  { intros a ->. cbn [algorithm_reset] in Hadapt.
    destruct (Hadapt _ eq_refl) as (a' & -> & Htot' & Hrec' & Hmore').
    exists a'. split; [done|].
    split; [rewrite Htot', <- Hlen; by destruct a|].
    split; [rewrite Hrec'; by destruct a|].
    destruct Hmore' as (Hmh' & Hc' & Hd' & Hn'). by destruct a. }
  split.
  { cbn [SimulationEngine.service_quality]. rewrite <- Hsq.
    by replace (s + m) with (requests user_pattern) by lia. }
  intros Hlt.
  destruct (Htimes 0 0) as (n & Hn & [Hact' Hidle'] & Hall);
    [by destruct alg|lia|lia|lia|].
  rewrite Hlen, !Z.add_0_l in *.
  exists n.
  cbn [SimulationEngine.active_time SimulationEngine.idle_time
       SimulationEngine.total_time].
  split; [lia|]. rewrite Hact', Hidle'.
  split; [done|]. split; [done|]. split.
  - f_equal. rewrite fadd_of_Z by lia. f_equal. lia.
  - intros a ->. by apply (Hall _ eq_refl).
Qed.

(** X11. The length check of [run_simulation]: a pattern whose length is
    not the duration of the engine is refused with [ValueError] before
    the algorithm is touched; it is not even reset. *)
Theorem X11_run_simulation_length_check eng user_pattern verbose alg :
  Z.of_nat (length user_pattern) ≠ SimulationEngine.duration eng →
  SimulationEngine.run_simulation eng user_pattern verbose alg
  = Raise alg ValueError.
Proof.
  intros Hlen. unfold SimulationEngine.run_simulation.
  by rewrite (proj2 (Z.eqb_neq _ _) Hlen).
Qed.

Lemma X11_witness :
  SimulationEngine.run_simulation engine3 [true; false] true
    (Adaptive adaptive0)
  = Raise (Adaptive adaptive0) ValueError.
Proof.
  apply (X11_run_simulation_length_check engine3 [true; false] true
           (Adaptive adaptive0)).
  discriminate.
Defined.

(** X12. Every request is counted once: a simulation without progress
    reports, on an algorithm that is in order and a pattern of the
    length of the engine (at most [2^53] steps), ends normally, and the
    requests served and the requests missed are two natural numbers
    whose sum is the number of requests of the pattern; the algorithm
    left is of the same class and in order. *)
Theorem X12_requests_served_or_missed eng user_pattern alg :
  Z.of_nat (length user_pattern) = SimulationEngine.duration eng →
  SimulationEngine.duration eng ≤ 2 ^ 53 →
  algorithm_ok alg →
  ∃ alg' res,
    SimulationEngine.run_simulation eng user_pattern false alg
    = Return alg' res ∧
    SimulationEngine.requests_served res
    + SimulationEngine.requests_missed res = requests user_pattern ∧
    0 ≤ SimulationEngine.requests_served res ∧
    0 ≤ SimulationEngine.requests_missed res ∧
    algorithm_ok alg' ∧ same_kind alg alg' = true.
Proof.
  intros Hlen Hdur Hok.
  destruct (run_simulation_Return eng user_pattern alg Hlen Hdur Hok)
    as (alg' & res & Hrun & Hsum & Hs & Hm & _ & Hok' & Hkind & _).
  by exists alg', res.
Qed.

Lemma adaptive0_ok : adaptive_ok adaptive0.
Proof. split; [done|]. split; [constructor|]. cbn. lia. Qed.

Lemma X12_witness :
  ∃ alg' res,
    SimulationEngine.run_simulation engine3 [true; false; true] false
      (Adaptive adaptive0) = Return alg' res ∧
    SimulationEngine.requests_served res
    + SimulationEngine.requests_missed res = requests [true; false; true] ∧
    0 ≤ SimulationEngine.requests_served res ∧
    0 ≤ SimulationEngine.requests_missed res ∧
    algorithm_ok alg' ∧ same_kind (Adaptive adaptive0) alg' = true.
Proof.
  apply (X12_requests_served_or_missed engine3 [true; false; true]
           (Adaptive adaptive0)).
  - reflexivity.
  - cbn. lia.
  - apply adaptive0_ok.
Defined.

(** X13. The always-on and the adaptive algorithm never miss a request:
    in a simulation as above the requests missed are 0 and the requests
    served are all the requests of the pattern. *)
Theorem X13_no_request_missed eng user_pattern alg :
  Z.of_nat (length user_pattern) = SimulationEngine.duration eng →
  SimulationEngine.duration eng ≤ 2 ^ 53 →
  algorithm_ok alg → serves_on_request alg = true →
  ∃ alg' res,
    SimulationEngine.run_simulation eng user_pattern false alg
    = Return alg' res ∧
    SimulationEngine.requests_missed res = 0 ∧
    SimulationEngine.requests_served res = requests user_pattern.
Proof.
  intros Hlen Hdur Hok Hsv.
  destruct (run_simulation_Return eng user_pattern alg Hlen Hdur Hok)
    as (alg' & res & Hrun & Hsum & _ & _ & Hmiss & _).
  exists alg', res. split; [done|]. specialize (Hmiss Hsv). lia.
Qed.

Lemma X13_witness :
  ∃ alg' res,
    SimulationEngine.run_simulation engine3 [true; false; true] false
      (Adaptive adaptive0) = Return alg' res ∧
    SimulationEngine.requests_missed res = 0 ∧
    SimulationEngine.requests_served res = requests [true; false; true].
Proof.
  apply (X13_no_request_missed engine3 [true; false; true]
           (Adaptive adaptive0)).
  - reflexivity.
  - cbn. lia.
  - apply adaptive0_ok.
  - reflexivity.
Defined.

(** X14. A timer-based algorithm with an empty schedule is never
    active: in a simulation as above no request is served and every
    request of the pattern is missed; the service quality is 0.0 when
    the pattern has a request, and 1.0 when it has none. *)
Theorem X14_empty_schedule_serves_nothing eng user_pattern a :
  Z.of_nat (length user_pattern) = SimulationEngine.duration eng →
  SimulationEngine.duration eng ≤ 2 ^ 53 →
  TimerBasedAlgorithm.schedule a = [] →
  ∃ alg' res,
    SimulationEngine.run_simulation eng user_pattern false (TimerBased a)
    = Return alg' res ∧
    SimulationEngine.requests_served res = 0 ∧
    SimulationEngine.requests_missed res = requests user_pattern ∧
    SimulationEngine.service_quality res
    = (if 0 <? requests user_pattern then f0 else f1).
Proof.
  intros Hlen Hdur Hnil.
  destruct (run_simulation_Return eng user_pattern (TimerBased a) Hlen Hdur I)
    as (alg' & res & Hrun & Hsum & _ & _ & _ & _ & _ & Htimer & _ & Hq & _).
  exists alg', res. split; [done|].
  specialize (Htimer a eq_refl Hnil). split; [done|]. split; [lia|].
  rewrite Htimer in Hq.
  destruct (Z.ltb_spec 0 (requests user_pattern)) as [Hpos|_].
  - rewrite int_truediv_zero in Hq by done. by injection Hq.
  - by injection Hq.
Qed.

Lemma X14_witness :
  ∃ alg' res,
    SimulationEngine.run_simulation engine3 [true; false; true] false
      (TimerBased timer_never) = Return alg' res ∧
    SimulationEngine.requests_served res = 0 ∧
    SimulationEngine.requests_missed res = requests [true; false; true] ∧
    SimulationEngine.service_quality res
    = (if 0 <? requests [true; false; true] then f0 else f1).
Proof.
  apply (X14_empty_schedule_serves_nothing engine3 [true; false; true]
           timer_never).
  - reflexivity.
  - cbn. lia.
  - reflexivity.
Defined.

(** The history after a sequence of requests: the last [max_history]
    entries of the old history followed by the new ones. *)
Lemma foldl_push_history mh bits : ∀ l,
  0 ≤ mh → Z.of_nat (length l) ≤ mh →
  foldl (push_history mh) l bits
  = drop (length l + length bits - Z.to_nat mh) (l ++ bits).
Proof.
  induction bits as [|r bits IH]; intros l Hmh Hlen.
  - rewrite app_nil_r. cbn [foldl length].
    by replace (length l + 0 - Z.to_nat mh)%nat with 0%nat by lia.
  - cbn [foldl]. unfold push_history at 2.
    destruct (Z.ltb_spec mh (Z.of_nat (length (l ++ [r])))) as [Hpop|Hkeep];
      rewrite length_app in *; cbn [length] in *.
    + destruct l as [|x l]; cbn [app tail length] in *.
      * rewrite IH by (cbn [length]; lia). cbn [length app].
        replace (0 + length bits - Z.to_nat mh)%nat with (length bits) by lia.
        by replace (0 + S (length bits) - Z.to_nat mh)%nat
          with (S (length bits)) by lia.
      * rewrite IH by (rewrite ?length_app; cbn [length]; lia).
        rewrite length_app. cbn [length].
        replace (length l + 1 + length bits - Z.to_nat mh)%nat
          with (length bits) by lia.
        replace (S (length l) + S (length bits) - Z.to_nat mh)%nat
          with (S (length bits)) by lia.
        cbn [drop]. by rewrite <- app_assoc.
    + rewrite IH by (rewrite ?length_app; cbn [length]; lia).
      rewrite length_app. cbn [length]. rewrite <- app_assoc. cbn [app].
      f_equal. lia.
Qed.

(** With a pattern of the right length, a simulation starts from the
    reset algorithm: what the algorithm has spent before does not
    matter. *)
Lemma run_simulation_from_reset eng user_pattern verbose alg1 alg2 :
  Z.of_nat (length user_pattern) = SimulationEngine.duration eng →
  algorithm_reset alg1 = algorithm_reset alg2 →
  SimulationEngine.run_simulation eng user_pattern verbose alg1
  = SimulationEngine.run_simulation eng user_pattern verbose alg2.
Proof.
  intros Hlen Hreset. unfold SimulationEngine.run_simulation.
  rewrite (proj2 (Z.eqb_eq _ _) Hlen). cbn [negb].
  unfold get at 1. unfold bind at 1. unfold put at 1. unfold bind at 1.
  rewrite Hreset. symmetry.
  unfold get at 1. unfold bind at 1. unfold put at 1. unfold bind at 1.
  reflexivity.
Qed.

(** X15. [reset] clears the energy and the times only: a simulation on
    an adaptive algorithm gives the same result and leaves the same
    algorithm whatever energy and times the algorithm had accumulated
    before, while what it has learned is carried over into the
    simulation and out of it: the predictions counted go up by the
    duration, the correct ones do not go down, the history is the last
    [max_history] entries of the old history followed by the requests of
    the pattern, no bin of the table of patterns is lost and no count of
    a bin goes down. *)
Theorem X15_reset_keeps_learned_state eng user_pattern a :
  Z.of_nat (length user_pattern) = SimulationEngine.duration eng →
  SimulationEngine.duration eng ≤ 2 ^ 53 →
  adaptive_ok a →
  Z.of_nat (length (NAHEOAdaptiveAlgorithm.recent_requests a))
  ≤ NAHEOAdaptiveAlgorithm.max_history a →
  let history :=
    NAHEOAdaptiveAlgorithm.recent_requests a
      ++ (request_bit <$> user_pattern) in
  ∃ a' res,
    SimulationEngine.run_simulation eng user_pattern false (Adaptive a)
    = Return (Adaptive a') res ∧
    (∀ b, BaseAlgorithm.name b
          = BaseAlgorithm.name (NAHEOAdaptiveAlgorithm.base a) →
       SimulationEngine.run_simulation eng user_pattern false
         (Adaptive (NAHEOAdaptiveAlgorithm.set_base b a))
       = Return (Adaptive a') res) ∧
    NAHEOAdaptiveAlgorithm.total_predictions a'
    = NAHEOAdaptiveAlgorithm.total_predictions a
      + SimulationEngine.duration eng ∧
    NAHEOAdaptiveAlgorithm.correct_predictions a
    ≤ NAHEOAdaptiveAlgorithm.correct_predictions a' ∧
    NAHEOAdaptiveAlgorithm.recent_requests a'
    = drop (length history
            - Z.to_nat (NAHEOAdaptiveAlgorithm.max_history a)) history ∧
    dom (NAHEOAdaptiveAlgorithm.activity_patterns a)
    ⊆ dom (NAHEOAdaptiveAlgorithm.activity_patterns a') ∧
    (∀ bin,
       default 0 (NAHEOAdaptiveAlgorithm.pattern_counts a !! bin)
       ≤ default 0 (NAHEOAdaptiveAlgorithm.pattern_counts a' !! bin)).
Proof.
  intros Hlen Hdur Hok Hhist history.
  destruct (run_simulation_Return eng user_pattern (Adaptive a) Hlen Hdur Hok)
    as (alg' & res & Hrun & _ & _ & _ & _ & _ & _ & _ & Hadapt & _).
  destruct (Hadapt a eq_refl)
    as (a' & -> & Htot & Hrec & _ & Hcor & Hdom & Hcnt).
  exists a', res. split; [done|]. split.
  { intros b Hb. rewrite <- Hrun.
    apply run_simulation_from_reset; [done|].
    cbn [algorithm_reset]. f_equal. destruct a, b.
    cbn in Hb |- *. by rewrite Hb. }
  split; [done|]. split; [done|]. split; [|by split].
  rewrite Hrec, foldl_push_history by lia.
  subst history. by rewrite length_app.
Qed.

Lemma X15_witness :
  let history :=
    NAHEOAdaptiveAlgorithm.recent_requests adaptive0
      ++ (request_bit <$> [true; false; true]) in
  ∃ a' res,
    SimulationEngine.run_simulation engine3 [true; false; true] false
      (Adaptive adaptive0) = Return (Adaptive a') res ∧
    (∀ b, BaseAlgorithm.name b
          = BaseAlgorithm.name (NAHEOAdaptiveAlgorithm.base adaptive0) →
       SimulationEngine.run_simulation engine3 [true; false; true] false
         (Adaptive (NAHEOAdaptiveAlgorithm.set_base b adaptive0))
       = Return (Adaptive a') res) ∧
    NAHEOAdaptiveAlgorithm.total_predictions a'
    = NAHEOAdaptiveAlgorithm.total_predictions adaptive0
      + SimulationEngine.duration engine3 ∧
    NAHEOAdaptiveAlgorithm.correct_predictions adaptive0
    ≤ NAHEOAdaptiveAlgorithm.correct_predictions a' ∧
    NAHEOAdaptiveAlgorithm.recent_requests a'
    = drop (length history
            - Z.to_nat (NAHEOAdaptiveAlgorithm.max_history adaptive0))
        history ∧
    dom (NAHEOAdaptiveAlgorithm.activity_patterns adaptive0)
    ⊆ dom (NAHEOAdaptiveAlgorithm.activity_patterns a') ∧
    (∀ bin,
       default 0 (NAHEOAdaptiveAlgorithm.pattern_counts adaptive0 !! bin)
       ≤ default 0 (NAHEOAdaptiveAlgorithm.pattern_counts a' !! bin)).
Proof.
  apply (X15_reset_keeps_learned_state engine3 [true; false; true] adaptive0).
  - reflexivity.
  - cbn. lia.
  - apply adaptive0_ok.
  - cbn. lia.
Defined.

(** X16. Progress reports on a short simulation: with [verbose] set and
    a duration from 1 to 9, the tenth of the duration is 0 and the test
    of the first report divides by it.  The simulation fails with
    [ZeroDivisionError] in its first step, and the algorithm it leaves
    is the reset algorithm after the decision and the update of time
    step 0: its times are those of that one step, 1.0 active or 1.0
    idle, whatever they were before. *)
Theorem X16_verbose_short_run_fails eng user_request rest alg :
  Z.of_nat (length (user_request :: rest)) = SimulationEngine.duration eng →
  0 < SimulationEngine.duration eng < 10 →
  algorithm_ok alg →
  ∃ tod alg1 b alg',
    time_of_day (SimulationEngine.time_step eng) 0 = Ok tod ∧
    algorithm_should_activate (IntN 0) user_request
      (<["timestamp" := IntN 0]> (<["time_of_day" := FloatN tod]> ∅))
      (algorithm_reset alg) = Return alg1 b ∧
    algorithm_update (IntN 0) b user_request alg1 = Return alg' tt ∧
    SimulationEngine.run_simulation eng (user_request :: rest) true alg
    = Raise alg' ZeroDivisionError ∧
    times (algorithm_base alg') (if b then 1 else 0) (if b then 0 else 1).
Proof.
  intros Hlen Hdur Hok.
  destruct (time_of_day_small (SimulationEngine.time_step eng) 0 ltac:(lia))
    as [tod Htod].
  set (ctx := <["timestamp" := IntN 0]> (<["time_of_day" := FloatN tod]> ∅)
              : gmap string number).
  destruct (step_Return (algorithm_reset alg) 0 user_request ctx
              (algorithm_reset_ok _ Hok))
    as (alg1 & b & alg2 & Hsa & Hup & _ & _ & _ & _ & _ & _ & Htimes).
  exists tod, alg1, b, alg2.
  split; [done|]. split; [done|]. split; [done|]. split.
  - unfold SimulationEngine.run_simulation.
    rewrite (proj2 (Z.eqb_eq _ _) Hlen). cbn [negb].
    unfold get at 1. unfold bind at 1. unfold put at 1. unfold bind at 1.
    assert (SimulationEngine.steps eng true 0 (user_request :: rest) 0 0
              (algorithm_reset alg) = Raise alg2 ZeroDivisionError)
      as Hsteps.
    { cbn [SimulationEngine.steps]. unfold time_of_day in Htod.
      change (int_to_float 0) with (Ok f0) in Htod |- *.
      cbn [lift]. unfold ret at 1. unfold bind at 1.
      rewrite Htod. cbn [lift]. unfold ret at 1. unfold bind at 1.
      fold ctx.
      rewrite (bind_Return _ _ _ _ _ Hsa).
      rewrite (bind_Return _ _ _ _ _ Hup).
      unfold SimulationEngine.progress_due, int_floordiv. cbn [Z.eqb].
      by rewrite (Z.div_small (SimulationEngine.duration eng) 10) by lia. }
    by rewrite (bind_Raise _ _ _ _ _ Hsteps).
  - specialize (Htimes 0 0). rewrite !Z.add_0_l in Htimes.
    apply Htimes; [by destruct alg|lia|lia|lia].
Qed.

Lemma X16_witness :
  ∃ tod alg1 b alg',
    time_of_day (SimulationEngine.time_step engine3) 0 = Ok tod ∧
    algorithm_should_activate (IntN 0) true
      (<["timestamp" := IntN 0]> (<["time_of_day" := FloatN tod]> ∅))
      (algorithm_reset (Adaptive adaptive0)) = Return alg1 b ∧
    algorithm_update (IntN 0) b true alg1 = Return alg' tt ∧
    SimulationEngine.run_simulation engine3 (true :: [false; true]) true
      (Adaptive adaptive0)
    = Raise alg' ZeroDivisionError ∧
    times (algorithm_base alg') (if b then 1 else 0) (if b then 0 else 1).
Proof.
  apply (X16_verbose_short_run_fails engine3 true [false; true]
           (Adaptive adaptive0)).
  - reflexivity.
  - cbn. lia.
  - apply adaptive0_ok.
Defined.

(** X17. One [update] of the adaptive algorithm, for an integer time
    step and a non-zero bin size: it ends normally; the history is what
    is left of the old history with the new request appended once the
    oldest entry has been dropped if there were more than [max_history],
    so a history within [max_history] stays within it; one prediction
    more is counted, and one correct prediction more exactly when the
    system was active and the user asked or neither; the count of the
    bin of the time step goes up by one. *)
Theorem X17_update_history_and_counters a t (was_active user_request : bool) :
  NAHEOAdaptiveAlgorithm.time_bin_size a ≠ 0 →
  0 ≤ NAHEOAdaptiveAlgorithm.max_history a →
  Z.of_nat (length (NAHEOAdaptiveAlgorithm.recent_requests a))
  ≤ NAHEOAdaptiveAlgorithm.max_history a →
  let bin := t / NAHEOAdaptiveAlgorithm.time_bin_size a in
  ∃ a',
    NAHEOAdaptiveAlgorithm.update (IntN t) was_active user_request a
    = Return a' tt ∧
    Z.of_nat (length (NAHEOAdaptiveAlgorithm.recent_requests a'))
    ≤ NAHEOAdaptiveAlgorithm.max_history a' ∧
    NAHEOAdaptiveAlgorithm.recent_requests a'
      `suffix_of` NAHEOAdaptiveAlgorithm.recent_requests a
                  ++ [if user_request then 1 else 0] ∧
    NAHEOAdaptiveAlgorithm.total_predictions a'
    = NAHEOAdaptiveAlgorithm.total_predictions a + 1 ∧
    NAHEOAdaptiveAlgorithm.correct_predictions a'
    = NAHEOAdaptiveAlgorithm.correct_predictions a
      + (if eqb was_active user_request then 1 else 0) ∧
    NAHEOAdaptiveAlgorithm.pattern_counts a' !! bin
    = Some (default 0 (NAHEOAdaptiveAlgorithm.pattern_counts a !! bin) + 1).
Proof.
  intros Hs Hmax Hlen bin.
  destruct (adaptive_update_Return a t was_active user_request Hs)
    as (a' & Hup & _ & Hmh & Hrec & Htot & Hcor & _ & Hcnt & _).
  exists a'. split; [done|]. rewrite Hmh, Hrec.
  set (appended := _ ++ _).
  assert (length appended
          = S (length (NAHEOAdaptiveAlgorithm.recent_requests a))) as Happ.
  { subst appended. rewrite length_app. cbn [length]. lia. }
  split.
  { destruct (Z.ltb_spec (NAHEOAdaptiveAlgorithm.max_history a)
                (Z.of_nat (length appended))); [|lia].
    destruct appended; cbn [tail length] in *; lia. }
  split.
  { destruct (_ <? _); [|done].
    destruct appended as [|r l]; [done|]. cbn [tail]. by apply suffix_cons_r. }
  split; [done|]. split; [done|].
  rewrite Hcnt. apply lookup_insert_eq.
Qed.

Lemma X17_witness :
  let bin := 125 / NAHEOAdaptiveAlgorithm.time_bin_size adaptive0 in
  ∃ a',
    NAHEOAdaptiveAlgorithm.update (IntN 125) true false adaptive0
    = Return a' tt ∧
    Z.of_nat (length (NAHEOAdaptiveAlgorithm.recent_requests a'))
    ≤ NAHEOAdaptiveAlgorithm.max_history a' ∧
    NAHEOAdaptiveAlgorithm.recent_requests a'
      `suffix_of` NAHEOAdaptiveAlgorithm.recent_requests adaptive0
                  ++ [if false then 1 else 0] ∧
    NAHEOAdaptiveAlgorithm.total_predictions a'
    = NAHEOAdaptiveAlgorithm.total_predictions adaptive0 + 1 ∧
    NAHEOAdaptiveAlgorithm.correct_predictions a'
    = NAHEOAdaptiveAlgorithm.correct_predictions adaptive0
      + (if eqb true false then 1 else 0) ∧
    NAHEOAdaptiveAlgorithm.pattern_counts a' !! bin
    = Some (default 0 (NAHEOAdaptiveAlgorithm.pattern_counts adaptive0
                         !! bin) + 1).
Proof.
  apply (X17_update_history_and_counters adaptive0 125 true false).
  - discriminate.
  - cbn. lia.
  - cbn. lia.
Defined.

(** X18. Asking changes the table: when the adaptive algorithm is asked
    for a decision without a request, for a time step whose bin has no
    pattern yet, the read stores the neutral prior 0.5 for that bin, so
    the table of patterns, whose size is reported as the number of
    learned patterns, has one entry more; nothing else of the algorithm
    changes. *)
Theorem X18_decision_stores_prior a t ctx :
  adaptive_ok a →
  NAHEOAdaptiveAlgorithm.activity_patterns a
    !! (t / NAHEOAdaptiveAlgorithm.time_bin_size a) = None →
  ∃ b,
    NAHEOAdaptiveAlgorithm.should_activate (IntN t) false ctx a
    = Return
        (NAHEOAdaptiveAlgorithm.set_activity_patterns
           (<[t / NAHEOAdaptiveAlgorithm.time_bin_size a := f0_5]>
              (NAHEOAdaptiveAlgorithm.activity_patterns a)) a) b ∧
    size (<[t / NAHEOAdaptiveAlgorithm.time_bin_size a := f0_5]>
            (NAHEOAdaptiveAlgorithm.activity_patterns a))
    = S (size (NAHEOAdaptiveAlgorithm.activity_patterns a)).
Proof.
  intros Hok Hnone.
  destruct (adaptive_should_activate_Return a t false ctx Hok) as (b & Hsa & _).
  rewrite Hnone in Hsa. cbn [default] in Hsa.
  exists b. split; [done|]. by apply map_size_insert_None.
Qed.

Lemma X18_witness :
  ∃ b,
    NAHEOAdaptiveAlgorithm.should_activate (IntN 125) false ∅ adaptive0
    = Return
        (NAHEOAdaptiveAlgorithm.set_activity_patterns
           (<[125 / NAHEOAdaptiveAlgorithm.time_bin_size adaptive0 := f0_5]>
              (NAHEOAdaptiveAlgorithm.activity_patterns adaptive0))
           adaptive0) b ∧
    size (<[125 / NAHEOAdaptiveAlgorithm.time_bin_size adaptive0 := f0_5]>
            (NAHEOAdaptiveAlgorithm.activity_patterns adaptive0))
    = S (size (NAHEOAdaptiveAlgorithm.activity_patterns adaptive0)).
Proof.
  apply (X18_decision_stores_prior adaptive0 125 ∅).
  - apply adaptive0_ok.
  - reflexivity.
Defined.
(** * What a result says about time and quality *)

(** X21. The times of a result are exact: after a simulation without
    progress reports of fewer than [2^53] steps, on an algorithm that is
    in order, the active time is the float of a number [n] of steps, at
    least the requests served and at most the duration, the idle time is
    the float of the duration less [n], and the total time is the float
    of the duration; the always-on algorithm is active in every step. *)
Theorem X21_times_add_up eng user_pattern alg :
  Z.of_nat (length user_pattern) = SimulationEngine.duration eng →
  SimulationEngine.duration eng < 2 ^ 53 →
  algorithm_ok alg →
  ∃ alg' res n,
    SimulationEngine.run_simulation eng user_pattern false alg
    = Return alg' res ∧
    SimulationEngine.requests_served res ≤ n ≤ SimulationEngine.duration eng ∧
    SimulationEngine.active_time res = FloatN (of_Z n) ∧
    SimulationEngine.idle_time res
    = FloatN (of_Z (SimulationEngine.duration eng - n)) ∧
    SimulationEngine.total_time res
    = FloatN (of_Z (SimulationEngine.duration eng)) ∧
    (∀ a, alg = AlwaysOn a → n = SimulationEngine.duration eng).
Proof.
  intros Hlen Hdur Hok.
  destruct (run_simulation_Return eng user_pattern alg Hlen ltac:(lia) Hok)
    as (alg' & res & Hrun & _ & _ & _ & _ & _ & _ & _ & _ & _ & Htimes).
  destruct (Htimes Hdur) as (n & Hn & Hact & Hidle & Htot & Hall).
  by exists alg', res, n.
Qed.

Lemma X21_witness :
  ∃ alg' res n,
    SimulationEngine.run_simulation engine3 [true; false; true] false
      (TimerBased timer_never) = Return alg' res ∧
    SimulationEngine.requests_served res ≤ n
    ≤ SimulationEngine.duration engine3 ∧
    SimulationEngine.active_time res = FloatN (of_Z n) ∧
    SimulationEngine.idle_time res
    = FloatN (of_Z (SimulationEngine.duration engine3 - n)) ∧
    SimulationEngine.total_time res
    = FloatN (of_Z (SimulationEngine.duration engine3)) ∧
    (∀ a, TimerBased timer_never = AlwaysOn a →
       n = SimulationEngine.duration engine3).
Proof.
  apply (X21_times_add_up engine3 [true; false; true]
           (TimerBased timer_never)).
  - reflexivity.
  - cbn. lia.
  - exact I.
Defined.

(** X22. The always-on and the adaptive algorithm are given a service
    quality of exactly 1.0 by every simulation as above, whatever the
    pattern: with requests it is the quotient of the requests served by
    themselves, without requests it is 1.0 by convention. *)
Theorem X22_full_service_quality eng user_pattern alg :
  Z.of_nat (length user_pattern) = SimulationEngine.duration eng →
  SimulationEngine.duration eng ≤ 2 ^ 53 →
  algorithm_ok alg → serves_on_request alg = true →
  ∃ alg' res,
    SimulationEngine.run_simulation eng user_pattern false alg
    = Return alg' res ∧
    SimulationEngine.service_quality res = f1.
Proof.
  intros Hlen Hdur Hok Hsv.
  destruct (run_simulation_Return eng user_pattern alg Hlen Hdur Hok)
    as (alg' & res & Hrun & Hsum & _ & _ & Hmiss & _ & _ & _ & _ & Hq & _).
  exists alg', res. split; [done|]. specialize (Hmiss Hsv).
  replace (SimulationEngine.requests_served res)
    with (requests user_pattern) in Hq by lia.
  destruct (Z.ltb_spec 0 (requests user_pattern)) as [Hpos|_].
  - rewrite int_truediv_self in Hq by done. by injection Hq.
  - by injection Hq.
Qed.

Lemma X22_witness :
  ∃ alg' res,
    SimulationEngine.run_simulation engine3 [true; false; true] false
      (AlwaysOn always0) = Return alg' res ∧
    SimulationEngine.service_quality res = f1.
Proof.
  apply (X22_full_service_quality engine3 [true; false; true]
           (AlwaysOn always0)).
  - reflexivity.
  - cbn. lia.
  - exact I.
  - reflexivity.
Defined.

(** * The periodic pattern *)

Lemma periodic_loop_Ok period (timesteps : list Z) : ∀ acc,
  period ≠ 0 →
  UserBehaviorGenerator.periodic_loop timesteps period acc
  = Ok (acc ++ ((λ t, t mod period <? 20) <$> timesteps)).
Proof.
  induction timesteps as [|t ts IH]; intros acc Hp.
  - by rewrite app_nil_r.
  - cbn [UserBehaviorGenerator.periodic_loop]. unfold int_mod.
    rewrite (proj2 (Z.eqb_neq _ _) Hp). rewrite IH by done.
    by rewrite <- app_assoc.
Qed.

(** X19. The periodic pattern in closed form: with a period of 0 and a
    positive duration the first step divides by zero; otherwise the
    pattern has one entry per time step from 0 to the duration, and the
    entry of time step [t] is a request exactly when the remainder of
    [t] by the period is below 20 (for a negative period, always). *)
Theorem X19_periodic_pattern_closed_form duration period :
  UserBehaviorGenerator._generate_periodic_pattern duration period
  = if (period =? 0) && (0 <? duration) then Err ZeroDivisionError
    else Ok ((λ t, t mod period <? 20) <$> seqZ 0 duration).
Proof.
  unfold UserBehaviorGenerator._generate_periodic_pattern.
  destruct (Z.eqb_spec period 0) as [->|Hp].
  - destruct (Z.ltb_spec 0 duration) as [Hd|Hd]; cbn [andb].
    + rewrite (seqZ_cons 0 duration) by lia. done.
    + unfold seqZ. by replace (Z.to_nat duration) with 0%nat by lia.
  - cbn [andb]. by rewrite periodic_loop_Ok.
Qed.

Lemma requests_app l1 l2 : requests (l1 ++ l2) = requests l1 + requests l2.
Proof. unfold requests. rewrite filter_app, length_app. lia. Qed.

Lemma requests_none (f : Z → bool) (l : list Z) :
  Forall (λ t, f t = false) l → requests (f <$> l) = 0.
Proof.
  induction 1 as [|t l Ht _ IH]; [done|].
  rewrite fmap_cons, requests_cons, Ht, IH. done.
Qed.

Lemma requests_ext (f g : Z → bool) (l : list Z) :
  Forall (λ t, f t = g t) l → requests (f <$> l) = requests (g <$> l).
Proof.
  induction 1 as [|t l Ht _ IH]; [done|].
  by rewrite !fmap_cons, !requests_cons, Ht, IH.
Qed.

(** The requests of one period. *)
Lemma requests_one_period period start :
  20 ≤ period → start mod period = 0 →
  requests ((λ t, t mod period <? 20) <$> seqZ start period) = 20.
Proof.
  intros Hp Hstart.
  rewrite <- (Z.add_0_r start) at 1. rewrite <- fmap_add_seqZ.
  rewrite <- list_fmap_compose.
  rewrite (requests_ext _ (λ j, j <? 20)).
  - replace period with (20 + (period - 20)) by lia.
    rewrite seqZ_app by lia. rewrite fmap_app, requests_app.
    rewrite (requests_none _ (seqZ (0 + 20) (period - 20))).
    + by vm_compute.
    + apply Forall_forall. intros j Hj. apply elem_of_seqZ in Hj.
      apply Z.ltb_ge. lia.
  - apply Forall_forall. intros j Hj. apply elem_of_seqZ in Hj. cbn.
    f_equal. pose proof (Z.div_mod start period ltac:(lia)) as Hq.
    rewrite Hstart in Hq.
    replace (start + j) with (j + start `div` period * period) by lia.
    rewrite Z.mod_add by lia. apply Z.mod_small. lia.
Qed.

(** The requests of [k] whole periods. *)
Lemma periodic_requests period (k : nat) :
  20 ≤ period →
  requests ((λ t, t mod period <? 20) <$> seqZ 0 (Z.of_nat k * period))
  = 20 * Z.of_nat k.
Proof.
  intros Hp. induction k as [|k IH]; [done|].
  replace (Z.of_nat (S k) * period) with (Z.of_nat k * period + period) by lia.
  rewrite seqZ_app by lia. rewrite fmap_app, requests_app, IH.
  rewrite Z.add_0_l, requests_one_period; [lia|done|].
  by rewrite Z.mod_mul by lia.
Qed.

Lemma periodic_pattern_Ok duration period :
  period ≠ 0 →
  UserBehaviorGenerator._generate_periodic_pattern duration period
  = Ok ((λ t, t mod period <? 20) <$> seqZ 0 duration).
Proof.
  intros Hp. unfold UserBehaviorGenerator._generate_periodic_pattern.
  by rewrite periodic_loop_Ok.
Qed.

(** X20. The duty of the periodic pattern: for a period of at least 20,
    a pattern of [k] whole periods asks in exactly [20 * k] of its time
    steps. *)
Theorem X20_periodic_pattern_duty period (k : nat) :
  20 ≤ period →
  ∃ l,
    UserBehaviorGenerator._generate_periodic_pattern
      (Z.of_nat k * period) period = Ok l ∧
    length l = Z.to_nat (Z.of_nat k * period) ∧
    requests l = 20 * Z.of_nat k.
Proof.
  intros Hp. rewrite periodic_pattern_Ok by lia.
  eexists. split; [done|].
  split; [by rewrite length_fmap, length_seqZ|].
  by apply periodic_requests.
Qed.

Lemma X20_witness :
  ∃ l,
    UserBehaviorGenerator._generate_periodic_pattern
      (Z.of_nat 2 * 300) 300 = Ok l ∧
    length l = Z.to_nat (Z.of_nat 2 * 300) ∧
    requests l = 20 * Z.of_nat 2.
Proof. apply (X20_periodic_pattern_duty 300 2). lia. Defined.

(** X23. The periodic pattern and the engine together: the pattern
    generated for the duration of the engine has the length the engine
    asks for, and when the duration is [k] whole periods of at least 20
    steps, the always-on and the adaptive algorithm serve exactly
    [20 * k] requests on it and miss none. *)
Theorem X23_periodic_simulation eng alg period (k : nat) :
  20 ≤ period →
  SimulationEngine.duration eng = Z.of_nat k * period →
  SimulationEngine.duration eng ≤ 2 ^ 53 →
  algorithm_ok alg → serves_on_request alg = true →
  ∃ user_pattern alg' res,
    UserBehaviorGenerator._generate_periodic_pattern
      (SimulationEngine.duration eng) period = Ok user_pattern ∧
    SimulationEngine.run_simulation eng user_pattern false alg
    = Return alg' res ∧
    SimulationEngine.requests_served res = 20 * Z.of_nat k ∧
    SimulationEngine.requests_missed res = 0.
Proof.
  intros Hp Hdur Hle Hok Hsv.
  rewrite periodic_pattern_Ok by lia.
  set (l := _ <$> _).
  assert (Z.of_nat (length l) = SimulationEngine.duration eng) as Hlen.
  { subst l. rewrite length_fmap, length_seqZ. apply Z2Nat.id.
    rewrite Hdur. nia. }
  destruct (run_simulation_Return eng l alg Hlen Hle Hok)
    as (alg' & res & Hrun & Hsum & _ & _ & Hmiss & _).
  exists l, alg', res. split; [done|]. split; [done|].
  specialize (Hmiss Hsv). subst l. rewrite Hdur in Hsum.
  rewrite periodic_requests in Hsum by done. lia.
Qed.

Lemma X23_witness :
  ∃ user_pattern alg' res,
    UserBehaviorGenerator._generate_periodic_pattern
      (SimulationEngine.duration engine600) 300 = Ok user_pattern ∧
    SimulationEngine.run_simulation engine600 user_pattern false
      (Adaptive adaptive0) = Return alg' res ∧
    SimulationEngine.requests_served res = 20 * Z.of_nat 2 ∧
    SimulationEngine.requests_missed res = 0.
Proof.
  apply (X23_periodic_simulation engine600 (Adaptive adaptive0) 300 2).
  - lia.
  - reflexivity.
  - cbn. lia.
  - apply adaptive0_ok.
  - reflexivity.
Defined.
